(** * YOLO detection pipeline (yolo_detector.cpp, ffi_bridge.cpp)

    A shallow embedding of the detector's preprocessing descriptor, tensor
    serialisation, model-variant detection, output decoding, coordinate
    mapping and non-maximum suppression, together with the properties the
    specification states about them.

    C++ [float] is IEEE-754 binary32; it is modelled by the Standard
    Library's [spec_float] at precision 24 and maximal exponent 128, so
    comparisons with NaN, signed zeros and rounding behave as in the
    program.  [int] values are integers of [Z]; narrowing casts are written
    out.  Signed overflow is undefined in the source: the sizes and
    offsets computed from the dimensions and strides a caller passes are
    checked for it, and index arithmetic on tensors is exact (an overflow
    there is out of reach for tensors that fit in memory).  The image
    library, [std::sort], [expf] and the inference session are
    parameters. *)

From Stdlib Require Import ZArith Bool List Ascii String Lia.
From Stdlib Require Import Floats.SpecFloat.
From Stdlib Require Import DecimalString.
From stdpp Require Import base tactics option list sorting.

Local Open Scope Z_scope.

(** ** Binary32 arithmetic *)

Module F32.

Definition prec : Z := 24.
Definition emax : Z := 128.

Definition float : Type := spec_float.

Definition add : float -> float -> float := SFadd prec emax.
Definition sub : float -> float -> float := SFsub prec emax.
Definition mul : float -> float -> float := SFmul prec emax.
Definition div : float -> float -> float := SFdiv prec emax.
Definition ltb : float -> float -> bool := SFltb.
Definition leb : float -> float -> bool := SFleb.

(** [a > b] in the source is [b < a]. *)
Definition gtb (a b : float) : bool := ltb b a.

Definition is_nan (f : float) : bool :=
  match f with S754_nan => true | _ => false end.

(** [static_cast<float>(n)] for an integer [n]: round to nearest even. *)
Definition of_int (z : Z) : float := binary_normalize prec emax z 0 false.

(** The literal [0.0f]. *)
Definition zero : float := S754_zero false.

(** [std::min(a, b)] is [(b < a) ? b : a]; [std::max(a, b)] is
    [(a < b) ? b : a]. *)
Definition std_min (a b : float) : float := if ltb b a then b else a.
Definition std_max (a b : float) : float := if ltb a b then b else a.

(** [static_cast<int>(f)]: truncation toward zero.  The conversion is
    undefined when the truncated value does not fit a 32-bit [int] (NaN and
    the infinities included); the model returns [None] there. *)
Definition trunc (f : float) : option Z :=
  match f with
  | S754_zero _ => Some 0
  | S754_finite s m e =>
      let a := match e with
               | Zneg p => Z.shiftr (Zpos m) (Zpos p)
               | _ => Z.shiftl (Zpos m) e
               end in
      Some (if s then - a else a)
  | _ => None
  end.

Definition int_min : Z := - 2 ^ 31.
Definition int_max : Z := 2 ^ 31 - 1.

Definition to_int (f : float) : option Z :=
  match trunc f with
  | Some z => if (int_min <=? z) && (z <=? int_max) then Some z else None
  | None => None
  end.

(** *** The order on non-NaN values

    [SFcompare] orders the non-NaN values as: negative infinity, negative
    finite values, the two zeros, positive finite values, positive infinity.
    [key] sends a value to a triple of integers ordered lexicographically
    in the same way. *)

Definition key (f : float) : Z * Z * Z :=
  match f with
  | S754_infinity true => (-2, 0, 0)
  | S754_finite true m e => (-1, - e, - Zpos m)
  | S754_zero _ => (0, 0, 0)
  | S754_finite false m e => (1, e, Zpos m)
  | S754_infinity false => (2, 0, 0)
  | S754_nan => (3, 0, 0)
  end.

(** A value of sign [s] (zero, finite or infinite); no NaN has one. *)
Definition has_sign (s : bool) (f : float) : Prop :=
  match f with
  | S754_zero s' | S754_infinity s' | S754_finite s' _ _ => s' = s
  | S754_nan => False
  end.

(** Equal, or zeros both (of whatever signs). *)
Definition sim (x y : float) : Prop :=
  x = y \/ exists s s', x = S754_zero s /\ y = S754_zero s'.

Definition lt3 (a b : Z * Z * Z) : Prop :=
  let '(a1, a2, a3) := a in
  let '(b1, b2, b3) := b in
  a1 < b1 \/ (a1 = b1 /\ (a2 < b2 \/ (a2 = b2 /\ a3 < b3))).

End F32.

(** ** Outcomes of fallible code

    [Throws]: a C++ exception leaves the function (raised by OpenCV, by the
    inference session or by an allocation).  [Undefined]: the program
    reads outside a buffer or converts a float that does not fit [int];
    the language gives such a run no meaning. *)

Inductive result (A : Type) : Type :=
| Ok (a : A)
| Throws
| Undefined.

Arguments Ok {A} a.
Arguments Throws {A}.
Arguments Undefined {A}.

Definition bind {A B : Type} (r : result A) (k : A -> result B) : result B :=
  match r with
  | Ok a => k a
  | Throws => Throws
  | Undefined => Undefined
  end.

Notation "'let*' x := r 'in' k" := (bind r (fun x => k))
  (at level 10, x name, r at level 200, k at level 200).

Definition or_undefined {A : Type} (o : option A) : result A :=
  match o with Some a => Ok a | None => Undefined end.

(** A counted loop [for (int i = start; ...; i++)] of [n] rounds whose body
    either pushes one element, skips the round ([continue]) or fails. *)
Fixpoint for_each {A : Type} (body : Z -> result (option A)) (start : Z) (n : nat)
  : result (list A) :=
  match n with
  | O => Ok []
  | S n' =>
      let* r := body start in
      let* rest := for_each body (start + 1) n' in
      Ok (match r with Some a => a :: rest | None => rest end)
  end.

(** ** Data model (yolo_detector.hpp) *)

Record Detection : Type := mkDetection {
  class_id : Z;
  class_name : string;
  confidence : F32.float;
  x1 : F32.float;
  y1 : F32.float;
  x2 : F32.float;
  y2 : F32.float
}.

Inductive ModelType : Type := YOLOV8 | YOLOX | PPYOLOE.

Definition ModelType_eqb (a b : ModelType) : bool :=
  match a, b with
  | YOLOV8, YOLOV8 | YOLOX, YOLOX | PPYOLOE, PPYOLOE => true
  | _, _ => false
  end.

(** The detector's fields.  The three ONNX Runtime handles are external
    resources; [m_session_loaded] records whether they are set. *)
Record YoloDetector : Type := mkYoloDetector {
  m_initialized : bool;
  m_input_width : Z;
  m_input_height : Z;
  m_num_classes : Z;
  m_model_type : ModelType;
  m_class_names : list string;
  m_session_loaded : bool;
  m_input_names_str : list string;
  m_output_names_str : list string
}.

(** [static_cast<int>] of a 64-bit or [size_t] value: reduction modulo
    2^32 into the signed range. *)
Definition cast_int (z : Z) : Z := (z + 2 ^ 31) mod 2 ^ 32 - 2 ^ 31.

Definition COCO_CLASSES : list string :=
  [ "person"; "bicycle"; "car"; "motorcycle"; "airplane"; "bus"; "train"; "truck"; "boat";
    "traffic light"; "fire hydrant"; "stop sign"; "parking meter"; "bench"; "bird"; "cat";
    "dog"; "horse"; "sheep"; "cow"; "elephant"; "bear"; "zebra"; "giraffe"; "backpack";
    "umbrella"; "handbag"; "tie"; "suitcase"; "frisbee"; "skis"; "snowboard"; "sports ball";
    "kite"; "baseball bat"; "baseball glove"; "skateboard"; "surfboard"; "tennis racket";
    "bottle"; "wine glass"; "cup"; "fork"; "knife"; "spoon"; "bowl"; "banana"; "apple";
    "sandwich"; "orange"; "broccoli"; "carrot"; "hot dog"; "pizza"; "donut"; "cake"; "chair";
    "couch"; "potted plant"; "bed"; "dining table"; "toilet"; "tv"; "laptop"; "mouse";
    "remote"; "keyboard"; "cell phone"; "microwave"; "oven"; "toaster"; "sink"; "refrigerator";
    "book"; "clock"; "vase"; "scissors"; "teddy bear"; "hair drier"; "toothbrush" ]%string.

(** [YoloDetector::YoloDetector()] *)
Definition new_YoloDetector : YoloDetector :=
  {| m_initialized := false;
     m_input_width := 640;
     m_input_height := 640;
     m_num_classes := 80;
     m_model_type := YOLOX;
     m_class_names := COCO_CLASSES;
     m_session_loaded := false;
     m_input_names_str := [];
     m_output_names_str := [] |}.

(** [YoloDetector::release] *)
Definition release (d : YoloDetector) : YoloDetector :=
  {| m_initialized := false;
     m_input_width := m_input_width d;
     m_input_height := m_input_height d;
     m_num_classes := m_num_classes d;
     m_model_type := m_model_type d;
     m_class_names := m_class_names d;
     m_session_loaded := false;
     m_input_names_str := m_input_names_str d;
     m_output_names_str := m_output_names_str d |}.

(** ** Initialisation and model-variant detection ([YoloDetector::init]) *)

(** What the inference session reports about one input or output. *)
Record TensorInfo : Type := mkTensorInfo {
  tensor_name : string;
  tensor_shape : list Z
}.

Record Session : Type := mkSession {
  session_inputs : list TensorInfo;
  session_outputs : list TensorInfo
}.

(** [s.find(pat) != std::string::npos] *)
Definition contains (pat s : string) : bool :=
  match String.index 0 pat s with Some _ => true | None => false end.

Definition set_input_size (h w : Z) (d : YoloDetector) : YoloDetector :=
  {| m_initialized := m_initialized d;
     m_input_width := if 0 <? w then cast_int w else m_input_width d;
     m_input_height := if 0 <? h then cast_int h else m_input_height d;
     m_num_classes := m_num_classes d;
     m_model_type := m_model_type d;
     m_class_names := m_class_names d;
     m_session_loaded := m_session_loaded d;
     m_input_names_str := m_input_names_str d;
     m_output_names_str := m_output_names_str d |}.

Definition push_input_name (n : string) (d : YoloDetector) : YoloDetector :=
  {| m_initialized := m_initialized d;
     m_input_width := m_input_width d;
     m_input_height := m_input_height d;
     m_num_classes := m_num_classes d;
     m_model_type := m_model_type d;
     m_class_names := m_class_names d;
     m_session_loaded := m_session_loaded d;
     m_input_names_str := m_input_names_str d ++ [n];
     m_output_names_str := m_output_names_str d |}.

Definition push_output_name (n : string) (d : YoloDetector) : YoloDetector :=
  {| m_initialized := m_initialized d;
     m_input_width := m_input_width d;
     m_input_height := m_input_height d;
     m_num_classes := m_num_classes d;
     m_model_type := m_model_type d;
     m_class_names := m_class_names d;
     m_session_loaded := m_session_loaded d;
     m_input_names_str := m_input_names_str d;
     m_output_names_str := m_output_names_str d ++ [n] |}.

(** [m_model_type = ty; m_num_classes = n;] *)
Definition set_model (ty : ModelType) (n : Z) (d : YoloDetector) : YoloDetector :=
  {| m_initialized := m_initialized d;
     m_input_width := m_input_width d;
     m_input_height := m_input_height d;
     m_num_classes := n;
     m_model_type := ty;
     m_class_names := m_class_names d;
     m_session_loaded := m_session_loaded d;
     m_input_names_str := m_input_names_str d;
     m_output_names_str := m_output_names_str d |}.

Definition set_initialized (d : YoloDetector) : YoloDetector :=
  {| m_initialized := true;
     m_input_width := m_input_width d;
     m_input_height := m_input_height d;
     m_num_classes := m_num_classes d;
     m_model_type := m_model_type d;
     m_class_names := m_class_names d;
     m_session_loaded := true;
     m_input_names_str := m_input_names_str d;
     m_output_names_str := m_output_names_str d |}.

(** One round of the loop over the model's inputs; the first component is
    [has_scale_factor_input]. *)
Definition init_input (acc : bool * YoloDetector) (inp : TensorInfo) : bool * YoloDetector :=
  let '(has_scale, d) := acc in
  let d := push_input_name (tensor_name inp) d in
  if contains "scale" (tensor_name inp) then (true, d)
  else
    match tensor_shape inp with
    | [_; _; h; w] => (has_scale, set_input_size h w d)
    | _ => (has_scale, d)
    end.

(** The decision on one output's shape, with [dim1 = shape[1]] and
    [dim2 = shape[2]] (0 when the shape is shorter). *)
Definition classify_dims (dim1 dim2 : Z) (d : YoloDetector) : YoloDetector :=
  if (dim1 =? 6) || (dim2 =? 6) then set_model PPYOLOE 80 d
  else if (dim2 =? 85) || (dim1 =? 85) then set_model YOLOX 80 d
  else if (dim1 =? 84) || (dim2 =? 84) then set_model YOLOV8 80 d
  else
    let features := if dim1 <? dim2 then dim1 else dim2 in
    if 5 <? features then set_model YOLOX (cast_int (features - 5)) d
    else if 0 <? features then set_model YOLOV8 (cast_int (features - 4)) d
    else d.

(** One round of the loop over the model's outputs. *)
Definition init_output (d : YoloDetector) (out : TensorInfo) : YoloDetector :=
  let d := push_output_name (tensor_name out) d in
  let shape := tensor_shape out in
  let dim1 := match shape !! 1%nat with Some v => v | None => 0 end in
  let dim2 := match shape !! 2%nat with Some v => v | None => 0 end in
  if ModelType_eqb (m_model_type d) PPYOLOE then d
  else if (2 <=? length shape)%nat then classify_dims dim1 dim2 d
  else d.

(** [init]: [session] is what creating the session over the model file
    gives, [None] when ONNX Runtime raises.  The result is the returned
    flag and the detector afterwards. *)
Definition init (session : option Session) (d : YoloDetector) : bool * YoloDetector :=
  match session with
  | None => (false, d)
  | Some s =>
      let '(has_scale, d) := foldl init_input (false, d) (session_inputs s) in
      let d := if has_scale then set_model PPYOLOE 80 d else d in
      let d := foldl init_output d (session_outputs s) in
      (true, set_initialized d)
  end.

(** [yolo_init]: a detector is built anew and initialised; the global
    pointer holds it whatever [init] returns. *)
Definition yolo_init (session : option Session) : bool * option YoloDetector :=
  let r := init session new_YoloDetector in
  (r.1, Some r.2).

(** [setModelType] *)
Definition setModelType (ty : ModelType) (d : YoloDetector) : YoloDetector :=
  set_model ty (m_num_classes d) d.

(** ** Class names ([setClassNames], [yolo_set_classes]) *)

Definition setClassNames (names : list string) (d : YoloDetector) : YoloDetector :=
  {| m_initialized := m_initialized d;
     m_input_width := m_input_width d;
     m_input_height := m_input_height d;
     m_num_classes := cast_int (Z.of_nat (length names));
     m_model_type := m_model_type d;
     m_class_names := names;
     m_session_loaded := m_session_loaded d;
     m_input_names_str := m_input_names_str d;
     m_output_names_str := m_output_names_str d |}.

Definition quote : ascii := ascii_of_nat 34.

(** The scan of [yolo_set_classes] over the JSON text: outside a name
    ([cur = None]) it looks for the next quote, inside one it collects
    characters up to the closing quote; an empty name is not pushed and
    text ending inside a name ends the scan. *)
Fixpoint scan_names (json : string) (cur : option string) : list string :=
  match json with
  | EmptyString => []
  | String c rest =>
      match cur with
      | None =>
          if Ascii.eqb c quote then scan_names rest (Some EmptyString)
          else scan_names rest None
      | Some name =>
          if Ascii.eqb c quote then
            match name with
            | EmptyString => scan_names rest None
            | _ => name :: scan_names rest None
            end
          else scan_names rest (Some (name ++ String c EmptyString)%string)
      end
  end.

(** [yolo_set_classes] on the global detector [g_detector]. *)
Definition yolo_set_classes (class_names_json : string) (g_detector : option YoloDetector)
  : option YoloDetector :=
  match g_detector with
  | None => None
  | Some d =>
      match scan_names class_names_json None with
      | [] => Some d
      | names => Some (setClassNames names d)
      end
  end.

(** ** Images and the model input tensor ([YoloDetector::preprocess]) *)

(** [cv::Vec3b]: the three channel bytes of a pixel, [pixel[0]],
    [pixel[1]], [pixel[2]]. *)
Record Vec3b : Type := mkVec3b {
  ch0 : Byte.byte;
  ch1 : Byte.byte;
  ch2 : Byte.byte
}.

(** A [cv::Mat] of type [CV_8UC3]: [at_ m y x] is [m.at<cv::Vec3b>(y, x)]. *)
Record Mat : Type := mkMat {
  rows : Z;
  cols : Z;
  at_ : Z -> Z -> Vec3b
}.

(** A byte as a [float]: the integer promotion followed by the exact
    conversion. *)
Definition byte_to_float (b : Byte.byte) : F32.float :=
  F32.of_int (Z.of_N (Byte.to_N b)).

Definition gray114 : Byte.byte := Byte.x72.

(** [cv::cvtColor(m, rgb, cv::COLOR_BGR2RGB)]: channels 0 and 2 change
    places. *)
Definition cvtColor_BGR2RGB (m : Mat) : Mat :=
  {| rows := rows m;
     cols := cols m;
     at_ := fun y x =>
              let p := at_ m y x in
              {| ch0 := ch2 p; ch1 := ch1 p; ch2 := ch0 p |} |}.

(** The padded image of the letterbox branch: a [height] x [width] canvas
    of (114, 114, 114) onto which [resized] is copied at the rectangle
    [(pad_x, pad_y, new_width, new_height)]. *)
Definition letterbox_canvas (width height pad_x pad_y new_width new_height : Z)
  (resized : Mat) : Mat :=
  {| rows := height;
     cols := width;
     at_ := fun y x =>
              if (pad_x <=? x) && (x <? pad_x + new_width)
                 && (pad_y <=? y) && (y <? pad_y + new_height)
              then at_ resized (y - pad_y) (x - pad_x)
              else {| ch0 := gray114; ch1 := gray114; ch2 := gray114 |} |}.

(** The inverse-transform descriptor [preprocess] hands back through its
    reference parameters. *)
Record Transform : Type := mkTransform {
  scale : F32.float;
  pad_x : Z;
  pad_y : Z
}.

(** One round of the inner serialisation loop: the three channel values of
    pixel [(y, x)] are stored at [c * channel_size + y * width + x]. *)
Definition store_pixel (conv : Byte.byte -> F32.float) (img : Mat)
  (width channel_size : Z) (y : Z) (tensor : list F32.float) (x : nat)
  : list F32.float :=
  let pixel := at_ img y (Z.of_nat x) in
  let idx := y * width + Z.of_nat x in
  let tensor := <[Z.to_nat (0 * channel_size + idx) := conv (ch0 pixel)]> tensor in
  let tensor := <[Z.to_nat (1 * channel_size + idx) := conv (ch1 pixel)]> tensor in
  <[Z.to_nat (2 * channel_size + idx) := conv (ch2 pixel)]> tensor.

Definition store_row (conv : Byte.byte -> F32.float) (img : Mat)
  (width channel_size : Z) (tensor : list F32.float) (y : nat) : list F32.float :=
  foldl (store_pixel conv img width channel_size (Z.of_nat y)) tensor
        (seq 0 (Z.to_nat width)).

(** The two nested loops over [y < height] and [x < width]. *)
Definition to_chw (conv : Byte.byte -> F32.float) (img : Mat) (width height : Z)
  : list F32.float :=
  let channel_size := height * width in
  foldl (store_row conv img width channel_size)
        (replicate (Z.to_nat (3 * height * width)) F32.zero)
        (seq 0 (Z.to_nat height)).

(** [pixel[c] / 255.0f] *)
Definition normalized (b : Byte.byte) : F32.float :=
  F32.div (byte_to_float b) (F32.of_int 255).

Section Pipeline.

(** OpenCV's [cv::resize(src, dst, cv::Size(w, h), 0, 0, cv::INTER_LINEAR)];
    it raises on an empty target size. *)
Variable cv_resize : Mat -> Z -> Z -> result Mat.

(** The second half of [preprocess]: the tensor in CHW layout. *)
Definition serialize (d : YoloDetector) (resized_final : Mat) : list F32.float :=
  match m_model_type d with
  | YOLOX => to_chw byte_to_float resized_final (m_input_width d) (m_input_height d)
  | _ => to_chw normalized (cvtColor_BGR2RGB resized_final)
                (m_input_width d) (m_input_height d)
  end.

(** The letterbox branch of [preprocess] (YOLOX, YOLOv8): the padded image
    and the descriptor.  OpenCV raises when the rectangle of the copy does
    not lie inside the canvas. *)
Definition letterbox (d : YoloDetector) (image : Mat) (width height : Z)
  : result (Mat * Transform) :=
  let scale_x := F32.div (F32.of_int (m_input_width d)) (F32.of_int width) in
  let scale_y := F32.div (F32.of_int (m_input_height d)) (F32.of_int height) in
  let scale := F32.std_min scale_x scale_y in
  let* new_width := or_undefined (F32.to_int (F32.mul (F32.of_int width) scale)) in
  let* new_height := or_undefined (F32.to_int (F32.mul (F32.of_int height) scale)) in
  let pad_x := Z.quot (m_input_width d - new_width) 2 in
  let pad_y := Z.quot (m_input_height d - new_height) 2 in
  let* resized := cv_resize image new_width new_height in
  if (0 <=? m_input_width d) && (0 <=? m_input_height d)
     && (0 <=? pad_x) && (0 <=? new_width) && (pad_x + new_width <=? m_input_width d)
     && (0 <=? pad_y) && (0 <=? new_height) && (pad_y + new_height <=? m_input_height d)
  then
    Ok (letterbox_canvas (m_input_width d) (m_input_height d)
                         pad_x pad_y new_width new_height resized,
        {| scale := scale; pad_x := pad_x; pad_y := pad_y |})
  else Throws.

(** The first half of [preprocess]: the resized image and the descriptor. *)
Definition resize_stage (d : YoloDetector) (image : Mat) (width height : Z)
  : result (Mat * Transform) :=
  match m_model_type d with
  | PPYOLOE =>
      let* resized_final := cv_resize image (m_input_width d) (m_input_height d) in
      Ok (resized_final, {| scale := F32.of_int 1; pad_x := 0; pad_y := 0 |})
  | _ => letterbox d image width height
  end.

(** [preprocess]: the tensor and the descriptor.  Allocating the tensor
    raises when [3 * m_input_height * m_input_width] is negative. *)
Definition preprocess (d : YoloDetector) (image : Mat) (width height : Z)
  : result (list F32.float * Transform) :=
  let* st := resize_stage d image width height in
  if 3 * m_input_height d * m_input_width d <? 0 then Throws
  else Ok (serialize d (fst st), snd st).

(** ** Non-maximum suppression ([iou], [nms]) *)

(** The locals [a_area] and [b_area] of [iou]. *)
Definition box_area (a : Detection) : F32.float :=
  F32.mul (F32.sub (x2 a) (x1 a)) (F32.sub (y2 a) (y1 a)).

Definition inter_area (a b : Detection) : F32.float :=
  let ix1 := F32.std_max (x1 a) (x1 b) in
  let iy1 := F32.std_max (y1 a) (y1 b) in
  let ix2 := F32.std_min (x2 a) (x2 b) in
  let iy2 := F32.std_min (y2 a) (y2 b) in
  F32.mul (F32.std_max F32.zero (F32.sub ix2 ix1))
          (F32.std_max F32.zero (F32.sub iy2 iy1)).

Definition union_area (a b : Detection) : F32.float :=
  F32.sub (F32.add (box_area a) (box_area b)) (inter_area a b).

Definition iou (a b : Detection) : F32.float :=
  if F32.gtb (union_area a b) F32.zero
  then F32.div (inter_area a b) (union_area a b)
  else F32.zero.

(** The comparator [nms] hands to [std::sort]:
    [a.confidence > b.confidence]. *)
Definition by_confidence (a b : Detection) : bool :=
  F32.gtb (confidence a) (confidence b).

(** Neither of [a] and [b] goes before the other. *)
Definition tied (a b : Detection) : bool :=
  negb (by_confidence a b) && negb (by_confidence b a).

(** [std::sort] requires a comparator that is a strict weak ordering of
    the values it sorts, and is undefined otherwise.  [>] on [float] is
    irreflexive and transitive whatever the values; what fails, with a NaN
    among confidences that differ, is that being tied is transitive. *)
Definition strict_weak_ordering (l : list Detection) : bool :=
  forallb (fun a =>
    forallb (fun b =>
      forallb (fun c => implb (tied a b && tied b c) (tied a c)) l) l) l.

(** [std::sort(first, last, comp)] is the C++ library's.  The standard
    fixes the result up to the order of tied elements, which each
    implementation chooses; the properties below rest on its contract
    ([sorts_by_confidence]) alone. *)
Variable std_sort : list Detection -> list Detection.

(** The test of the inner loop: [i] suppresses [j]. *)
Definition suppresses (iou_threshold : F32.float) (di dj : Detection) : bool :=
  (class_id di =? class_id dj) && F32.gtb (iou di dj) iou_threshold.

(** One round of the inner loop: [j] is flagged when it is not yet and
    [di] suppresses it. *)
Definition mark_step (detections : list Detection) (iou_threshold : F32.float)
  (di : Detection) (suppressed : list bool) (j : nat) : list bool :=
  match suppressed !! j, detections !! j with
  | Some false, Some dj =>
      if suppresses iou_threshold di dj then <[j := true]> suppressed else suppressed
  | _, _ => suppressed
  end.

(** The inner loop over [j = i + 1 .. size - 1]. *)
Definition suppress_later (detections : list Detection) (iou_threshold : F32.float)
  (i : nat) (di : Detection) (suppressed : list bool) : list bool :=
  foldl (mark_step detections iou_threshold di) suppressed
        (seq (S i) (length detections - S i)).

(** One round of the outer loop, on the pair of [result] and [suppressed]. *)
Definition nms_round (detections : list Detection) (iou_threshold : F32.float)
  (st : list Detection * list bool) (i : nat) : list Detection * list bool :=
  match st.2 !! i, detections !! i with
  | Some false, Some di =>
      (st.1 ++ [di], suppress_later detections iou_threshold i di st.2)
  | _, _ => st
  end.

(** [result] and [suppressed] after the first [k] rounds of the outer loop. *)
Definition rounds (detections : list Detection) (iou_threshold : F32.float) (k : nat)
  : list Detection * list bool :=
  foldl (nms_round detections iou_threshold)
        ([], replicate (length detections) false) (seq 0 k).

Definition nms_loop (detections : list Detection) (iou_threshold : F32.float)
  : list Detection * list bool :=
  rounds detections iou_threshold (length detections).

(** [nms]: the candidates are sorted, then gone through by the two
    loops.  The call has no defined behaviour when the comparator is no
    strict weak ordering of the candidates. *)
Definition nms (detections : list Detection) (iou_threshold : F32.float)
  : result (list Detection) :=
  if strict_weak_ordering detections
  then Ok (nms_loop (std_sort detections) iou_threshold).1
  else Undefined.

(** The suppressor in the specification's words: the candidates are gone
    through in order, and a candidate is kept unless some detection kept
    before it ([kept], in the order they were kept) suppresses it. *)
Fixpoint greedy_keep (iou_threshold : F32.float) (kept l : list Detection)
  : list Detection :=
  match l with
  | [] => []
  | d :: l' =>
      if existsb (fun k => suppresses iou_threshold k d) kept
      then greedy_keep iou_threshold kept l'
      else d :: greedy_keep iou_threshold (kept ++ [d]) l'
  end.

(** The flag of [j] once [di] has been compared with it. *)
Definition marked (detections : list Detection) (iou_threshold : F32.float)
  (di : Detection) (suppressed : list bool) (j : nat) : option bool :=
  match suppressed !! j, detections !! j with
  | Some b, Some dj => Some (b || suppresses iou_threshold di dj)
  | o, _ => o
  end.

Definition no_nan_confidence (l : list Detection) : Prop :=
  Forall (fun d => F32.is_nan (confidence d) = false) l.

(** [b] is not placed before [a] by the comparator of the sort. *)
Definition not_after (a b : Detection) : Prop :=
  F32.gtb (confidence b) (confidence a) = false.

(** ** Decoding the output tensor ([YoloDetector::postprocess]) *)

(** [std::exp] on [float], from the C library. *)
Variable expf : F32.float -> F32.float.

(** [output[k]] on the buffer the session returned. *)
Definition read (output : list F32.float) (k : Z) : result F32.float :=
  if k <? 0 then Undefined
  else or_undefined (output !! Z.to_nat k).

(** [std::max(0.0f, std::min(v, static_cast<float>(bound)))] *)
Definition clamp (v : F32.float) (bound : Z) : F32.float :=
  F32.std_max F32.zero (F32.std_min v (F32.of_int bound)).

(** [std::to_string] of an [int]. *)
Definition to_string (z : Z) : string := NilZero.string_of_int (Z.to_int z).

(** The class label: the table entry, or ["class_" + std::to_string(id)]
    beyond the table. *)
Definition class_label (d : YoloDetector) (id : Z) : result string :=
  if id <? cast_int (Z.of_nat (length (m_class_names d))) then
    if id <? 0 then Undefined
    else or_undefined (m_class_names d !! Z.to_nat id)
  else Ok ("class_" ++ to_string id)%string.

(** The clamped detection pushed at the end of each decoding round. *)
Definition emit (d : YoloDetector) (original_width original_height : Z)
  (bx1 by1 bx2 by2 conf : F32.float) (id : Z) : result (option Detection) :=
  let* name := class_label d id in
  Ok (Some {| class_id := id;
              class_name := name;
              confidence := conf;
              x1 := clamp bx1 original_width;
              y1 := clamp by1 original_height;
              x2 := clamp bx2 original_width;
              y2 := clamp by2 original_height |}).

(** [dim1], [dim2] of [postprocess]; [None] for a shape of no dimension. *)
Definition output_dims (output_shape : list Z) (output_count : Z) : option (Z * Z) :=
  match output_shape with
  | [] => None
  | [_] => Some (output_count, 0)
  | [a; b] => Some (a, b)
  | _ :: a :: b :: _ => Some (a, b)
  end.

(** *** PP-YOLOE *)

(** [num_detections] (the flag [transposed] the source also sets is read
    by no statement). *)
Definition ppyoloe_num_detections (output_shape : list Z) (output_count dim1 dim2 : Z) : Z :=
  match length output_shape with
  | 2%nat =>
      if dim2 =? 6 then cast_int dim1
      else if dim1 =? 6 then cast_int dim2
      else cast_int (output_count / 6)
  | S (S (S _)) =>
      if (dim1 =? 6) && (0 <? dim2) then cast_int dim2
      else if (dim2 =? 6) && (0 <? dim1) then cast_int dim1
      else if dim1 =? 6 then cast_int (output_count / 6)
      else 0
  | _ => cast_int (output_count / 6)
  end.

Definition ppyoloe_row (d : YoloDetector) (output : list F32.float)
  (original_width original_height : Z) (conf_threshold : F32.float) (i : Z)
  : result (option Detection) :=
  let* v0 := read output (i * 6 + 0) in
  let* id := or_undefined (F32.to_int v0) in
  let* score := read output (i * 6 + 1) in
  let* bx1 := read output (i * 6 + 2) in
  let* by1 := read output (i * 6 + 3) in
  let* bx2 := read output (i * 6 + 4) in
  let* by2 := read output (i * 6 + 5) in
  if F32.ltb score conf_threshold then Ok None
  else if id <? 0 then Ok None
  else emit d original_width original_height bx1 by1 bx2 by2 score id.

Definition postprocess_ppyoloe (d : YoloDetector) (output : list F32.float)
  (output_shape : list Z) (output_count dim1 dim2 : Z)
  (original_width original_height : Z) (conf_threshold : F32.float)
  : result (list Detection) :=
  let num_detections := ppyoloe_num_detections output_shape output_count dim1 dim2 in
  if num_detections <=? 0 then Ok []
  else for_each (ppyoloe_row d output original_width original_height conf_threshold)
                0 (Z.to_nat num_detections).

(** *** The scan for the best class score *)

Definition scan_step (acc : F32.float * Z) (c : Z) (score : F32.float) : F32.float * Z :=
  if F32.gtb score acc.1 then (score, c) else acc.

(** [for (int c = first; c < first + n; c++)] over the scores
    [score_at c], from the running best [acc]. *)
Fixpoint scan_classes (score_at : Z -> result F32.float) (c : Z) (n : nat)
  (acc : F32.float * Z) : result (F32.float * Z) :=
  match n with
  | O => Ok acc
  | S n' =>
      let* score := score_at c in
      scan_classes score_at (c + 1) n' (scan_step acc c score)
  end.

(** *** YOLOX *)

(** The cells pushed by the three nested loops over the strides 8, 16, 32,
    [gy] and [gx], as triples [(gx, gy, stride)]. *)
Definition grid_cells (input_width : Z) : list (Z * Z * Z) :=
  flat_map (fun stride =>
              let grid_size := Z.quot input_width stride in
              flat_map (fun gy =>
                          map (fun gx => (Z.of_nat gx, Z.of_nat gy, stride))
                              (seq 0 (Z.to_nat grid_size)))
                       (seq 0 (Z.to_nat grid_size)))
           [8; 16; 32].

Definition grids_x (input_width : Z) : list F32.float :=
  map (fun c => F32.of_int c.1.1) (grid_cells input_width).
Definition grids_y (input_width : Z) : list F32.float :=
  map (fun c => F32.of_int c.1.2) (grid_cells input_width).
Definition strides_vec (input_width : Z) : list F32.float :=
  map (fun c => F32.of_int c.2) (grid_cells input_width).

(** The corner [(c -/+ size / 2.0f - pad) / scale] in original-image
    coordinates. *)
Definition corner_lo (c size : F32.float) (pad : Z) (scale : F32.float) : F32.float :=
  F32.div (F32.sub (F32.sub c (F32.div size (F32.of_int 2))) (F32.of_int pad)) scale.
Definition corner_hi (c size : F32.float) (pad : Z) (scale : F32.float) : F32.float :=
  F32.div (F32.sub (F32.add c (F32.div size (F32.of_int 2))) (F32.of_int pad)) scale.

Definition yolox_row (d : YoloDetector) (output : list F32.float) (features : Z)
  (original_width original_height : Z) (tr : Transform)
  (conf_threshold : F32.float) (i : Z) : result (option Detection) :=
  let base := i * features in
  let* objectness := read output (base + 4) in
  if F32.ltb objectness conf_threshold then Ok None
  else
    let* best := scan_classes (fun c => read output (base + 5 + c)) 0
                              (Z.to_nat (m_num_classes d)) (F32.zero, 0) in
    let confidence := F32.mul objectness best.1 in
    if F32.ltb confidence conf_threshold then Ok None
    else
      let* grid_x := or_undefined (grids_x (m_input_width d) !! Z.to_nat i) in
      let* grid_y := or_undefined (grids_y (m_input_width d) !! Z.to_nat i) in
      let* stride := or_undefined (strides_vec (m_input_width d) !! Z.to_nat i) in
      let* b0 := read output (base + 0) in
      let* b1 := read output (base + 1) in
      let* b2 := read output (base + 2) in
      let* b3 := read output (base + 3) in
      let cx := F32.mul (F32.add b0 grid_x) stride in
      let cy := F32.mul (F32.add b1 grid_y) stride in
      let w := F32.mul (expf b2) stride in
      let h := F32.mul (expf b3) stride in
      emit d original_width original_height
           (corner_lo cx w (pad_x tr) (scale tr))
           (corner_lo cy h (pad_y tr) (scale tr))
           (corner_hi cx w (pad_x tr) (scale tr))
           (corner_hi cy h (pad_y tr) (scale tr))
           confidence best.2.

Definition decode_yolox (d : YoloDetector) (output : list F32.float) (dim1 dim2 : Z)
  (original_width original_height : Z) (tr : Transform)
  (conf_threshold : F32.float) : result (list Detection) :=
  let num_boxes := cast_int dim1 in
  let features := cast_int dim2 in
  for_each (yolox_row d output features original_width original_height tr conf_threshold)
           0 (Z.to_nat num_boxes).

(** *** YOLOv8 *)

Definition yolov8_row (d : YoloDetector) (output : list F32.float)
  (transposed : bool) (num_boxes features : Z)
  (original_width original_height : Z) (tr : Transform)
  (conf_threshold : F32.float) (i : Z) : result (option Detection) :=
  let at_field (f : Z) :=
    if transposed then read output (i * features + f)
    else read output (f * num_boxes + i) in
  let* cx := at_field 0 in
  let* cy := at_field 1 in
  let* w := at_field 2 in
  let* h := at_field 3 in
  let* best := scan_classes (fun c => at_field (4 + c)) 0
                            (Z.to_nat (features - 4)) (F32.zero, 0) in
  if F32.ltb best.1 conf_threshold then Ok None
  else
    emit d original_width original_height
         (corner_lo cx w (pad_x tr) (scale tr))
         (corner_lo cy h (pad_y tr) (scale tr))
         (corner_hi cx w (pad_x tr) (scale tr))
         (corner_hi cy h (pad_y tr) (scale tr))
         best.1 best.2.

Definition decode_yolov8 (d : YoloDetector) (output : list F32.float) (dim1 dim2 : Z)
  (original_width original_height : Z) (tr : Transform)
  (conf_threshold : F32.float) : result (list Detection) :=
  let transposed := dim2 <? dim1 in
  let num_boxes := if transposed then cast_int dim1 else cast_int dim2 in
  let features := if transposed then cast_int dim2 else cast_int dim1 in
  for_each (yolov8_row d output transposed num_boxes features
                       original_width original_height tr conf_threshold)
           0 (Z.to_nat num_boxes).

(** *** [postprocess] *)

Definition postprocess (d : YoloDetector) (output : list F32.float)
  (output_shape : list Z) (output_count : Z)
  (original_width original_height : Z) (tr : Transform)
  (conf_threshold iou_threshold : F32.float) : result (list Detection) :=
  match output_dims output_shape output_count with
  | None => Ok []
  | Some (dim1, dim2) =>
      match m_model_type d with
      | PPYOLOE =>
          postprocess_ppyoloe d output output_shape output_count dim1 dim2
                              original_width original_height conf_threshold
      | YOLOX =>
          let* detections := decode_yolox d output dim1 dim2
                               original_width original_height tr conf_threshold in
          nms detections iou_threshold
      | YOLOV8 =>
          let* detections := decode_yolov8 d output dim1 dim2
                               original_width original_height tr conf_threshold in
          nms detections iou_threshold
      end
  end.

End Pipeline.

(** ** The detection calls ([detect], [detectFromPath], [detectFromBuffer],
    [detectFromYUV]) *)

(** A tensor handed to or returned by the inference session. *)
Record Tensor : Type := mkTensor {
  t_shape : list Z;
  t_data : list F32.float
}.

(** What a detection call returns: the text of an error object with its
    [error] and [code] fields, or the text of a result with its detections
    and the reported image size. *)
Inductive CallResult : Type :=
| ErrorJson (error code : string)
| ResultJson (detections : list Detection) (image_width image_height : Z).

Definition NOT_INITIALIZED : CallResult :=
  ErrorJson "Detector not initialized" "NOT_INITIALIZED".
Definition IMAGE_LOAD_FAILED : CallResult :=
  ErrorJson "Could not load image" "IMAGE_LOAD_FAILED".

Definition is_error (r : result CallResult) : bool :=
  match r with Ok (ErrorJson _ _) => true | _ => false end.

(** [try { ... } catch (...) { }] of [detect]: an exception leaves the
    result list empty. *)
Definition catch_all (r : result (list Detection)) : result (list Detection) :=
  match r with
  | Throws => Ok []
  | _ => r
  end.

(** [image_idx] and [scale_idx] of the PP-YOLOE branch of [detect]. *)
Definition input_indices (names : list string) : Z * Z :=
  let found :=
    foldl (fun acc (ni : nat * string) =>
             if contains "image" ni.2 then (Z.of_nat ni.1, acc.2)
             else if contains "scale" ni.2 then (acc.1, Z.of_nat ni.1)
             else acc)
          (-1, -1) (imap pair names) in
  (if found.1 =? -1 then 1 else found.1, if found.2 =? -1 then 0 else found.2).

Section Calls.

Variable cv_resize : Mat -> Z -> Z -> result Mat.
Variable std_sort : list Detection -> list Detection.
Variable expf : F32.float -> F32.float.

(** [m_session->Run] on the input values, giving [outputs[0]]. *)
Variable session_run : list Tensor -> result Tensor.

(** The raw buffers of the callers and the image library's part of frame
    normalisation: the BGRA view with its conversion to BGR, the YUV420
    repacking with its conversion and rotation, and [cv::imread]. *)
Variable Buffer : Type.
Variable cv_bgra_to_bgr : Buffer -> Z -> Z -> Z -> result Mat.
Variable yuv_to_bgr : Buffer -> Buffer -> Buffer -> Z -> Z -> Z -> Z -> Z -> Z -> result Mat.
Variable cv_imread : string -> Mat.

Definition input_values (d : YoloDetector) (input_tensor : list F32.float)
  (width height : Z) : list Tensor :=
  let image :=
    {| t_shape := [1; 3; m_input_height d; m_input_width d]; t_data := input_tensor |} in
  if ModelType_eqb (m_model_type d) PPYOLOE && (2 <=? length (m_input_names_str d))%nat
  then
    let '(image_idx, scale_idx) := input_indices (m_input_names_str d) in
    let scale_y := F32.div (F32.of_int (m_input_height d)) (F32.of_int height) in
    let scale_x := F32.div (F32.of_int (m_input_width d)) (F32.of_int width) in
    let scale_factor := {| t_shape := [1; 2]; t_data := [scale_y; scale_x] |} in
    flat_map (fun i =>
                if Z.of_nat i =? image_idx then [image]
                else if Z.of_nat i =? scale_idx then [scale_factor]
                else [])
             (seq 0 (length (m_input_names_str d)))
  else [image].

Definition detect (d : YoloDetector) (bgr : Mat) (width height : Z)
  (conf_threshold iou_threshold : F32.float) : result (list Detection) :=
  catch_all
    (let* pre := preprocess cv_resize d bgr width height in
     let* out := session_run (input_values d pre.1 width height) in
     postprocess std_sort expf d (t_data out) (t_shape out) (Z.of_nat (length (t_data out)))
                 width height pre.2 conf_threshold iou_threshold).

Definition detectFromPath (d : YoloDetector) (image_path : string)
  (conf_threshold iou_threshold : F32.float) : result CallResult :=
  if negb (m_initialized d) then Ok NOT_INITIALIZED
  else
    let image := cv_imread image_path in
    if (rows image =? 0) || (cols image =? 0) then Ok IMAGE_LOAD_FAILED
    else
      let* detections := detect d image (cols image) (rows image)
                                conf_threshold iou_threshold in
      Ok (ResultJson detections (cols image) (rows image)).

Definition detectFromBuffer (d : YoloDetector) (image_data : Buffer)
  (width height stride : Z) (conf_threshold iou_threshold : F32.float)
  : result CallResult :=
  if negb (m_initialized d) then Ok NOT_INITIALIZED
  else
    let* bgr := cv_bgra_to_bgr image_data width height stride in
    let* detections := detect d bgr (cols bgr) (rows bgr)
                              conf_threshold iou_threshold in
    Ok (ResultJson detections width height).

Definition detectFromYUV (d : YoloDetector) (y_data u_data v_data : Buffer)
  (width height y_row_stride uv_row_stride uv_pixel_stride rotation : Z)
  (conf_threshold iou_threshold : F32.float) : result CallResult :=
  if negb (m_initialized d) then Ok NOT_INITIALIZED
  else
    let* bgr := yuv_to_bgr y_data u_data v_data width height
                           y_row_stride uv_row_stride uv_pixel_stride rotation in
    let final_width := cols bgr in
    let final_height := rows bgr in
    let* detections := detect d bgr final_width final_height
                              conf_threshold iou_threshold in
    Ok (ResultJson detections final_width final_height).

End Calls.

(** ** Notions used by the statements *)


(** Being tied is transitive among the values of [l]. *)
Definition tied_transitive (l : list Detection) : Prop :=
  forall a b c, a ∈ l -> b ∈ l -> c ∈ l ->
    tied a b = true -> tied b c = true -> tied a c = true.

(** The contract of [std::sort] under the comparator of [nms]: on values
    the comparator orders weakly, the sorted range holds the elements it
    held before, and no element of it goes before one that stands earlier
    in the range. *)
Definition sorts_by_confidence (std_sort : list Detection -> list Detection) : Prop :=
  forall l, strict_weak_ordering l = true ->
    std_sort l ≡ₚ l /\ StronglySorted not_after (std_sort l).

(** [a], kept earlier, does not suppress [b]. *)
Definition spares (iou_threshold : F32.float) (a b : Detection) : Prop :=
  suppresses iou_threshold a b = false.

(** An input of the model whose name signals the scale tensor. *)
Definition signals_scale (inp : TensorInfo) : bool := contains "scale" (tensor_name inp).

(** The flag [transposed] that the PP-YOLOE branch of [postprocess]
    computes from the shape (and that no later statement reads). *)
Definition ppyoloe_transposed (output_shape : list Z) (dim1 dim2 : Z) : bool :=
  match length output_shape with
  | 2%nat => if dim2 =? 6 then false else dim1 =? 6
  | S (S (S _)) =>
      if (dim1 =? 6) && (0 <? dim2) then true
      else if (dim2 =? 6) && (0 <? dim1) then false
      else dim1 =? 6
  | _ => false
  end.

(** Field [k] of detection [i] in a tensor of [n] detections, under the
    layout a flag [transposed] names: [[6, n]] when set, [[n, 6]] when not. *)
Definition layout_elem (transposed : bool) (n : Z) (output : list F32.float)
  (i k : Z) : option F32.float :=
  if transposed then output !! Z.to_nat (k * n + i)
  else output !! Z.to_nat (i * 6 + k).

(** The colour channels of a pixel of a BGR image (what [cv::imread] and
    the frame conversions produce). *)
Definition blue (p : Vec3b) : Byte.byte := ch0 p.
Definition green (p : Vec3b) : Byte.byte := ch1 p.
Definition red (p : Vec3b) : Byte.byte := ch2 p.

(** [pixel[c]] for a channel index 0, 1 or 2. *)
Definition channel (c : Z) (p : Vec3b) : Byte.byte :=
  if c =? 0 then ch0 p else if c =? 1 then ch1 p else ch2 p.

(** [det] carries the six fields of detection [i] of the tensor under the
    layout [transposed]: class id and score as they are, the corners
    clamped to the image. *)
Definition decodes_row (transposed : bool) (n : Z) (output : list F32.float)
  (original_width original_height : Z) (i : Z) (det : Detection) : Prop :=
  exists v0 v1 v2 v3 v4 v5,
    layout_elem transposed n output i 0 = Some v0
    /\ layout_elem transposed n output i 1 = Some v1
    /\ layout_elem transposed n output i 2 = Some v2
    /\ layout_elem transposed n output i 3 = Some v3
    /\ layout_elem transposed n output i 4 = Some v4
    /\ layout_elem transposed n output i 5 = Some v5
    /\ F32.to_int v0 = Some (class_id det)
    /\ confidence det = v1
    /\ x1 det = clamp v2 original_width
    /\ y1 det = clamp v3 original_height
    /\ x2 det = clamp v4 original_width
    /\ y2 det = clamp v5 original_height.

(** Row [i] is one the PP-YOLOE decoder skips: its score is below the
    threshold or its class id is negative. *)
Definition skipped_row (output : list F32.float) (conf_threshold : F32.float) (i : Z)
  : Prop :=
  exists v0 v1 id,
    layout_elem false 0 output i 0 = Some v0
    /\ layout_elem false 0 output i 1 = Some v1
    /\ F32.to_int v0 = Some id
    /\ (F32.ltb v1 conf_threshold = true \/ id < 0).

(** Two output buffers give the same value (or the same failure) to every
    read at [base .. base + count - 1]. *)
Definition same_reads (output output' : list F32.float) (base count : Z) : Prop :=
  forall k, 0 <= k < count -> read output' (base + k) = read output (base + k).

(** ** Stand-ins for the external functions, for the examples *)

(** A nearest-neighbour resize in the place of OpenCV's bilinear one. *)
Definition sample_resize (m : Mat) (w h : Z) : result Mat :=
  if (w <=? 0) || (h <=? 0) then Throws
  else Ok {| rows := h; cols := w;
             at_ := fun y x => at_ m (y * rows m / h) (x * cols m / w) |}.

(** An insertion sort in the place of [std::sort]: it leaves candidates
    of equal confidence in the order they came in. *)
Fixpoint sample_insert (x : Detection) (l : list Detection) : list Detection :=
  match l with
  | [] => [x]
  | y :: l' =>
      if by_confidence y x then y :: sample_insert x l'
      else x :: l
  end.

Definition sample_sort (l : list Detection) : list Detection :=
  foldr sample_insert [] l.

(** The same sort gone through from the end of the range: candidates of
    equal confidence come out in the opposite order. *)
Definition sample_sort_backwards (l : list Detection) : list Detection :=
  sample_sort (reverse l).

(** The first-order expansion [1 + x] in the place of [std::exp]. *)
Definition sample_expf (x : F32.float) : F32.float := F32.add (F32.of_int 1) x.

Definition sample_image (width height : Z) : Mat :=
  {| rows := height; cols := width;
     at_ := fun y x => {| ch0 := Byte.x10; ch1 := Byte.x80; ch2 := Byte.xf0 |} |}.

(** A detector as [init] leaves it for a model of the given variant,
    class count and input size. *)
Definition sample_detector (ty : ModelType) (classes w h : Z) : YoloDetector :=
  set_initialized (set_model ty classes (set_input_size h w new_YoloDetector)).

Definition sample_box (id : Z) (conf lo hi : Z) : Detection :=
  {| class_id := id; class_name := "sample";
     confidence := F32.div (F32.of_int conf) (F32.of_int 10);
     x1 := F32.of_int lo; y1 := F32.of_int lo;
     x2 := F32.of_int hi; y2 := F32.of_int hi |}.


Definition ppyoloe_2x2 : YoloDetector := sample_detector PPYOLOE 80 2 2.

Definition quarter : F32.float := F32.div (F32.of_int 1) (F32.of_int 4).
Definition iou_045 : F32.float := F32.div (F32.of_int 45) (F32.of_int 100).



Definition identity_transform : Transform :=
  {| scale := F32.of_int 1; pad_x := 0; pad_y := 0 |}.

(** Two detections, (class 2, score 1, box 10 20 30 40) and (class 3,
    score 1, box 50 60 70 80), laid out as a [[1, 6, 2]] tensor. *)
Definition transposed_pair : list F32.float :=
  map F32.of_int [2; 3; 1; 1; 10; 50; 20; 60; 30; 70; 40; 80].

Definition misread_0 : Detection :=
  {| class_id := 2; class_name := "car"; confidence := F32.of_int 3;
     x1 := F32.of_int 1; y1 := F32.of_int 1; x2 := F32.of_int 10; y2 := F32.of_int 50 |}.
Definition misread_1 : Detection :=
  {| class_id := 20; class_name := "elephant"; confidence := F32.of_int 60;
     x1 := F32.of_int 30; y1 := F32.of_int 70; x2 := F32.of_int 40; y2 := F32.of_int 80 |}.

(** A YOLOX model with a 64 x 32 input (height x width) and two classes;
    its output has 8*4 + 4*2 + 2*1 = 42 boxes of 7 values. *)
Definition tall_session : Session :=
  {| session_inputs := [ {| tensor_name := "images"; tensor_shape := [1; 3; 64; 32] |} ];
     session_outputs := [ {| tensor_name := "output"; tensor_shape := [1; 42; 7] |} ] |}.

Definition tall_detector : YoloDetector := (init (Some tall_session) new_YoloDetector).2.

(** An output in which box 21 alone has objectness 1 and a class score 1. *)
Definition tall_output : list F32.float :=
  flat_map (fun i => map F32.of_int (if (i =? 21)%nat then [0; 0; 0; 0; 1; 1; 0]
                                     else [0; 0; 0; 0; 0; 0; 0]))
           (seq 0 42).



Definition yolov8_2x2 : YoloDetector := sample_detector YOLOV8 80 2 2.

(** A model whose output has a dynamic number of boxes of 7 values. *)
Definition dynamic_session : Session :=
  {| session_inputs := [ {| tensor_name := "images"; tensor_shape := [1; 3; 640; 640] |} ];
     session_outputs := [ {| tensor_name := "output"; tensor_shape := [1; -1; 7] |} ] |}.

(** ** Further notions used by the statements *)

(** The locals [x2 - x1] and [y2 - y1] of [iou]: the extent of the
    intersection along each axis, before it is cut at 0. *)
Definition overlap_x (a b : Detection) : F32.float :=
  F32.sub (F32.std_min (x2 a) (x2 b)) (F32.std_max (x1 a) (x1 b)).
Definition overlap_y (a b : Detection) : F32.float :=
  F32.sub (F32.std_min (y2 a) (y2 b)) (F32.std_max (y1 a) (y1 b)).

(** The cells the YOLOX grid loops push for one stride, row by row. *)
Definition stride_block (input_width stride : Z) : list (Z * Z * Z) :=
  flat_map (fun gy => map (fun gx => (Z.of_nat gx, Z.of_nat gy, stride))
                          (seq 0 (Z.to_nat (Z.quot input_width stride))))
           (seq 0 (Z.to_nat (Z.quot input_width stride))).

(** [std::isfinite]: a zero or a finite value. *)
Definition is_finite (f : F32.float) : bool :=
  match f with
  | S754_zero _ | S754_finite _ _ _ => true
  | _ => false
  end.

(** The label [postprocess] gives to a class id that is not negative. *)
Definition label_of (names : list string) (id : Z) : string :=
  match names !! Z.to_nat id with
  | Some name => name
  | None => ("class_" ++ to_string id)%string
  end.

(** A text without the quote character. *)
Fixpoint no_quote (s : string) : bool :=
  match s with
  | EmptyString => true
  | String c rest => negb (Ascii.eqb c quote) && no_quote rest
  end.

(** A text made of quoted names, each after a separator, and a tail:
    [sep1 "name1" sep2 "name2" ... tail]. *)
Fixpoint quoted_text (items : list (string * string)) (tail : string) : string :=
  match items with
  | [] => tail
  | (sep, name) :: rest =>
      (sep ++ String quote (name ++ String quote (quoted_text rest tail)))%string
  end.

Definition nonempty (s : string) : bool :=
  match s with EmptyString => false | _ => true end.

(** ** The C interface (ffi_bridge.cpp)

    The functions act on the global pointer [g_detector], [None] when it
    is null. *)

Section Bridge.

Variable cv_resize : Mat -> Z -> Z -> result Mat.
Variable std_sort : list Detection -> list Detection.
Variable expf : F32.float -> F32.float.
Variable session_run : list Tensor -> result Tensor.
Variable Buffer : Type.
Variable cv_bgra_to_bgr : Buffer -> Z -> Z -> Z -> result Mat.
Variable yuv_to_bgr : Buffer -> Buffer -> Buffer -> Z -> Z -> Z -> Z -> Z -> Z -> result Mat.
Variable cv_imread : string -> Mat.

Definition yolo_detect_path (g_detector : option YoloDetector) (image_path : string)
  (conf_threshold iou_threshold : F32.float) : result CallResult :=
  match g_detector with
  | None => Ok NOT_INITIALIZED
  | Some d =>
      detectFromPath cv_resize std_sort expf session_run cv_imread d image_path
                     conf_threshold iou_threshold
  end.

Definition yolo_detect_buffer (g_detector : option YoloDetector) (image_data : Buffer)
  (width height stride : Z) (conf_threshold iou_threshold : F32.float)
  : result CallResult :=
  match g_detector with
  | None => Ok NOT_INITIALIZED
  | Some d =>
      detectFromBuffer cv_resize std_sort expf session_run Buffer cv_bgra_to_bgr d image_data
                       width height stride conf_threshold iou_threshold
  end.

Definition yolo_detect_yuv (g_detector : option YoloDetector)
  (y_data u_data v_data : Buffer)
  (width height y_row_stride uv_row_stride uv_pixel_stride rotation : Z)
  (conf_threshold iou_threshold : F32.float) : result CallResult :=
  match g_detector with
  | None => Ok NOT_INITIALIZED
  | Some d =>
      detectFromYUV cv_resize std_sort expf session_run Buffer yuv_to_bgr d y_data u_data v_data
                    width height y_row_stride uv_row_stride uv_pixel_stride rotation
                    conf_threshold iou_threshold
  end.

End Bridge.

(** [yolo_release]: the detector is deleted and the pointer reset. *)
Definition yolo_release (g_detector : option YoloDetector) : option YoloDetector := None.

Definition yolo_is_initialized (g_detector : option YoloDetector) : Z :=
  match g_detector with
  | Some d => if m_initialized d then 1 else 0
  | None => 0
  end.

(** ** Repacking a YUV420 frame ([detectFromYUV], before the conversion)

    The three plane pointers point into the caller's memory: [Memory]
    gives the byte readable at an address, and a pointer is an address.
    [nv21_data] is a vector of the function's own; an access outside it,
    like a read of an address that is not readable, is undefined. *)

Definition Memory : Type := Z -> option Byte.byte.

(** [p[0]] for a pointer [p] into the caller's memory. *)
Definition peek (mem : Memory) (p : Z) : result Byte.byte := or_undefined (mem p).

(** The element at index [k] of a vector, [None] outside it. *)
Definition get (v : list Byte.byte) (k : Z) : option Byte.byte :=
  if k <? 0 then None else v !! Z.to_nat k.

(** [v.data()[k] = b] *)
Definition poke (v : list Byte.byte) (k : Z) (b : Byte.byte) : result (list Byte.byte) :=
  if (0 <=? k) && (k <? Z.of_nat (length v)) then Ok (<[Z.to_nat k := b]> v)
  else Undefined.

(** [for (int i = start; i < start + n; i++) body], on a state. *)
Fixpoint loop {St : Type} (body : Z -> St -> result St) (i : Z) (n : nat) (s : St)
  : result St :=
  match n with
  | O => Ok s
  | S n' => let* s' := body i s in loop body (i + 1) n' s'
  end.

(** The value of an [int] expression of the source, which is undefined
    when it overflows. *)
Definition int_of (z : Z) : result Z :=
  if (F32.int_min <=? z) && (z <=? F32.int_max) then Ok z else Undefined.

(** [memcpy(v.data() + dst, src, n)] with [n] an [int]: a negative count
    becomes a huge [size_t]. *)
Definition memcpy (mem : Memory) (v : list Byte.byte) (dst src n : Z)
  : result (list Byte.byte) :=
  if n <? 0 then Undefined
  else loop (fun k v => let* b := peek mem (src + k) in poke v (dst + k) b)
            0 (Z.to_nat n) v.

(** [for (row < rows) memcpy(v.data() + dst + row * width,
    src + row * src_stride, width)] *)
Definition copy_rows (mem : Memory) (v : list Byte.byte)
  (dst src src_stride width rows : Z) : result (list Byte.byte) :=
  loop (fun row v =>
          let* dst_offset := int_of (row * width) in
          let* src_offset := int_of (row * src_stride) in
          memcpy mem v (dst + dst_offset) (src + src_offset) width)
       0 (Z.to_nat rows) v.

(** One round of the inner loop that interleaves: V then U for the pair
    of columns [col] of chroma row [row].  [step] is 1 where the source
    reads [row * uv_row_stride + col] (planar input) and 2 where it reads
    [row * uv_row_stride + col * 2] (interleaved input). *)
Definition interleave_pair (mem : Memory)
  (uv_dst v_data u_data uv_row_stride step width row col : Z) (v : list Byte.byte)
  : result (list Byte.byte) :=
  let* row_offset := int_of (row * uv_row_stride) in
  let* col_offset := int_of (col * step) in
  let* src_offset := int_of (row_offset + col_offset) in
  let* row_start := int_of (row * width) in
  let* col_start := int_of (col * 2) in
  let* dst_offset := int_of (row_start + col_start) in
  let* b := peek mem (v_data + src_offset) in
  let* v := poke v (uv_dst + dst_offset) b in
  let* b := peek mem (u_data + src_offset) in
  let* dst_next := int_of (dst_offset + 1) in
  poke v (uv_dst + dst_next) b.

(** The two nested loops over [row < height / 2] and [col < width / 2]. *)
Definition interleave_vu (mem : Memory) (v : list Byte.byte)
  (uv_dst v_data u_data uv_row_stride step width height : Z) : result (list Byte.byte) :=
  loop (fun row v =>
          loop (interleave_pair mem uv_dst v_data u_data uv_row_stride step width row)
               0 (Z.to_nat (Z.quot width 2)) v)
       0 (Z.to_nat (Z.quot height 2)) v.

(** The NV21 buffer [detectFromYUV] builds: the Y plane, then V and U
    interleaved.  [area] is the product [width * height] the source
    writes out at each use.  Constructing the vector raises when the size
    is negative. *)
Definition nv21_pack (mem : Memory) (y_data u_data v_data : Z)
  (width height y_row_stride uv_row_stride uv_pixel_stride : Z)
  : result (list Byte.byte) :=
  let* area := int_of (width * height) in
  let* area3 := int_of (area * 3) in
  let size := Z.quot area3 2 in
  if size <? 0 then Throws
  else
    let nv21_data := replicate (Z.to_nat size) Byte.x00 in
    let* nv21_data :=
      if y_row_stride =? width then memcpy mem nv21_data 0 y_data area
      else copy_rows mem nv21_data 0 y_data y_row_stride width height in
    let uv_dst := area in
    if uv_pixel_stride =? 1 then
      interleave_vu mem nv21_data uv_dst v_data u_data uv_row_stride 1 width height
    else if uv_pixel_stride =? 2 then
      if v_data <? u_data then
        if uv_row_stride =? width then
          memcpy mem nv21_data uv_dst v_data (Z.quot area 2)
        else copy_rows mem nv21_data uv_dst v_data uv_row_stride width (Z.quot height 2)
      else
        interleave_vu mem nv21_data uv_dst v_data u_data uv_row_stride 2 width height
    else Ok nv21_data.

(** ** The frame of [detectFromYUV]

    The rest of the frame normalisation of [detectFromYUV], after the
    repacking: the conversion to BGR and the rotation, both OpenCV's. *)

Inductive RotateFlags : Type :=
| ROTATE_90_CLOCKWISE
| ROTATE_180
| ROTATE_90_COUNTERCLOCKWISE.

Section Frame.

Variable mem : Memory.

(** [cv::Mat nv21(rows, cols, CV_8UC1, data)] followed by
    [cv::cvtColor(nv21, bgr, cv::COLOR_YUV2BGR_NV21)]. *)
Variable cv_nv21_to_bgr : list Byte.byte -> Z -> Z -> result Mat.

(** [cv::rotate(bgr, bgr, flag)] *)
Variable cv_rotate : Mat -> RotateFlags -> result Mat.

Definition yuv_frame (y_data u_data v_data : Z)
  (width height y_row_stride uv_row_stride uv_pixel_stride rotation : Z) : result Mat :=
  let* nv21_data := nv21_pack mem y_data u_data v_data width height
                              y_row_stride uv_row_stride uv_pixel_stride in
  let* height3 := int_of (height * 3) in
  let* bgr := cv_nv21_to_bgr nv21_data (Z.quot height3 2) width in
  if rotation =? 90 then cv_rotate bgr ROTATE_90_CLOCKWISE
  else if rotation =? 180 then cv_rotate bgr ROTATE_180
  else if rotation =? 270 then cv_rotate bgr ROTATE_90_COUNTERCLOCKWISE
  else Ok bgr.

End Frame.

(** ** Further examples *)

(** A YOLOv8 model of two classes on a 64 x 64 input, and an output of
    eight boxes [(cx, cy, w, h, score 0, score 1)], scores in tenths, laid
    out box by box ([[1, 8, 6]]) and field by field ([[1, 6, 8]]). *)
Definition yolov8_64 : YoloDetector := sample_detector YOLOV8 2 64 64.

Definition box_row (cx cy w h s0 s1 : Z) : list F32.float :=
  [F32.of_int cx; F32.of_int cy; F32.of_int w; F32.of_int h;
   F32.div (F32.of_int s0) (F32.of_int 10); F32.div (F32.of_int s1) (F32.of_int 10)].

Definition eight_boxes : list (list F32.float) :=
  [box_row 10 10 4 4 3 0; box_row 30 30 4 4 9 1; box_row 50 50 4 4 0 0;
   box_row 20 20 4 4 1 6; box_row 0 0 0 0 0 0; box_row 0 0 0 0 0 0;
   box_row 0 0 0 0 0 0; box_row 0 0 0 0 0 0].

Definition boxes_by_box : list F32.float := concat eight_boxes.

Definition boxes_by_field : list F32.float :=
  flat_map (fun k => omap (fun row => row !! k) eight_boxes) (seq 0 6).

(** A YOLOX model of 80 classes on a 2 x 2 input. *)
Definition yolox_2x2 : YoloDetector := sample_detector YOLOX 80 2 2.

(** A PP-YOLOE model whose inputs are named as PaddleDetection exports
    them, the scale first. *)
Definition ppyoloe_two_inputs : YoloDetector :=
  (init (Some {| session_inputs :=
                   [ {| tensor_name := "scale_factor"; tensor_shape := [1; 2] |};
                     {| tensor_name := "image"; tensor_shape := [1; 3; 2; 2] |} ];
                 session_outputs :=
                   [ {| tensor_name := "multiclass_nms3_0.tmp_0"; tensor_shape := [-1; 6] |} ] |})
        new_YoloDetector).2.

(** A YOLOX model of one class on a 16 x 16 input (five grid cells), and
    an output of three boxes [(x, y, w, h, objectness, score)]: the first
    with a NaN objectness, the others of confidence 1 and 0.5. *)
Definition yolox_16 : YoloDetector := sample_detector YOLOX 1 16 16.

Definition nan_boxes : list F32.float :=
  [F32.zero; F32.zero; F32.zero; F32.zero; S754_nan; F32.of_int 1;
   F32.zero; F32.zero; F32.zero; F32.zero; F32.of_int 1; F32.of_int 1;
   F32.zero; F32.zero; F32.zero; F32.zero; F32.of_int 1;
   F32.div (F32.of_int 1) (F32.of_int 2)].

(** Readable memory whose byte at address [a] is [a mod 256]. *)
Definition ramp : Memory := fun a => Byte.of_N (Z.to_N (a mod 256)).

(** * Properties *)

(** ** Binary32: order, rounding and the arithmetic of the suppressor *)

Module F32Facts.
Import F32.

Lemma compare_key (x y : float) :
  is_nan x = false -> is_nan y = false ->
  SFcompare x y =
    Some (if decide (lt3 (key x) (key y)) then Lt
          else if decide (lt3 (key y) (key x)) then Gt else Eq).
Proof.
  intros Hx Hy.
  destruct x as [sx|sx| |sx mx ex], y as [sy|sy| |sy my ey]; try discriminate;
    try (destruct sx); try (destruct sy); cbn [SFcompare key];
    try (repeat case_decide; unfold lt3 in *; solve [reflexivity | lia]).
  - (* both negative *)
    unfold lt3.
    destruct (Z.compare_spec ex ey); [ | repeat case_decide; solve [reflexivity | lia] .. ].
    subst. change (Pos.compare_cont Eq mx my) with (Pos.compare mx my).
    destruct (Pos.compare_spec mx my); cbn [CompOpp]; repeat case_decide; solve [reflexivity | lia].
  - unfold lt3.
    destruct (Z.compare_spec ex ey); [ | repeat case_decide; solve [reflexivity | lia] .. ].
    subst. change (Pos.compare_cont Eq mx my) with (Pos.compare mx my).
    destruct (Pos.compare_spec mx my); repeat case_decide; solve [reflexivity | lia].
Qed.

Ltac lt3_lia :=
  repeat match goal with
  | |- context [key ?x] => let k := fresh "k" in set (k := key x) in *; clearbody k; destruct k as [[? ?] ?]
  | H : context [key ?x] |- _ => let k := fresh "k" in set (k := key x) in *; clearbody k; destruct k as [[? ?] ?]
  end;
  unfold lt3 in *; lia.

Lemma ltb_true (x y : float) :
  ltb x y = true <-> is_nan x = false /\ is_nan y = false /\ lt3 (key x) (key y).
Proof.
  unfold ltb, SFltb.
  destruct (is_nan x) eqn:Hx; [destruct x; try discriminate; cbn; intuition discriminate|].
  destruct (is_nan y) eqn:Hy; [destruct x, y; try discriminate; cbn; intuition discriminate|].
  rewrite (compare_key x y Hx Hy).
  repeat case_decide; intuition (try discriminate; auto).
Qed.

Lemma leb_true (x y : float) :
  leb x y = true <-> is_nan x = false /\ is_nan y = false /\ ~ lt3 (key y) (key x).
Proof.
  unfold leb, SFleb.
  destruct (is_nan x) eqn:Hx; [destruct x; try discriminate; cbn; intuition discriminate|].
  destruct (is_nan y) eqn:Hy; [destruct x, y; try discriminate; cbn; intuition discriminate|].
  rewrite (compare_key x y Hx Hy).
  repeat case_decide; intuition (try discriminate; auto); lt3_lia.
Qed.

Lemma ltb_false (x y : float) :
  ltb x y = false <-> is_nan x = true \/ is_nan y = true \/ ~ lt3 (key x) (key y).
Proof.
  destruct (ltb x y) eqn:E.
  - apply ltb_true in E. destruct E as (-> & -> & ?). intuition discriminate.
  - split; [intros _|reflexivity].
    destruct (is_nan x) eqn:Hx; [auto|]. destruct (is_nan y) eqn:Hy; [auto|].
    right; right. intros Hlt.
    assert (ltb x y = true) by (apply ltb_true; auto). congruence.
Qed.

Lemma leb_false (x y : float) :
  leb x y = false <-> is_nan x = true \/ is_nan y = true \/ lt3 (key y) (key x).
Proof.
  destruct (leb x y) eqn:E.
  - apply leb_true in E. destruct E as (-> & -> & ?). intuition discriminate.
  - split; [intros _|reflexivity].
    destruct (is_nan x) eqn:Hx; [auto|]. destruct (is_nan y) eqn:Hy; [auto|].
    right; right. destruct (decide (lt3 (key y) (key x))) as [|Hn]; [assumption|].
    assert (leb x y = true) by (apply leb_true; auto). congruence.
Qed.

(** Order reasoning: every comparison becomes a statement on keys, and
    linear arithmetic on the keys' components finishes. *)
Ltac f32_keys :=
  unfold gtb in *;
  repeat match goal with
  | H : ltb _ _ = true |- _ => apply ltb_true in H; destruct H as (? & ? & ?)
  | H : leb _ _ = true |- _ => apply leb_true in H; destruct H as (? & ? & ?)
  | H : ltb _ _ = false |- _ => apply ltb_false in H; destruct H as [?|[?|?]]
  | H : leb _ _ = false |- _ => apply leb_false in H; destruct H as [?|[?|?]]
  end;
  try congruence.

Ltac f32_order :=
  f32_keys;
  repeat match goal with
  | |- ltb _ _ = true => apply ltb_true; repeat split
  | |- leb _ _ = true => apply leb_true; repeat split
  | |- ltb _ _ = false => apply ltb_false
  | |- leb _ _ = false => apply leb_false
  end;
  try congruence; try assumption;
  try solve [lt3_lia | right; right; lt3_lia].

Lemma shr_1_nonneg mrs : 0 <= shr_m mrs -> 0 <= shr_m (shr_1 mrs).
Proof.
  destruct mrs as [m r s]; cbn. intros H.
  destruct m as [|[p|p|]|p]; cbn; lia.
Qed.

Lemma iter_shr_1_nonneg p mrs : 0 <= shr_m mrs -> 0 <= shr_m (SpecFloat.iter_pos shr_1 p mrs).
Proof.
  revert mrs. induction p; intros mrs H; cbn; auto using shr_1_nonneg.
Qed.

Lemma shr_fexp_nonneg m e l :
  0 <= m -> 0 <= shr_m (shr_fexp prec emax m e l).1.
Proof.
  intros H. unfold shr_fexp, shr.
  assert (0 <= shr_m (shr_record_of_loc m l)) by (destruct l as [|[]]; cbn; lia).
  destruct (_ - e); cbn [fst]; auto using iter_shr_1_nonneg.
Qed.

Lemma binary_round_aux_sign s m e l :
  0 <= m -> has_sign s (binary_round_aux prec emax s m e l).
Proof.
  intros H. unfold binary_round_aux.
  pose proof (shr_fexp_nonneg m e l H) as H1.
  destruct (shr_fexp prec emax m e l) as [mrs' e'].
  cbn [fst] in H1.
  assert (0 <= round_nearest_even (shr_m mrs') (loc_of_shr_record mrs')) as H2.
  { unfold round_nearest_even. destruct (loc_of_shr_record mrs') as [|[]];
      try destruct (Z.even _); lia. }
  pose proof (shr_fexp_nonneg _ e' loc_Exact H2) as H3.
  destruct (shr_fexp prec emax _ e' loc_Exact) as [mrs'' e''].
  cbn [fst] in H3.
  destruct (shr_m mrs''); [reflexivity | | lia].
  destruct (_ <=? _); reflexivity.
Qed.


Lemma has_sign_false_nonneg f : has_sign false f -> leb zero f = true.
Proof. destruct f as [[]|[]| |[] ? ?]; cbn; intros; try reflexivity; try discriminate; contradiction. Qed.


Lemma leb_zero_clamp_max v : leb zero (std_max zero v) = true.
Proof.
  unfold std_max. destruct (ltb zero v) eqn:E; [|reflexivity].
  f32_order.
Qed.



(** *** The arithmetic of [iou] never produces NaN *)

Lemma std_max_zero_sign v : has_sign false (std_max zero v).
Proof.
  unfold std_max. destruct (ltb zero v) eqn:E; [|reflexivity].
  destruct v as [[]|[]| |[] ? ?]; cbn in *; try reflexivity; discriminate.
Qed.

Lemma mul_sign x y :
  has_sign false x -> has_sign false y ->
  is_nan (mul x y) = true \/ has_sign false (mul x y).
Proof.
  destruct x as [sx|sx| |sx mx ex], y as [sy|sy| |sy my ey]; cbn; intros Hx Hy;
    try contradiction; subst; cbn; auto.
  right. apply (binary_round_aux_sign false). lia.
Qed.

Lemma sub_nan_r x : sub x S754_nan = S754_nan.
Proof. destruct x; reflexivity. Qed.

Lemma sub_pinf_not_pos x : ltb zero (sub x (S754_infinity false)) = false.
Proof. destruct x as [[]|[]| |[] ? ?]; reflexivity. Qed.

Lemma div_sign x y :
  has_sign false x -> is_nan x = false -> x <> S754_infinity false ->
  ltb zero y = true ->
  has_sign false (div x y).
Proof.
  destruct x as [sx|sx| |sx mx ex], y as [sy|[]| |[] my ey]; cbn; intros Hx Hn Hi Hy;
    try contradiction; try discriminate; subst; cbn; try reflexivity; try congruence.
  unfold div, SFdiv.
  destruct (SFdiv_core_binary prec emax (Z.pos mx) ex (Z.pos my) ey) as [[mz ez] lz] eqn:E.
  apply (binary_round_aux_sign false).
  unfold SFdiv_core_binary in E.
  destruct (Z.div_eucl _ (Z.pos my)) as [q r] eqn:Ed.
  injection E as <- _ _.
  match type of Ed with Z.div_eucl ?m _ = _ =>
    assert (0 <= m) as Hm;
    [ | pose proof (Z.div_pos m (Z.pos my) Hm ltac:(lia)) as Hq;
        unfold Z.div in Hq; rewrite Ed in Hq; exact Hq ]
  end.
  destruct (_ - _ - _); try lia. apply Z.shiftl_nonneg. lia.
Qed.

Lemma inter_area_sign a b :
  is_nan (inter_area a b) = true \/ has_sign false (inter_area a b).
Proof. unfold inter_area. apply mul_sign; apply std_max_zero_sign. Qed.

Lemma iou_sign a b : has_sign false (iou a b).
Proof.
  unfold iou, gtb. destruct (ltb zero (union_area a b)) eqn:E; [|reflexivity].
  unfold union_area in E |- *.
  destruct (inter_area_sign a b) as [Hn | Hs].
  - destruct (inter_area a b); try discriminate.
    rewrite sub_nan_r in E. discriminate.
  - apply div_sign; auto.
    + destruct (inter_area a b); try reflexivity; contradiction.
    + intros Hinf. rewrite Hinf in E. rewrite sub_pinf_not_pos in E. discriminate.
Qed.

Lemma iou_not_nan a b : is_nan (iou a b) = false.
Proof. pose proof (iou_sign a b) as H. destruct (iou a b); try reflexivity; contradiction. Qed.

Lemma iou_nonneg a b : leb zero (iou a b) = true.
Proof. apply has_sign_false_nonneg, iou_sign. Qed.



(** *** [iou] is symmetric *)

Lemma add_comm x y : add x y = add y x.
Proof.
  destruct x as [sx|sx| |sx mx ex], y as [sy|sy| |sy my ey]; try reflexivity;
    try (destruct sx, sy; reflexivity).
  unfold add, SFadd. rewrite (Z.min_comm ey ex), Z.add_comm. reflexivity.
Qed.

Lemma sub_nan_l y : sub S754_nan y = S754_nan.
Proof. reflexivity. Qed.

Lemma mul_nan_l y : mul S754_nan y = S754_nan.
Proof. reflexivity. Qed.

Lemma mul_nan_r x : mul x S754_nan = S754_nan.
Proof. destruct x; reflexivity. Qed.

Lemma add_nan_l y : add S754_nan y = S754_nan.
Proof. reflexivity. Qed.

Lemma add_nan_r x : add x S754_nan = S754_nan.
Proof. destruct x; reflexivity. Qed.

(** Equal, or two zeros (of any signs). *)
Lemma key_eq_sim x y :
  is_nan x = false -> is_nan y = false -> key x = key y -> sim x y.
Proof.
  destruct x as [sx|[]| |[] mx ex], y as [sy|[]| |[] my ey]; cbn;
    intros _ _ E; try discriminate; try (left; reflexivity).
  - right. eauto.
  - injection E as E1 E2. left. f_equal; lia.
  - injection E as E1 E2. left. f_equal; lia.
Qed.

Lemma lt3_trichotomy a b : lt3 a b \/ a = b \/ lt3 b a.
Proof.
  destruct a as [[a1 a2] a3], b as [[b1 b2] b3]. unfold lt3.
  destruct (Z.lt_trichotomy a1 b1) as [?|[->|?]];
    [left; lia | | right; right; lia].
  destruct (Z.lt_trichotomy a2 b2) as [?|[->|?]];
    [left; lia | | right; right; lia].
  destruct (Z.lt_trichotomy a3 b3) as [?|[->|?]];
    [left; lia | right; left; reflexivity | right; right; lia].
Qed.

Lemma std_max_sim x y :
  is_nan x = false -> is_nan y = false -> sim (std_max x y) (std_max y x).
Proof.
  intros Hx Hy. unfold std_max.
  destruct (lt3_trichotomy (key x) (key y)) as [Hlt|[Heq|Hgt]].
  - replace (ltb x y) with true by (symmetry; f32_order).
    replace (ltb y x) with false by (symmetry; f32_order). left. reflexivity.
  - replace (ltb x y) with false by (symmetry; rewrite ltb_false, Heq; right; right; lt3_lia).
    replace (ltb y x) with false by (symmetry; rewrite ltb_false, Heq; right; right; lt3_lia).
    apply key_eq_sim; assumption.
  - replace (ltb x y) with false by (symmetry; f32_order).
    replace (ltb y x) with true by (symmetry; f32_order). left. reflexivity.
Qed.

Lemma std_min_sim x y :
  is_nan x = false -> is_nan y = false -> sim (std_min x y) (std_min y x).
Proof.
  intros Hx Hy. unfold std_min.
  destruct (lt3_trichotomy (key x) (key y)) as [Hlt|[Heq|Hgt]].
  - replace (ltb x y) with true by (symmetry; f32_order).
    replace (ltb y x) with false by (symmetry; f32_order). left. reflexivity.
  - replace (ltb x y) with false by (symmetry; rewrite ltb_false, Heq; right; right; lt3_lia).
    replace (ltb y x) with false by (symmetry; rewrite ltb_false, Heq; right; right; lt3_lia).
    apply key_eq_sim; assumption.
  - replace (ltb x y) with false by (symmetry; f32_order).
    replace (ltb y x) with true by (symmetry; f32_order). left. reflexivity.
Qed.

Lemma sub_sim x x' y y' : sim x x' -> sim y y' -> sim (sub x y) (sub x' y').
Proof.
  intros [->|(s1 & s2 & -> & ->)] [->|(s3 & s4 & -> & ->)].
  - left. reflexivity.
  - destruct x' as [[]|[]| |[] ? ?], s3, s4; cbn; try (left; reflexivity); right; eauto.
  - destruct y' as [[]|[]| |[] ? ?], s1, s2; cbn; try (left; reflexivity); right; eauto.
  - destruct s1, s2, s3, s4; cbn; right; eauto.
Qed.

Lemma std_max_zero_sim x x' : sim x x' -> std_max zero x = std_max zero x'.
Proof.
  intros [->|(s1 & s2 & -> & ->)]; [reflexivity|]. destruct s1, s2; reflexivity.
Qed.

Lemma box_area_nan a :
  is_nan (x1 a) || is_nan (y1 a) || is_nan (x2 a) || is_nan (y2 a) = true ->
  box_area a = S754_nan.
Proof.
  unfold box_area. intros H.
  destruct (x1 a), (y1 a), (x2 a), (y2 a); try discriminate H;
    rewrite ?sub_nan_r, ?sub_nan_l, ?mul_nan_r, ?mul_nan_l; reflexivity.
Qed.

Lemma iou_nan_area a b :
  box_area a = S754_nan \/ box_area b = S754_nan -> iou a b = zero.
Proof.
  unfold iou, union_area. intros [-> | ->];
    rewrite ?add_nan_l, ?add_nan_r, sub_nan_l; reflexivity.
Qed.

Lemma inter_area_comm a b :
  is_nan (x1 a) || is_nan (y1 a) || is_nan (x2 a) || is_nan (y2 a) = false ->
  is_nan (x1 b) || is_nan (y1 b) || is_nan (x2 b) || is_nan (y2 b) = false ->
  inter_area a b = inter_area b a.
Proof.
  intros Ha Hb.
  repeat (apply orb_false_iff in Ha as [Ha ?]). repeat (apply orb_false_iff in Hb as [Hb ?]).
  unfold inter_area. f_equal; apply std_max_zero_sim, sub_sim;
    first [apply std_min_sim | apply std_max_sim]; assumption.
Qed.

Lemma iou_comm a b : iou a b = iou b a.
Proof.
  destruct (is_nan (x1 a) || is_nan (y1 a) || is_nan (x2 a) || is_nan (y2 a)) eqn:Ha.
  { rewrite !iou_nan_area; auto using box_area_nan. }
  destruct (is_nan (x1 b) || is_nan (y1 b) || is_nan (x2 b) || is_nan (y2 b)) eqn:Hb.
  { rewrite !iou_nan_area; auto using box_area_nan. }
  unfold iou, union_area.
  rewrite (inter_area_comm a b Ha Hb), (add_comm (box_area a)). reflexivity.
Qed.

End F32Facts.

Import F32Facts.

(** ** The comparator of the sort *)

Lemma by_confidence_irrefl a : by_confidence a a = false.
Proof. unfold by_confidence. f32_order. Qed.

Lemma by_confidence_trans a b c :
  by_confidence a b = true -> by_confidence b c = true -> by_confidence a c = true.
Proof. unfold by_confidence. intros. f32_order. Qed.

Lemma tied_spec a b :
  tied a b = true <-> by_confidence a b = false /\ by_confidence b a = false.
Proof. unfold tied. rewrite andb_true_iff, !negb_true_iff. reflexivity. Qed.

Lemma strict_weak_ordering_spec l :
  strict_weak_ordering l = true <-> tied_transitive l.
Proof.
  unfold strict_weak_ordering, tied_transitive. rewrite forallb_forall. split.
  - intros H a b c Ha Hb Hc Hab Hbc.
    specialize (H a (proj1 (list_elem_of_In _ _) Ha)).
    rewrite forallb_forall in H. specialize (H b (proj1 (list_elem_of_In _ _) Hb)).
    rewrite forallb_forall in H. specialize (H c (proj1 (list_elem_of_In _ _) Hc)).
    rewrite Hab, Hbc in H. exact H.
  - intros H a Ha. apply forallb_forall. intros b Hb. apply forallb_forall. intros c Hc.
    apply list_elem_of_In in Ha, Hb, Hc.
    destruct (tied a b) eqn:Hab, (tied b c) eqn:Hbc; try reflexivity.
    cbn. apply (H a b c); assumption.
Qed.

Lemma tied_transitive_subseteq l l' :
  l' ⊆ l -> tied_transitive l -> tied_transitive l'.
Proof. intros Hsub H a b c Ha Hb Hc. apply H; apply Hsub; assumption. Qed.


(** The comparator orders confidences that are numbers. *)
Lemma no_nan_strict_weak_ordering l :
  no_nan_confidence l -> strict_weak_ordering l = true.
Proof.
  intros Hn. apply strict_weak_ordering_spec. intros a b c Ha Hb Hc.
  unfold no_nan_confidence in Hn. rewrite Forall_forall in Hn.
  pose proof (Hn a Ha) as Hna. pose proof (Hn b Hb) as Hnb. pose proof (Hn c Hc) as Hnc.
  cbv beta in Hna, Hnb, Hnc.
  rewrite !tied_spec. unfold by_confidence. intros [H1 H2] [H3 H4].
  split; f32_order.
Qed.

(** Among values the comparator orders weakly, not going before is
    transitive. *)
Lemma not_after_trans l a b c :
  tied_transitive l -> a ∈ l -> b ∈ l -> c ∈ l ->
  not_after a b -> not_after b c -> not_after a c.
Proof.
  intros Hl Ha Hb Hc Hab Hbc.
  change (by_confidence b a = false) in Hab. change (by_confidence c b = false) in Hbc.
  change (by_confidence c a = false).
  destruct (by_confidence c a) eqn:Hca; [|reflexivity].
  destruct (by_confidence a b) eqn:Hab'.
  { rewrite (by_confidence_trans c a b Hca Hab') in Hbc. discriminate. }
  destruct (by_confidence b c) eqn:Hbc'.
  { rewrite (by_confidence_trans b c a Hbc' Hca) in Hab. discriminate. }
  assert (Hac : tied a c = true).
  { apply (Hl a b c); try assumption; apply tied_spec; auto. }
  apply tied_spec in Hac as [_ Hac]. congruence.
Qed.

(** ** The insertion sort of the examples keeps the contract of [std::sort] *)

Lemma sample_insert_perm x l : sample_insert x l ≡ₚ x :: l.
Proof.
  induction l as [|y l IH]; cbn; [reflexivity|].
  destruct (by_confidence _ _); [|reflexivity].
  rewrite IH. apply Permutation_swap.
Qed.

Lemma sample_sort_cons x l :
  sample_sort (x :: l) = sample_insert x (sample_sort l).
Proof. reflexivity. Qed.

Lemma sample_sort_perm l : sample_sort l ≡ₚ l.
Proof.
  induction l as [|x l IH]; [reflexivity|].
  rewrite sample_sort_cons, sample_insert_perm, IH. reflexivity.
Qed.

Lemma sample_insert_sorted x l :
  tied_transitive (x :: l) ->
  StronglySorted not_after l ->
  StronglySorted not_after (sample_insert x l).
Proof.
  intros Ht Hs. induction Hs as [|y l Hs IH Hy]; cbn.
  - repeat constructor.
  - destruct (by_confidence y x) eqn:E.
    + constructor.
      * apply IH. eapply tied_transitive_subseteq; [|exact Ht].
        intros z Hz. apply elem_of_cons in Hz as [->|Hz]; [left | right; right; exact Hz].
      * rewrite sample_insert_perm. constructor; [|assumption].
        unfold not_after. unfold by_confidence in E. f32_order.
    + constructor; [constructor; assumption|].
      constructor; [exact E|].
      rewrite Forall_forall in Hy |- *. intros z Hz.
      apply (not_after_trans (x :: y :: l) x y z Ht);
        [left | right; left | right; right; exact Hz | exact E | auto].
Qed.

Lemma sample_sort_sorted l :
  tied_transitive l -> StronglySorted not_after (sample_sort l).
Proof.
  induction l as [|x l IH]; intros Ht; [constructor|].
  rewrite sample_sort_cons. apply sample_insert_sorted.
  - eapply tied_transitive_subseteq; [|exact Ht].
    intros z Hz. apply elem_of_cons in Hz as [->|Hz]; [left|right].
    rewrite <- (sample_sort_perm l). exact Hz.
  - apply IH. eapply tied_transitive_subseteq; [|exact Ht]. intros z Hz. right. exact Hz.
Qed.

Lemma sample_sort_sorts : sorts_by_confidence sample_sort.
Proof.
  intros l Hl. split; [apply sample_sort_perm|].
  apply sample_sort_sorted, strict_weak_ordering_spec, Hl.
Qed.

Lemma sample_sort_backwards_sorts : sorts_by_confidence sample_sort_backwards.
Proof.
  intros l Hl. unfold sample_sort_backwards. split.
  - rewrite sample_sort_perm. apply reverse_Permutation.
  - apply sample_sort_sorted. apply strict_weak_ordering_spec in Hl.
    eapply tied_transitive_subseteq; [|exact Hl].
    intros z Hz. rewrite elem_of_reverse in Hz. exact Hz.
Qed.


(** ** The two loops of [nms] against the greedy description *)

Section Loops.

Variable detections : list Detection.
Variable iou_threshold : F32.float.

Lemma mark_step_length di sup j : length (mark_step detections iou_threshold di sup j) = length sup.
Proof.
  unfold mark_step. destruct (sup !! j) as [[]|]; try reflexivity.
  destruct (detections !! j); try reflexivity.
  destruct (suppresses _ _ _); [apply length_insert | reflexivity].
Qed.

Lemma mark_step_lookup di sup j j' :
  mark_step detections iou_threshold di sup j !! j' = if decide (j = j') then marked detections iou_threshold di sup j' else sup !! j'.
Proof.
  unfold mark_step, marked. case_decide as Hj.
  - subst j'.
    destruct (sup !! j) as [[]|] eqn:Es, (detections !! j) as [dj|] eqn:Ed;
      cbn [orb]; try (rewrite Es; reflexivity).
    destruct (suppresses _ _ _); [|exact Es].
    apply list_lookup_insert_eq. apply lookup_lt_Some in Es. exact Es.
  - destruct (sup !! j) as [[]|]; try reflexivity.
    destruct (detections !! j); try reflexivity.
    destruct (suppresses _ _ _); [|reflexivity].
    apply list_lookup_insert_ne. exact Hj.
Qed.

Lemma marked_mark_step di sup j j' :
  marked detections iou_threshold di (mark_step detections iou_threshold di sup j) j' = marked detections iou_threshold di sup j'.
Proof.
  unfold marked at 1. rewrite mark_step_lookup. case_decide; [|reflexivity].
  subst j'. unfold marked. destruct (sup !! j) as [b|]; [|reflexivity].
  destruct (detections !! j); [|reflexivity].
  rewrite <- orb_assoc, orb_diag. reflexivity.
Qed.

Lemma mark_fold_lookup di js sup j' :
  foldl (mark_step detections iou_threshold di) sup js !! j'
  = if decide (j' ∈ js) then marked detections iou_threshold di sup j' else sup !! j'.
Proof.
  revert sup. induction js as [|j js IH]; intros sup; cbn [foldl].
  - rewrite decide_False by (apply not_elem_of_nil). reflexivity.
  - rewrite IH. rewrite marked_mark_step, mark_step_lookup.
    destruct (decide (j' ∈ js)) as [Hin|Hin].
    + rewrite decide_True by (right; exact Hin). reflexivity.
    + destruct (decide (j = j')) as [->|Hne].
      * rewrite decide_True by left. reflexivity.
      * rewrite decide_False; [reflexivity|].
        rewrite elem_of_cons. intros [->|?]; [congruence | contradiction].
Qed.

Lemma mark_fold_length di js sup : length (foldl (mark_step detections iou_threshold di) sup js) = length sup.
Proof.
  revert sup. induction js as [|j js IH]; intros sup; cbn [foldl]; [reflexivity|].
  rewrite IH. apply mark_step_length.
Qed.

Lemma suppress_later_length i di sup :
  length (suppress_later detections iou_threshold i di sup) = length sup.
Proof. apply (mark_fold_length di). Qed.

Lemma suppress_later_lookup i di sup j :
  length sup = length detections ->
  suppress_later detections iou_threshold i di sup !! j
  = if decide (i < j)%nat then marked detections iou_threshold di sup j else sup !! j.
Proof.
  intros Hlen. unfold suppress_later.
  rewrite mark_fold_lookup.
  destruct (decide (i < j)%nat) as [Hij|Hij].
  - case_decide as Hin; [reflexivity|].
    unfold marked. destruct (sup !! j) eqn:Es; [|reflexivity].
    exfalso. apply Hin. apply elem_of_seq. apply lookup_lt_Some in Es. lia.
  - rewrite decide_False; [reflexivity|]. rewrite elem_of_seq. lia.
Qed.

Local Abbreviation after k := (rounds detections iou_threshold k).

Lemma rounds_S k :
  after (S k) = nms_round detections iou_threshold (after k) k.
Proof. unfold rounds. rewrite seq_S, foldl_app. reflexivity. Qed.

Lemma rounds_invariant k :
  (k <= length detections)%nat ->
  length (after k).2 = length detections
  /\ (forall j dj, (k <= j)%nat -> detections !! j = Some dj ->
        (after k).2 !! j
        = Some (existsb (fun r => suppresses iou_threshold r dj) (after k).1))
  /\ (after k).1 ++ greedy_keep iou_threshold (after k).1 (drop k detections)
     = greedy_keep iou_threshold [] detections.
Proof.
  induction k as [|k IH]; intros Hk.
  - unfold rounds. cbn [seq foldl fst snd]. split; [apply length_replicate|].
    split; [|reflexivity].
    intros j dj _ Hj. cbn. apply lookup_replicate_2. apply lookup_lt_Some in Hj. exact Hj.
  - destruct IH as (Hlen & Hflags & Hgreedy); [lia|].
    rewrite rounds_S. unfold nms_round.
    destruct (lookup_lt_is_Some_2 detections k ltac:(lia)) as [dk Hdk].
    rewrite (Hflags k dk (le_n k) Hdk), Hdk.
    rewrite (drop_S _ _ _ Hdk) in Hgreedy. cbn [greedy_keep] in Hgreedy.
    destruct (existsb _ (after k).1) eqn:Ex.
    + split; [exact Hlen|]. split; [|exact Hgreedy].
      intros j dj Hj Hdj. apply Hflags; [lia | exact Hdj].
    + cbn [fst snd]. split; [rewrite suppress_later_length; exact Hlen|]. split.
      * intros j dj Hj Hdj. rewrite suppress_later_lookup by exact Hlen.
        rewrite decide_True by lia. unfold marked.
        rewrite (Hflags j dj ltac:(lia) Hdj), Hdj.
        rewrite existsb_app. cbn. rewrite orb_false_r. reflexivity.
      * rewrite <- app_assoc. exact Hgreedy.
Qed.

Lemma nms_loop_greedy :
  (nms_loop detections iou_threshold).1 = greedy_keep iou_threshold [] detections.
Proof.
  destruct (rounds_invariant (length detections) (le_n _)) as (_ & _ & H).
  rewrite drop_all in H. cbn [greedy_keep] in H. rewrite app_nil_r in H. exact H.
Qed.

End Loops.

(** [nms] completes exactly on candidates the comparator orders weakly,
    with what the greedy selection keeps of the sorted candidates. *)
Lemma nms_Ok std_sort detections iou_threshold kept :
  nms std_sort detections iou_threshold = Ok kept <->
  strict_weak_ordering detections = true
  /\ kept = greedy_keep iou_threshold [] (std_sort detections).
Proof.
  unfold nms. rewrite nms_loop_greedy.
  destruct (strict_weak_ordering detections); split.
  - intros [= <-]. auto.
  - intros [_ ->]. reflexivity.
  - discriminate.
  - intros [[=] _].
Qed.

Lemma nms_completes std_sort detections iou_threshold :
  no_nan_confidence detections ->
  exists kept, nms std_sort detections iou_threshold = Ok kept.
Proof.
  intros Hn. unfold nms. rewrite (no_nan_strict_weak_ordering _ Hn).
  eexists. reflexivity.
Qed.

Lemma nms_no_exception std_sort detections iou_threshold :
  nms std_sort detections iou_threshold <> Throws.
Proof. unfold nms. destruct (strict_weak_ordering detections); discriminate. Qed.

(** ** Properties of the greedy selection *)

Lemma existsb_false_Forall {A} (f : A -> bool) (l : list A) :
  existsb f l = false <-> Forall (fun x => f x = false) l.
Proof.
  induction l as [|x l IH]; cbn.
  - split; [constructor | reflexivity].
  - rewrite orb_false_iff, IH, Forall_cons. reflexivity.
Qed.

Lemma greedy_keep_sublist thr kept l : greedy_keep thr kept l `sublist_of` l.
Proof.
  revert kept. induction l as [|d l IH]; intros kept; cbn; [constructor|].
  destruct (existsb _ kept); [apply sublist_cons, IH | apply sublist_skip, IH].
Qed.

Lemma greedy_keep_spares thr kept l :
  Forall (fun b => Forall (fun k => spares thr k b) kept) (greedy_keep thr kept l)
  /\ StronglySorted (spares thr) (greedy_keep thr kept l).
Proof.
  revert kept. induction l as [|d l IH]; intros kept; cbn.
  - split; constructor.
  - destruct (existsb _ kept) eqn:E; [apply IH|].
    destruct (IH (kept ++ [d])) as [Hk Hs].
    apply existsb_false_Forall in E.
    split.
    + constructor; [exact E|].
      eapply Forall_impl; [exact Hk|]. cbn. intros b Hb.
      apply Forall_app in Hb as [Hb _]. exact Hb.
    + constructor; [exact Hs|].
      eapply Forall_impl; [exact Hk|]. cbn. intros b Hb.
      apply Forall_app in Hb as [_ Hb]. rewrite Forall_singleton in Hb. exact Hb.
Qed.

(** The selection over a list cut in two: the second part is gone through
    with what the first part kept. *)
Lemma greedy_keep_app thr kept l1 l2 :
  greedy_keep thr kept (l1 ++ l2)
  = greedy_keep thr kept l1
    ++ greedy_keep thr (kept ++ greedy_keep thr kept l1) l2.
Proof.
  revert kept. induction l1 as [|d l1 IH]; intros kept; cbn.
  - rewrite app_nil_r. reflexivity.
  - destruct (existsb _ kept); [apply IH|].
    cbn. rewrite IH, <- app_assoc. reflexivity.
Qed.

(** A list in which no element suppresses a later one is kept whole. *)
Lemma greedy_keep_fixed thr kept l :
  Forall (fun b => Forall (fun k => spares thr k b) kept) l ->
  StronglySorted (spares thr) l ->
  greedy_keep thr kept l = l.
Proof.
  revert kept. induction l as [|d l IH]; intros kept Hk Hs; cbn; [reflexivity|].
  apply Forall_cons in Hk as [Hd Hk].
  apply StronglySorted_inv in Hs as [Hs Hdl].
  rewrite (proj2 (existsb_false_Forall _ _) Hd).
  f_equal. apply IH; [|exact Hs].
  rewrite Forall_forall in Hk, Hdl |- *. intros b Hb.
  apply Forall_app. split; [auto|]. apply Forall_singleton. auto.
Qed.

Lemma StronglySorted_lookup {A} (R : A -> A -> Prop) (l : list A) i j a b :
  StronglySorted R l -> (i < j)%nat -> l !! i = Some a -> l !! j = Some b -> R a b.
Proof.
  intros Hs. revert i j. induction Hs as [|x l Hs IH Hx]; intros i j Hij Hi Hj.
  - discriminate.
  - destruct j as [|j]; [lia|]. cbn in Hj. destruct i as [|i].
    + injection Hi as <-. rewrite Forall_forall in Hx. apply Hx.
      eapply list_elem_of_lookup_2. exact Hj.
    + cbn in Hi. apply (IH i j); [lia | assumption..].
Qed.

Lemma StronglySorted_sublist_of {A} (R : A -> A -> Prop) (l k : list A) :
  l `sublist_of` k -> StronglySorted R k -> StronglySorted R l.
Proof.
  induction 1 as [|x l k Hsub IH|x l k Hsub IH]; intros Hs.
  - constructor.
  - apply StronglySorted_inv in Hs as [Hs Hx]. constructor; [auto|].
    rewrite Forall_forall in Hx |- *. intros y Hy.
    apply Hx. eapply elem_of_sublist; eassumption.
  - apply StronglySorted_inv in Hs as [Hs _]. auto.
Qed.

Lemma suppresses_comm thr a b : suppresses thr a b = suppresses thr b a.
Proof. unfold suppresses. rewrite iou_comm, Z.eqb_sym. reflexivity. Qed.



(** ** What [nms] returns, under the contract of the sort *)

Section Sorted.

Variable std_sort : list Detection -> list Detection.
Hypothesis std_sort_sorts : sorts_by_confidence std_sort.

Variable detections : list Detection.
Variable iou_threshold : F32.float.
Variable kept : list Detection.
Hypothesis nms_kept : nms std_sort detections iou_threshold = Ok kept.

Lemma nms_sorted_perm : std_sort detections ≡ₚ detections.
Proof. apply nms_Ok in nms_kept as [Hd _]. apply std_sort_sorts, Hd. Qed.

Lemma nms_sorted_order : StronglySorted not_after (std_sort detections).
Proof. apply nms_Ok in nms_kept as [Hd _]. apply std_sort_sorts, Hd. Qed.

Lemma nms_sublist : kept `sublist_of` std_sort detections.
Proof. apply nms_Ok in nms_kept as [_ ->]. apply greedy_keep_sublist. Qed.

Lemma elem_of_nms d : d ∈ kept -> d ∈ detections.
Proof.
  intros H. rewrite <- nms_sorted_perm.
  eapply elem_of_sublist; [exact H | apply nms_sublist].
Qed.

Lemma nms_kept_order : StronglySorted not_after kept.
Proof. eapply StronglySorted_sublist_of; [apply nms_sublist | apply nms_sorted_order]. Qed.

Lemma nms_kept_spares : StronglySorted (spares iou_threshold) kept.
Proof. apply nms_Ok in nms_kept as [_ ->]. apply greedy_keep_spares. Qed.


End Sorted.

(** Without candidates there is nothing to sort or to keep. *)
Lemma nms_nil std_sort iou_threshold :
  sorts_by_confidence std_sort -> nms std_sort [] iou_threshold = Ok [].
Proof.
  intros Hsort. apply nms_Ok. split; [reflexivity|].
  destruct (Hsort [] eq_refl) as [Hp _]. apply Permutation_nil_r in Hp.
  rewrite Hp. reflexivity.
Qed.

(** ** The greedy selection, candidate by candidate *)




(** ** A second pass *)





(** ** Initialisation *)

Lemma cast_int_id z : - 2 ^ 31 <= z < 2 ^ 31 -> cast_int z = z.
Proof. intros H. unfold cast_int. rewrite Z.mod_small; lia. Qed.

Lemma init_inputs_model inputs flag d :
  (foldl init_input (flag, d) inputs).1 = flag || existsb signals_scale inputs
  /\ m_model_type (foldl init_input (flag, d) inputs).2 = m_model_type d
  /\ m_num_classes (foldl init_input (flag, d) inputs).2 = m_num_classes d.
Proof.
  revert flag d. induction inputs as [|inp inputs IH]; intros flag d; cbn [foldl existsb].
  - rewrite orb_false_r. auto.
  - unfold init_input at 2 4 6. fold (signals_scale inp).
    destruct (signals_scale inp) eqn:E.
    + destruct (IH true (push_input_name (tensor_name inp) d)) as (-> & -> & ->).
      rewrite orb_true_r. auto.
    + destruct (tensor_shape inp) as [|? [|? [|h [|w [|]]]]];
        match goal with |- context [foldl init_input (flag, ?d')] =>
          destruct (IH flag d') as (-> & -> & ->) end; auto.
Qed.

Lemma init_outputs_ppyoloe outputs d :
  m_model_type d = PPYOLOE ->
  m_model_type (foldl init_output d outputs) = PPYOLOE
  /\ m_num_classes (foldl init_output d outputs) = m_num_classes d.
Proof.
  revert d. induction outputs as [|o outputs IH]; intros d Hd; cbn [foldl]; [auto|].
  assert (init_output d o = push_output_name (tensor_name o) d) as ->.
  { unfold init_output. cbn [m_model_type push_output_name]. rewrite Hd. reflexivity. }
  apply (IH (push_output_name (tensor_name o) d)). exact Hd.
Qed.

Lemma classify_dims_table d1 d2 d :
  let f := Z.min d1 d2 in
  let variant := (m_model_type (classify_dims d1 d2 d), m_num_classes (classify_dims d1 d2 d)) in
  (d1 = 6 \/ d2 = 6 -> variant = (PPYOLOE, 80))
  /\ (d1 <> 6 -> d2 <> 6 -> d1 = 85 \/ d2 = 85 -> variant = (YOLOX, 80))
  /\ (d1 <> 6 -> d2 <> 6 -> d1 <> 85 -> d2 <> 85 -> d1 = 84 \/ d2 = 84 ->
        variant = (YOLOV8, 80))
  /\ (d1 <> 6 -> d2 <> 6 -> d1 <> 85 -> d2 <> 85 -> d1 <> 84 -> d2 <> 84 ->
        (5 < f -> variant = (YOLOX, cast_int (f - 5))
                   /\ (f < 2 ^ 31 -> m_num_classes (classify_dims d1 d2 d) = f - 5))
        /\ (0 < f <= 5 -> variant = (YOLOV8, f - 4))
        /\ (f <= 0 -> variant = (m_model_type d, m_num_classes d))).
Proof.
  intros f variant. subst f variant. unfold classify_dims.
  destruct (Z.eqb_spec d1 6), (Z.eqb_spec d2 6), (Z.eqb_spec d1 85), (Z.eqb_spec d2 85),
    (Z.eqb_spec d1 84), (Z.eqb_spec d2 84); cbn [orb m_model_type m_num_classes set_model];
    try (repeat split; intros; solve [reflexivity | lia | intuition lia]).
  destruct (Z.ltb_spec d1 d2).
  - rewrite (Z.min_l d1 d2) by lia.
    destruct (Z.ltb_spec 5 d1), (Z.ltb_spec 0 d1); cbn [m_model_type m_num_classes set_model];
      repeat split; intros; try lia; try reflexivity;
      try (rewrite cast_int_id by lia; reflexivity).
  - rewrite (Z.min_r d1 d2) by lia.
    destruct (Z.ltb_spec 5 d2), (Z.ltb_spec 0 d2); cbn [m_model_type m_num_classes set_model];
      repeat split; intros; try lia; try reflexivity;
      try (rewrite cast_int_id by lia; reflexivity).
Qed.

(** C4 (as the code has it).  [yolo_init] on a model: an input whose name
    contains "scale" makes the detector PP-YOLOE with 80 classes; otherwise,
    for a single output of shape [(b, d1, d2, ...)], the decision follows the
    table, where the generic rule takes [f = min d1 d2]: [f > 5] gives YOLOX
    with [f - 5] classes, [0 < f <= 5] gives YOLOv8 with [f - 4] classes,
    and [f <= 0] leaves the constructor's YOLOX with 80 classes. *)
Theorem init_decision_table (inputs : list TensorInfo) :
  (forall outputs d,
      existsb signals_scale inputs = true ->
      (yolo_init (Some (mkSession inputs outputs))).2 = Some d ->
      m_model_type d = PPYOLOE /\ m_num_classes d = 80)
  /\ (forall name b d1 d2 rest d,
        existsb signals_scale inputs = false ->
        (yolo_init (Some (mkSession inputs [mkTensorInfo name (b :: d1 :: d2 :: rest)]))).2
          = Some d ->
        let f := Z.min d1 d2 in
        let variant := (m_model_type d, m_num_classes d) in
        (d1 = 6 \/ d2 = 6 -> variant = (PPYOLOE, 80))
        /\ (d1 <> 6 -> d2 <> 6 -> d1 = 85 \/ d2 = 85 -> variant = (YOLOX, 80))
        /\ (d1 <> 6 -> d2 <> 6 -> d1 <> 85 -> d2 <> 85 -> d1 = 84 \/ d2 = 84 ->
              variant = (YOLOV8, 80))
        /\ (d1 <> 6 -> d2 <> 6 -> d1 <> 85 -> d2 <> 85 -> d1 <> 84 -> d2 <> 84 ->
              (5 < f -> variant = (YOLOX, cast_int (f - 5))
                         /\ (f < 2 ^ 31 -> m_num_classes d = f - 5))
              /\ (0 < f <= 5 -> variant = (YOLOV8, f - 4))
              /\ (f <= 0 -> variant = (YOLOX, 80))))
  /\ (forall name,
        existsb signals_scale inputs = false ->
        let variant_of shape :=
          option_map (fun d => (m_model_type d, m_num_classes d))
            (yolo_init (Some (mkSession inputs [mkTensorInfo name shape]))).2 in
        variant_of [1; 8400; 85] = Some (YOLOX, 80)
        /\ variant_of [1; 84; 8400] = Some (YOLOV8, 80)
        /\ variant_of [1; 300; 6] = Some (PPYOLOE, 80)).
Proof.
  assert (Hinit : forall outputs,
    (yolo_init (Some (mkSession inputs outputs))).2
    = Some (set_initialized
              (foldl init_output
                 (if existsb signals_scale inputs
                  then set_model PPYOLOE 80 (foldl init_input (false, new_YoloDetector) inputs).2
                  else (foldl init_input (false, new_YoloDetector) inputs).2)
                 outputs))).
  { intros outputs. unfold yolo_init, init. cbn [session_inputs session_outputs].
    pose proof (init_inputs_model inputs false new_YoloDetector) as (Hf & _ & _).
    destruct (foldl init_input (false, new_YoloDetector) inputs) as [flag d0].
    cbn [fst snd] in *. cbn [orb] in Hf. rewrite Hf. reflexivity. }
  pose proof (init_inputs_model inputs false new_YoloDetector) as (_ & Hty & Hnc).
  cbn [m_model_type m_num_classes new_YoloDetector] in Hty, Hnc.
  set (d0 := (foldl init_input (false, new_YoloDetector) inputs).2) in *.
  assert (Hone : forall name b d1 d2 rest,
    existsb signals_scale inputs = false ->
    (yolo_init (Some (mkSession inputs [mkTensorInfo name (b :: d1 :: d2 :: rest)]))).2
    = Some (set_initialized (classify_dims d1 d2 (push_output_name name d0)))).
  { intros name b d1 d2 rest Hs. rewrite Hinit, Hs. cbn [foldl]. unfold init_output.
    cbn [tensor_name tensor_shape m_model_type push_output_name lookup list_lookup length].
    rewrite Hty. reflexivity. }
  split; [|split].
  - intros outputs d Hs Hd. rewrite Hinit, Hs in Hd. injection Hd as <-.
    cbn [m_model_type m_num_classes set_initialized].
    apply (init_outputs_ppyoloe outputs (set_model PPYOLOE 80 d0)). reflexivity.
  - intros name b d1 d2 rest d Hs Hd f variant. rewrite (Hone _ _ _ _ _ Hs) in Hd.
    injection Hd as <-. subst variant f.
    cbn [m_model_type m_num_classes set_initialized].
    pose proof (classify_dims_table d1 d2 (push_output_name name d0)) as H.
    cbn [m_model_type m_num_classes push_output_name] in H. rewrite Hty, Hnc in H.
    exact H.
  - intros name Hs variant_of. subst variant_of. cbv beta.
    rewrite !(Hone _ _ _ _ _ Hs).
    cbn [option_map m_model_type m_num_classes set_initialized].
    unfold classify_dims. cbn. auto.
Qed.

(** C4 as stated fails: an output of shape [[1, -1, 7]] (a dynamic number of
    boxes) has [f = min (-1) 7 = -1], which is not above 5; the detector
    is not YOLOv8 with [f - 4] classes but keeps the constructor's YOLOX
    with 80. *)
Lemma init_nonpositive_feature_count :
  exists d,
    (yolo_init (Some dynamic_session)).2 = Some d
    /\ existsb signals_scale (session_inputs dynamic_session) = false
    /\ (5 <? Z.min (-1) 7) = false
    /\ m_model_type d = YOLOX
    /\ m_num_classes d = 80
    /\ ModelType_eqb (m_model_type d) YOLOV8 = false
    /\ (m_num_classes d =? Z.min (-1) 7 - 4) = false.
Proof. eexists. split; [reflexivity|]. vm_compute. repeat split; reflexivity. Qed.

(** ** Counted loops *)

Lemma bind_Ok {A B} (r : result A) (k : A -> result B) b :
  bind r k = Ok b <-> exists a, r = Ok a /\ k a = Ok b.
Proof.
  destruct r; cbn; split; try (intros (a' & [=] & _); fail); try discriminate.
  - eauto.
  - intros (a' & [= ->] & H). exact H.
Qed.

(** Every element a loop returns was pushed by one of its rounds, and
    every round completed, its element (if any) being in the result. *)
Lemma for_each_Ok {A} (body : Z -> result (option A)) start n l :
  for_each body start n = Ok l ->
  (forall x, x ∈ l -> exists i, start <= i < start + Z.of_nat n /\ body i = Ok (Some x))
  /\ (forall i, start <= i < start + Z.of_nat n ->
        exists r, body i = Ok r /\ forall x, r = Some x -> x ∈ l).
Proof.
  revert start l. induction n as [|n IH]; intros start l H.
  - cbn in H. injection H as <-. split; [intros x Hx; inversion Hx | lia].
  - cbn [for_each] in H.
    apply bind_Ok in H as (r & Hr & H). apply bind_Ok in H as (rest & Hrest & H).
    injection H as <-. destruct (IH _ _ Hrest) as [IH1 IH2]. split.
    + intros x Hx.
      assert (x ∈ rest \/ r = Some x) as [Hin| ->].
      { destruct r; [apply elem_of_cons in Hx as [->|]|]; auto. }
      * destruct (IH1 x Hin) as (i & Hi & Hb). exists i. split; [lia|exact Hb].
      * exists start. split; [lia|exact Hr].
    + intros i Hi. destruct (Z.eq_dec i start) as [->|Hne].
      * exists r. split; [exact Hr|]. intros x ->. left.
      * destruct (IH2 i ltac:(lia)) as (r' & Hr' & Hin). exists r'. split; [exact Hr'|].
        intros x Hx. specialize (Hin x Hx). destruct r; [right|]; exact Hin.
Qed.

(** ** What [emit] pushes *)

Section Decoders.

Variable std_sort : list Detection -> list Detection.
Hypothesis std_sort_sorts : sorts_by_confidence std_sort.
Variable expf : F32.float -> F32.float.

Lemma emit_Ok d W H bx1 by1 bx2 by2 conf id det :
  emit d W H bx1 by1 bx2 by2 conf id = Ok (Some det) ->
  class_id det = id /\ confidence det = conf
  /\ x1 det = clamp bx1 W /\ y1 det = clamp by1 H
  /\ x2 det = clamp bx2 W /\ y2 det = clamp by2 H
  /\ class_label d id = Ok (class_name det).
Proof.
  unfold emit. intros E. apply bind_Ok in E as (name & Hn & E).
  injection E as <-. cbn. repeat split; first [reflexivity | exact Hn].
Qed.






End Decoders.





(** ** The PP-YOLOE decoder *)

Lemma for_each_rounds {A} (body : Z -> result (option A)) start n l :
  for_each body start n = Ok l ->
  exists rs : list (option A),
    length rs = n /\ l = omap id rs
    /\ forall k r, rs !! k = Some r -> body (start + Z.of_nat k) = Ok r.
Proof.
  revert start l. induction n as [|n IH]; intros start l H.
  - injection H as <-. exists []. repeat split. intros k r Hk. discriminate.
  - cbn [for_each] in H.
    apply bind_Ok in H as (r & Hr & H). apply bind_Ok in H as (rest & Hrest & H).
    injection H as <-. destruct (IH _ _ Hrest) as (rs & Hlen & -> & Hrs).
    exists (r :: rs). split; [cbn; lia|]. split.
    + destruct r; reflexivity.
    + intros [|k] r' Hk.
      * injection Hk as <-. rewrite Z.add_0_r. exact Hr.
      * cbn in Hk. specialize (Hrs k r' Hk).
        replace (start + Z.of_nat (S k)) with (start + 1 + Z.of_nat k) by lia. exact Hrs.
Qed.

Lemma read_Ok output k v :
  read output k = Ok v <-> 0 <= k /\ output !! Z.to_nat k = Some v.
Proof.
  unfold read. destruct (Z.ltb_spec k 0).
  - split; [discriminate | lia].
  - destruct (output !! Z.to_nat k); cbn; split;
      try discriminate; try (intros [_ [=]]; congruence); try (intros [= ->]; auto).
Qed.

Lemma or_undefined_Ok {A} (o : option A) a : or_undefined o = Ok a <-> o = Some a.
Proof. destruct o; cbn; split; congruence. Qed.

Lemma ppyoloe_row_Ok d output W H thr i r :
  ppyoloe_row d output W H thr i = Ok r ->
  match r with
  | Some det =>
      decodes_row false 0 output W H i det
      /\ F32.ltb (confidence det) thr = false /\ 0 <= class_id det
  | None => skipped_row output thr i
  end.
Proof.
  unfold ppyoloe_row. intros E.
  apply bind_Ok in E as (v0 & H0 & E). apply bind_Ok in E as (id & Hid & E).
  apply bind_Ok in E as (v1 & H1 & E). apply bind_Ok in E as (v2 & H2 & E).
  apply bind_Ok in E as (v3 & H3 & E). apply bind_Ok in E as (v4 & H4 & E).
  apply bind_Ok in E as (v5 & H5 & E).
  apply read_Ok in H0 as [_ H0], H1 as [_ H1], H2 as [_ H2], H3 as [_ H3],
    H4 as [_ H4], H5 as [_ H5].
  apply or_undefined_Ok in Hid.
  destruct (F32.ltb v1 thr) eqn:Ec.
  { injection E as <-. exists v0, v1, id. unfold layout_elem. auto. }
  destruct (Z.ltb_spec id 0).
  { injection E as <-. exists v0, v1, id. unfold layout_elem. auto. }
  destruct r as [det|]; [|apply bind_Ok in E as (? & _ & [=])].
  apply emit_Ok in E as (Hc & Hconf & Hx1 & Hy1 & Hx2 & Hy2 & _).
  split; [|split; [congruence | lia]].
  exists v0, v1, v2, v3, v4, v5. unfold layout_elem. subst id.
  repeat split; assumption.
Qed.

(** C3 (as the code has it).  For an output shaped [[N, 6]], [[b, N, 6]]
    or [[b, 6, N]] the PP-YOLOE decoder goes through [N] rows and, whatever
    the shape, reads row [i] as the six consecutive elements
    [output[6 i] .. output[6 i + 5]]: the detections it returns are, in row
    order, those of the rows it does not skip, each with the truncated
    first element as class id, the second as confidence and the other four
    clamped to the image; a skipped row has a score below the threshold or
    a negative class id. *)
Theorem ppyoloe_reads_row_major
  (std_sort : list Detection -> list Detection) (expf : F32.float -> F32.float)
  (d : YoloDetector) (output : list F32.float)
  (output_shape : list Z) (output_count W H : Z) (tr : Transform)
  (conf_threshold iou_threshold : F32.float) (b N : Z) (dets : list Detection) :
  m_model_type d = PPYOLOE ->
  0 < N < 2 ^ 31 ->
  output_shape = [N; 6] \/ output_shape = [b; N; 6] \/ output_shape = [b; 6; N] ->
  postprocess std_sort expf d output output_shape output_count W H tr
              conf_threshold iou_threshold
    = Ok dets ->
  exists rows : list (option Detection),
    length rows = Z.to_nat N
    /\ dets = omap id rows
    /\ forall i r, rows !! i = Some r ->
         match r with
         | Some det =>
             decodes_row false N output W H (Z.of_nat i) det
             /\ F32.ltb (confidence det) conf_threshold = false
             /\ 0 <= class_id det
         | None => skipped_row output conf_threshold (Z.of_nat i)
         end.
Proof.
  intros Hty HN Hshape E. unfold postprocess in E.
  assert (Hn : exists dim1 dim2,
             output_dims output_shape output_count = Some (dim1, dim2)
             /\ ppyoloe_num_detections output_shape output_count dim1 dim2 = N).
  { destruct Hshape as [-> | [-> | ->]]; cbn [output_dims].
    - exists N, 6. split; [reflexivity|]. cbn. apply cast_int_id. lia.
    - exists N, 6. split; [reflexivity|]. unfold ppyoloe_num_detections. cbn [length].
      destruct (Z.eqb_spec N 6) as [->|Hne]; cbn [andb Z.eqb Z.ltb Z.compare]; [reflexivity|].
      replace (0 <? N) with true by lia. apply cast_int_id. lia.
    - exists 6, N. split; [reflexivity|]. unfold ppyoloe_num_detections. cbn [length].
      replace (0 <? N) with true by lia. cbn. apply cast_int_id. lia. }
  destruct Hn as (dim1 & dim2 & Hd & Hn). rewrite Hd, Hty in E.
  unfold postprocess_ppyoloe in E. rewrite Hn in E.
  replace (N <=? 0) with false in E by lia.
  apply for_each_rounds in E as (rows & Hlen & -> & Hrows).
  exists rows. split; [exact Hlen|]. split; [reflexivity|].
  intros i r Hi. specialize (Hrows i r Hi). cbn in Hrows.
  apply ppyoloe_row_Ok in Hrows. destruct r; exact Hrows.
Qed.

Lemma postprocess_transposed_pair std_sort expf :
  postprocess std_sort expf ppyoloe_2x2 transposed_pair [1; 6; 2] 12 100 100
              identity_transform quarter iou_045
  = Ok [misread_0; misread_1].
Proof. vm_compute. reflexivity. Qed.

Lemma ppyoloe_reads_row_major_witness :
  exists rows : list (option Detection),
    length rows = Z.to_nat 2
    /\ [misread_0; misread_1] = omap id rows
    /\ forall i r, rows !! i = Some r ->
         match r with
         | Some det =>
             decodes_row false 2 transposed_pair 100 100 (Z.of_nat i) det
             /\ F32.ltb (confidence det) quarter = false
             /\ 0 <= class_id det
         | None => skipped_row transposed_pair quarter (Z.of_nat i)
         end.
Proof.
  apply (ppyoloe_reads_row_major sample_sort sample_expf ppyoloe_2x2 transposed_pair [1; 6; 2] 12
           100 100 identity_transform quarter iou_045 1 2 [misread_0; misread_1]);
    [reflexivity | lia | right; right; reflexivity | vm_compute; reflexivity].
Defined.

(** C3 as stated fails: on a [[1, 6, 2]] tensor the flag [transposed] is
    set, and under that layout detection 0 has score 1, corner x1 = 10 and
    detection 1 has class 3; the decoder returns a first detection of score
    3 and x1 = 1 and a second of class 20, the elements at [6 i + k]. *)
Lemma ppyoloe_ignores_transposed_layout :
  exists det0 det1,
    (forall std_sort expf,
        postprocess std_sort expf ppyoloe_2x2 transposed_pair [1; 6; 2] 12 100 100
                    identity_transform quarter iou_045 = Ok [det0; det1])
    /\ ppyoloe_transposed [1; 6; 2] 6 2 = true
    /\ layout_elem true 2 transposed_pair 0 1 = Some (F32.of_int 1)
    /\ confidence det0 = F32.of_int 3
    /\ F32.ltb (F32.of_int 1) (confidence det0) = true
    /\ layout_elem true 2 transposed_pair 0 2 = Some (F32.of_int 10)
    /\ x1 det0 = F32.of_int 1
    /\ layout_elem true 2 transposed_pair 1 0 = Some (F32.of_int 3)
    /\ class_id det1 = 20.
Proof.
  exists misread_0, misread_1. split; [exact postprocess_transposed_pair|].
  vm_compute. repeat split; reflexivity.
Qed.

(** ** The raw-buffer calls *)

Lemma detectFromBuffer_initialized cv_resize std_sort expf session_run Buffer cv_bgra_to_bgr
  d (buf : Buffer) width height stride conf iou :
  m_initialized d = true ->
  is_error (detectFromBuffer cv_resize std_sort expf session_run Buffer cv_bgra_to_bgr
              d buf width height stride conf iou) = false.
Proof.
  intros Hi. unfold detectFromBuffer. rewrite Hi. cbn [negb].
  destruct (cv_bgra_to_bgr _ _ _ _) as [bgr| |]; cbn [bind]; try reflexivity.
  destruct (detect _ _ _ _ _ bgr _ _ _ _); reflexivity.
Qed.

Lemma detectFromYUV_initialized cv_resize std_sort expf session_run Buffer yuv_to_bgr
  d (y u v : Buffer) width height ys uvs ps rot conf iou :
  m_initialized d = true ->
  is_error (detectFromYUV cv_resize std_sort expf session_run Buffer yuv_to_bgr
              d y u v width height ys uvs ps rot conf iou) = false.
Proof.
  intros Hi. unfold detectFromYUV. rewrite Hi. cbn [negb].
  destruct (yuv_to_bgr _ _ _ _ _ _ _ _ _) as [bgr| |]; cbn [bind]; try reflexivity.
  destruct (detect _ _ _ _ _ bgr _ _ _ _); reflexivity.
Qed.

(** C2 (as the code has it).  [detectFromBuffer] and [detectFromYUV] test
    nothing but [m_initialized]: on an uninitialised detector they return
    the NOT_INITIALIZED error, and on an initialised one they return no
    error object whatever the width, height and strides are; a value they
    return is a detection result. *)
Theorem raw_buffer_calls_check_initialization_only
  (cv_resize : Mat -> Z -> Z -> result Mat)
  (std_sort : list Detection -> list Detection) (expf : F32.float -> F32.float)
  (session_run : list Tensor -> result Tensor) (Buffer : Type)
  (cv_bgra_to_bgr : Buffer -> Z -> Z -> Z -> result Mat)
  (yuv_to_bgr : Buffer -> Buffer -> Buffer -> Z -> Z -> Z -> Z -> Z -> Z -> result Mat)
  (d : YoloDetector) (image_data y_data u_data v_data : Buffer)
  (width height stride y_row_stride uv_row_stride uv_pixel_stride rotation : Z)
  (conf_threshold iou_threshold : F32.float) :
  let from_buffer :=
    detectFromBuffer cv_resize std_sort expf session_run Buffer cv_bgra_to_bgr d image_data
                     width height stride conf_threshold iou_threshold in
  let from_yuv :=
    detectFromYUV cv_resize std_sort expf session_run Buffer yuv_to_bgr d
                  y_data u_data v_data
                  width height y_row_stride uv_row_stride uv_pixel_stride rotation
                  conf_threshold iou_threshold in
  (m_initialized d = false ->
     from_buffer = Ok NOT_INITIALIZED /\ from_yuv = Ok NOT_INITIALIZED)
  /\ (m_initialized d = true ->
       is_error from_buffer = false /\ is_error from_yuv = false
       /\ (forall r, from_buffer = Ok r -> exists dets, r = ResultJson dets width height)
       /\ (forall r, from_yuv = Ok r -> exists dets w h, r = ResultJson dets w h)).
Proof.
  intros from_buffer from_yuv. subst from_buffer from_yuv.
  unfold detectFromBuffer, detectFromYUV. split; intros ->; cbn [negb]; [auto|].
  destruct (cv_bgra_to_bgr _ _ _ _) as [bgr| |]; cbn [bind];
    [destruct (detect _ _ _ _ _ bgr _ _ _ _) as [dets| |]; cbn [bind]|..];
    (destruct (yuv_to_bgr _ _ _ _ _ _ _ _ _) as [yuv| |]; cbn [bind];
     [destruct (detect _ _ _ _ _ yuv _ _ _ _) as [dets'| |]; cbn [bind]|..]);
    repeat split; try reflexivity; intros r [=]; subst; eauto.
Qed.

(** C2 as stated fails: with width 0, height -1 and strides of -1 an
    initialised detector returns no error object, whatever the image
    library and the session do. *)
Lemma malformed_sizes_give_no_error :
  exists width height stride,
    width <= 0 /\ height <= 0 /\ stride < width
    /\ m_initialized (sample_detector YOLOX 80 640 640) = true
    /\ forall cv_resize std_sort expf session_run Buffer cv_bgra_to_bgr yuv_to_bgr
              (buf : Buffer) conf_threshold iou_threshold,
         is_error (detectFromBuffer cv_resize std_sort expf session_run Buffer cv_bgra_to_bgr
                     (sample_detector YOLOX 80 640 640) buf width height stride
                     conf_threshold iou_threshold) = false
         /\ is_error (detectFromYUV cv_resize std_sort expf session_run Buffer yuv_to_bgr
                     (sample_detector YOLOX 80 640 640) buf buf buf width height
                     stride stride 2 0 conf_threshold iou_threshold) = false.
Proof.
  exists 0, (-1), (-1). repeat split; try lia.
  - apply detectFromBuffer_initialized. reflexivity.
  - apply detectFromYUV_initialized. reflexivity.
Qed.

(** ** The YOLOX grid *)

(** C7 at its failing input.  For the 64 x 32 model the grid list is built
    from the width alone and has 4*4 + 2*2 + 1*1 = 21 entries, against the
    42 boxes of the output shape; decoding box 21 reads [grids_x[21]]
    outside the list. *)
Theorem yolox_grid_shorter_than_num_boxes :
  m_model_type tall_detector = YOLOX
  /\ m_input_width tall_detector = 32 /\ m_input_height tall_detector = 64
  /\ m_num_classes tall_detector = 2
  /\ length (grid_cells (m_input_width tall_detector)) = 21%nat
  /\ (64 / 8) * (32 / 8) + (64 / 16) * (32 / 16) + (64 / 32) * (32 / 32) = 42
  /\ grids_x (m_input_width tall_detector) !! 21%nat = None
  /\ forall std_sort expf tr,
       postprocess std_sort expf tall_detector tall_output [1; 42; 7] 294 32 64 tr
                   quarter iou_045 = Undefined.
Proof.
  repeat split; vm_compute; reflexivity.
Qed.

Lemma grid_cells_640 : length (grid_cells 640) = Z.to_nat 8400.
Proof. vm_compute. reflexivity. Qed.

(** ** The resize stage of [preprocess] *)




(** ** Loops of writes into a vector *)

Section Writes.

Context {A I : Type} `{EqDecision I}.
Variable step : list A -> I -> list A.
Variable touches : I -> Prop.
Variable j : nat.
Variable v : A.
Variable i0 : I.
Hypothesis step_length : forall t i, length (step t i) = length t.
Hypothesis step_set : forall t, (j < length t)%nat -> step t i0 !! j = Some v.
Hypothesis step_keep : forall t i, touches i -> i <> i0 -> step t i !! j = t !! j.

Lemma foldl_writes_length l t : length (foldl step t l) = length t.
Proof.
  revert t. induction l as [|i l IH]; intros t; cbn; [reflexivity|].
  rewrite IH. apply step_length.
Qed.

(** Rounds other than [i0] leave element [j] as it is. *)
Lemma foldl_writes_untouched l t :
  Forall touches l -> i0 ∉ l -> foldl step t l !! j = t !! j.
Proof.
  revert t. induction l as [|i l IH]; intros t Hl Hnot; cbn; [reflexivity|].
  apply Forall_cons in Hl as [Hi Hl]. apply not_elem_of_cons in Hnot as [Hne Hnot].
  rewrite IH by assumption. apply step_keep; [exact Hi | congruence].
Qed.

Lemma foldl_writes_stable l t :
  Forall touches l -> (j < length t)%nat -> t !! j = Some v ->
  foldl step t l !! j = Some v.
Proof.
  revert t. induction l as [|i l IH]; intros t Hl Hj Ht; cbn; [exact Ht|].
  apply Forall_cons in Hl as [Hi Hl]. apply IH; [exact Hl | rewrite step_length; exact Hj |].
  destruct (decide (i = i0)) as [->|Hne]; [apply step_set; exact Hj|].
  rewrite step_keep by assumption. exact Ht.
Qed.

(** Once round [i0] has run, element [j] holds [v]. *)
Lemma foldl_writes_once l t :
  Forall touches l -> i0 ∈ l -> (j < length t)%nat ->
  foldl step t l !! j = Some v.
Proof.
  revert t. induction l as [|i l IH]; intros t Hl Hin Hj; [inversion Hin|]. cbn.
  apply Forall_cons in Hl as [Hi Hl].
  destruct (decide (i = i0)) as [->|Hne].
  - apply foldl_writes_stable; [exact Hl | rewrite step_length; exact Hj |].
    apply step_set. exact Hj.
  - apply elem_of_cons in Hin as [->|Hin]; [congruence|].
    apply IH; [exact Hl | exact Hin | rewrite step_length; exact Hj].
Qed.

End Writes.

Lemma foldl_keeps {A I} (step : list A -> I -> list A) (l : list I) (t : list A) (j : nat) :
  (forall t i, i ∈ l -> step t i !! j = t !! j) ->
  foldl step t l !! j = t !! j.
Proof.
  revert t. induction l as [|i l IH]; intros t Hk; cbn; [reflexivity|].
  rewrite IH; [apply Hk; left|]. intros t' i' Hi'. apply Hk. right. exact Hi'.
Qed.

(** ** The tensor in CHW layout *)

Lemma cell_index_bound W H y x :
  0 <= x < W -> 0 <= y < H -> 0 <= y * W + x < H * W.
Proof. intros Hx Hy. nia. Qed.

Lemma cell_index_inj W H c y x c' y' x' :
  0 <= x < W -> 0 <= x' < W -> 0 <= y < H -> 0 <= y' < H ->
  0 <= c < 3 -> 0 <= c' < 3 ->
  c * (H * W) + (y * W + x) = c' * (H * W) + (y' * W + x') ->
  c = c' /\ y = y' /\ x = x'.
Proof.
  intros Hx Hx' Hy Hy' Hc Hc' E.
  pose proof (cell_index_bound W H y x Hx Hy).
  pose proof (cell_index_bound W H y' x' Hx' Hy').
  assert (c = c') as -> by nia.
  assert (y = y') as -> by nia.
  repeat split; lia.
Qed.

Section Serialise.

Variable conv : Byte.byte -> F32.float.
Variable img : Mat.
Variables W H : Z.

Local Abbreviation cs := (H * W).

Lemma store_pixel_length y t x :
  length (store_pixel conv img W cs y t x) = length t.
Proof. unfold store_pixel. rewrite !length_insert. reflexivity. Qed.

Lemma store_row_length t y : length (store_row conv img W cs t y) = length t.
Proof. unfold store_row. apply foldl_writes_length. intros. apply store_pixel_length. Qed.

(** The write of pixel [(y, x)] at channel [c]. *)
Lemma store_pixel_set y x c t :
  0 <= x < W -> 0 <= y < H -> 0 <= c < 3 ->
  (Z.to_nat (c * cs + (y * W + x)) < length t)%nat ->
  store_pixel conv img W cs y t (Z.to_nat x) !! Z.to_nat (c * cs + (y * W + x))
  = Some (conv (channel c (at_ img y x))).
Proof.
  intros Hx Hy Hc Hj. unfold store_pixel. rewrite !Z2Nat.id by lia.
  pose proof (cell_index_bound W H y x Hx Hy).
  rewrite !list_lookup_insert, !length_insert.
  assert (c = 0 \/ c = 1 \/ c = 2) as [-> | [-> | ->]] by lia; cbn [channel Z.eqb];
    repeat case_decide; try reflexivity; lia.
Qed.

(** The write of another pixel leaves the element of [(c, y, x)] alone. *)
Lemma store_pixel_keep y x c y' x' t :
  0 <= x < W -> 0 <= y < H -> 0 <= c < 3 ->
  0 <= x' < W -> 0 <= y' < H -> (y', x') <> (y, x) ->
  store_pixel conv img W cs y' t (Z.to_nat x') !! Z.to_nat (c * cs + (y * W + x))
  = t !! Z.to_nat (c * cs + (y * W + x)).
Proof.
  intros Hx Hy Hc Hx' Hy' Hne. unfold store_pixel. rewrite !Z2Nat.id by lia.
  pose proof (cell_index_bound W H y x Hx Hy).
  pose proof (cell_index_bound W H y' x' Hx' Hy').
  assert (Hcs : 0 <= c * cs) by nia.
  rewrite !list_lookup_insert_ne; [reflexivity|..];
    intros E; apply Z2Nat.inj in E; try lia;
    apply (cell_index_inj W H _ y' x' c y x) in E; try lia;
    destruct E as (_ & -> & ->); congruence.
Qed.

Lemma to_chw_lookup x y c :
  0 <= x < W -> 0 <= y < H -> 0 <= c < 3 ->
  to_chw conv img W H !! Z.to_nat (c * cs + (y * W + x))
  = Some (conv (channel c (at_ img y x))).
Proof.
  intros Hx Hy Hc. unfold to_chw.
  pose proof (cell_index_bound W H y x Hx Hy) as Hb.
  apply (foldl_writes_once _ (fun y' => (y' < Z.to_nat H)%nat) _ _ (Z.to_nat y)).
  - intros. apply store_row_length.
  - (* row y *)
    intros t Ht. unfold store_row.
    apply (foldl_writes_once _ (fun x' => (x' < Z.to_nat W)%nat) _ _ (Z.to_nat x)).
    + intros. apply store_pixel_length.
    + intros t' Ht'. rewrite Z2Nat.id by lia. apply store_pixel_set; assumption.
    + intros t' x' Hx' Hne. rewrite Z2Nat.id by lia.
      rewrite <- (Nat2Z.id x'). apply store_pixel_keep; try lia.
      intros [= E]. lia.
    + apply Forall_forall. intros x' Hin. apply elem_of_seq in Hin. lia.
    + apply elem_of_seq. lia.
    + exact Ht.
  - (* the other rows *)
    intros t y' Hy' Hne. unfold store_row. apply foldl_keeps.
    intros t' x' Hin. apply elem_of_seq in Hin.
    rewrite <- (Nat2Z.id x'). apply store_pixel_keep; try lia.
    intros [= E _]. lia.
  - apply Forall_forall. intros y' Hin. apply elem_of_seq in Hin. lia.
  - apply elem_of_seq. lia.
  - rewrite length_replicate. apply Z2Nat.inj_lt; nia.
Qed.

Lemma to_chw_length : length (to_chw conv img W H) = Z.to_nat (3 * H * W).
Proof.
  unfold to_chw. rewrite foldl_writes_length; [apply length_replicate|].
  intros. apply store_row_length.
Qed.

End Serialise.

Lemma byte_to_float_range b :
  F32.leb F32.zero (byte_to_float b) = true
  /\ F32.leb (byte_to_float b) (F32.of_int 255) = true.
Proof. destruct b; vm_compute; auto. Qed.

Lemma normalized_range b :
  F32.leb F32.zero (normalized b) = true
  /\ F32.leb (normalized b) (F32.of_int 1) = true.
Proof. destruct b; vm_compute; auto. Qed.

(** The values written for the 256 bytes: the byte's own value for YOLOX,
    exactly (converting it back gives the byte), and that value divided
    by 255 otherwise. *)
Lemma byte_to_float_exact b :
  byte_to_float b = F32.of_int (Z.of_N (Byte.to_N b))
  /\ F32.to_int (byte_to_float b) = Some (Z.of_N (Byte.to_N b)).
Proof. destruct b; vm_compute; auto. Qed.

(** C9.  The tensor [preprocess] returns is the serialisation of the
    resized image; it has [3 * height * width] elements, and the value of
    pixel [(x, y)] for channel [c] stands at [c * height * width + y * width
    + x].  For YOLOX the three channels are the blue, green and red bytes
    converted to [float] as they are, whole numbers between 0 and 255; for
    YOLOv8 and PP-YOLOE they are the red, green and blue bytes, converted
    and divided by 255 in [float], each between 0 and 1, with 0 for the
    byte 0 and 1 for the byte 255. *)
Theorem serialize_channel_policy (d : YoloDetector) (resized_final : Mat) (x y : Z) :
  let W := m_input_width d in
  let H := m_input_height d in
  let tensor := serialize d resized_final in
  let p := at_ resized_final y x in
  let at_channel c := tensor !! Z.to_nat (c * (H * W) + (y * W + x)) in
  let value (b : Byte.byte) := F32.of_int (Z.of_N (Byte.to_N b)) in
  let scaled (b : Byte.byte) := F32.div (value b) (F32.of_int 255) in
  0 <= x < W -> 0 <= y < H ->
  length tensor = Z.to_nat (3 * H * W)
  /\ match m_model_type d with
     | YOLOX =>
         at_channel 0 = Some (value (blue p))
         /\ at_channel 1 = Some (value (green p))
         /\ at_channel 2 = Some (value (red p))
     | _ =>
         at_channel 0 = Some (scaled (red p))
         /\ at_channel 1 = Some (scaled (green p))
         /\ at_channel 2 = Some (scaled (blue p))
     end
  /\ (forall b, F32.to_int (value b) = Some (Z.of_N (Byte.to_N b))
                /\ F32.leb F32.zero (value b) = true
                /\ F32.leb (value b) (F32.of_int 255) = true)
  /\ (forall b, F32.leb F32.zero (scaled b) = true
                /\ F32.leb (scaled b) (F32.of_int 1) = true)
  /\ scaled Byte.x00 = F32.zero /\ scaled Byte.xff = F32.of_int 1
  /\ (forall cv_resize image width height tensor' tr,
        preprocess cv_resize d image width height = Ok (tensor', tr) ->
        exists resized, resize_stage cv_resize d image width height = Ok (resized, tr)
                        /\ tensor' = serialize d resized).
Proof.
  intros W H tensor p at_channel value scaled Hx Hy.
  subst W H tensor p at_channel value scaled.
  split; [unfold serialize; destruct (m_model_type d); apply to_chw_length|].
  split.
  { unfold serialize.
    destruct (m_model_type d); repeat split;
      (rewrite to_chw_lookup by lia); reflexivity. }
  split.
  { intros b. split; [apply byte_to_float_exact | apply byte_to_float_range]. }
  split; [exact normalized_range|].
  split; [reflexivity|]. split; [reflexivity|].
  intros cv_resize image width height tensor' tr E. unfold preprocess in E.
  apply bind_Ok in E as ([resized tr'] & Hr & E).
  destruct (_ <? 0); [discriminate|]. injection E as <- <-.
  exists resized. split; [exact Hr | reflexivity].
Qed.

(** The pixel (blue 16, green 128, red 240) of a YOLOv8 input: the tensor
    holds 240/255, 128/255 and 16/255 as binary32 values, red first. *)
Lemma serialize_channel_policy_witness :
  let tensor := serialize yolov8_2x2 (sample_image 2 2) in
  length tensor = Z.to_nat 12
  /\ tensor !! Z.to_nat (0 * (2 * 2) + (1 * 2 + 1))
     = Some (F32.div (F32.of_int 240) (F32.of_int 255))
  /\ tensor !! Z.to_nat (1 * (2 * 2) + (1 * 2 + 1))
     = Some (F32.div (F32.of_int 128) (F32.of_int 255))
  /\ tensor !! Z.to_nat (2 * (2 * 2) + (1 * 2 + 1))
     = Some (F32.div (F32.of_int 16) (F32.of_int 255))
  /\ F32.div (F32.of_int 240) (F32.of_int 255) = S754_finite false 15790321 (-24)
  /\ F32.div (F32.of_int 128) (F32.of_int 255) = S754_finite false 8421505 (-24)
  /\ F32.div (F32.of_int 16) (F32.of_int 255) = S754_finite false 8421505 (-27).
Proof.
  pose proof (serialize_channel_policy yolov8_2x2 (sample_image 2 2) 1 1) as H.
  cbv zeta in H.
  change (m_input_width yolov8_2x2) with 2 in H.
  change (m_input_height yolov8_2x2) with 2 in H.
  destruct H as (Hlen & Hch & _); [lia .. |].
  split; [exact Hlen|]. split; [apply Hch|]. split; [apply Hch|]. split; [apply Hch|].
  repeat split; vm_compute; reflexivity.
Defined.

(** ** The class scan *)

Lemma scan_classes_ext (f g : Z -> result F32.float) c0 n acc :
  (forall c, c0 <= c < c0 + Z.of_nat n -> f c = g c) ->
  scan_classes f c0 n acc = scan_classes g c0 n acc.
Proof.
  revert c0 acc. induction n as [|n IH]; intros c0 acc Hfg; [reflexivity|].
  cbn [scan_classes]. rewrite (Hfg c0) by lia.
  destruct (g c0) as [s| |]; cbn [bind]; try reflexivity.
  apply IH. intros c Hc. apply Hfg. lia.
Qed.

Lemma scan_classes_reads (f : Z -> result F32.float) c0 n acc best :
  scan_classes f c0 n acc = Ok best ->
  forall c, c0 <= c < c0 + Z.of_nat n -> exists s, f c = Ok s.
Proof.
  revert c0 acc. induction n as [|n IH]; intros c0 acc E c Hc; [lia|].
  cbn [scan_classes] in E. apply bind_Ok in E as (s & Hs & E).
  destruct (Z.eq_dec c c0) as [->|Hne]; [eauto|].
  apply (IH _ _ E). lia.
Qed.

Lemma yolox_row_same_reads expf d output output' features W H tr thr i :
  0 <= m_num_classes d ->
  same_reads output output' (i * features) (5 + m_num_classes d) ->
  yolox_row expf d output' features W H tr thr i
  = yolox_row expf d output features W H tr thr i.
Proof.
  intros Hn R. unfold same_reads in R. unfold yolox_row. cbv zeta.
  rewrite (R 4) by lia.
  destruct (read output (i * features + 4)) as [obj| |]; cbn [bind]; try reflexivity.
  destruct (F32.ltb obj thr); [reflexivity|].
  rewrite (scan_classes_ext (fun c => read output' (i * features + 5 + c))
                            (fun c => read output (i * features + 5 + c))).
  2: { intros c Hc. rewrite <- !Z.add_assoc. apply R. lia. }
  destruct (scan_classes _ 0 _ _) as [best| |]; cbn [bind]; try reflexivity.
  destruct (F32.ltb _ thr); [reflexivity|].
  destruct (or_undefined (grids_x _ !! _)); cbn [bind]; try reflexivity.
  destruct (or_undefined (grids_y _ !! _)); cbn [bind]; try reflexivity.
  destruct (or_undefined (strides_vec _ !! _)); cbn [bind]; try reflexivity.
  rewrite (R 0) by lia.
  destruct (read output (i * features + 0)); cbn [bind]; try reflexivity.
  rewrite (R 1) by lia.
  destruct (read output (i * features + 1)); cbn [bind]; try reflexivity.
  rewrite (R 2) by lia.
  destruct (read output (i * features + 2)); cbn [bind]; try reflexivity.
  rewrite (R 3) by lia.
  destruct (read output (i * features + 3)); cbn [bind]; reflexivity.
Qed.

Lemma yolox_row_reads_scores expf d output features W H tr thr i obj r :
  read output (i * features + 4) = Ok obj -> F32.ltb obj thr = false ->
  yolox_row expf d output features W H tr thr i = Ok r ->
  forall c, 0 <= c < m_num_classes d -> exists s, read output (i * features + 5 + c) = Ok s.
Proof.
  intros Hobj Hpass E c Hc. unfold yolox_row in E. cbv zeta in E.
  rewrite Hobj in E. cbn [bind] in E. rewrite Hpass in E.
  apply bind_Ok in E as (best & Hscan & _).
  apply (scan_classes_reads _ _ _ _ _ Hscan). lia.
Qed.

(** C10.  [setClassNames] with a list of [n] names replaces the table and
    sets the class count to [n], whatever the count was, and leaves every
    other field as it was; [yolo_set_classes] makes that call for a
    non-empty list of names and none for an empty one.  From then on the
    YOLOX decoding of a box that passes the objectness test depends on its
    five leading values and on exactly the [n] class scores after them:
    it reads each of them, and reads nothing else of the buffer. *)
Theorem setClassNames_sets_class_count (names : list string) (d : YoloDetector) :
  let d' := setClassNames names d in
  let n := Z.of_nat (length names) in
  (m_class_names d' = names
   /\ m_num_classes d' = cast_int n
   /\ (n < 2 ^ 31 -> m_num_classes d' = n))
  /\ (m_initialized d' = m_initialized d
      /\ m_input_width d' = m_input_width d
      /\ m_input_height d' = m_input_height d
      /\ m_model_type d' = m_model_type d
      /\ m_session_loaded d' = m_session_loaded d
      /\ m_input_names_str d' = m_input_names_str d
      /\ m_output_names_str d' = m_output_names_str d)
  /\ (forall k, setClassNames names (set_model (m_model_type d) k d) = d')
  /\ (forall json, scan_names json None = names ->
        yolo_set_classes json (Some d)
        = Some (match names with [] => d | _ => d' end))
  /\ (forall expf output output' features W H tr thr i,
        n < 2 ^ 31 ->
        same_reads output output' (i * features) (5 + n) ->
        yolox_row expf d' output' features W H tr thr i
        = yolox_row expf d' output features W H tr thr i)
  /\ (forall expf output features W H tr thr i obj r,
        n < 2 ^ 31 ->
        read output (i * features + 4) = Ok obj -> F32.ltb obj thr = false ->
        yolox_row expf d' output features W H tr thr i = Ok r ->
        forall c, 0 <= c < n -> exists s, read output (i * features + 5 + c) = Ok s).
Proof.
  intros d' n. subst d' n.
  assert (Hn : Z.of_nat (length names) < 2 ^ 31 ->
               m_num_classes (setClassNames names d) = Z.of_nat (length names)).
  { intros Hlt. cbn [m_num_classes setClassNames]. apply cast_int_id. lia. }
  split; [repeat split; [exact Hn]|]. split; [repeat split|].
  split; [reflexivity|]. split.
  { intros json <-. unfold yolo_set_classes. destruct (scan_names json None); reflexivity. }
  split.
  - intros expf output output' features W H tr thr i Hlt R.
    apply yolox_row_same_reads; rewrite (Hn Hlt); [lia | exact R].
  - intros expf output features W H tr thr i obj r Hlt Hobj Hpass E c Hc.
    eapply yolox_row_reads_scores; try eassumption. rewrite (Hn Hlt). exact Hc.
Qed.

(** ** Further properties of the suppressor *)

(** What the selection drops was suppressed by something it had kept or
    keeps. *)
Lemma greedy_keep_dropped thr kept l d :
  d ∈ l ->
  d ∈ greedy_keep thr kept l
  \/ exists k, k ∈ kept ++ greedy_keep thr kept l /\ suppresses thr k d = true.
Proof.
  revert kept. induction l as [|x l IH]; intros kept Hd; [inversion Hd|].
  cbn [greedy_keep]. apply elem_of_cons in Hd as [->|Hd].
  - destruct (existsb _ kept) eqn:E.
    + right. apply existsb_exists in E as (k & Hk & Hs).
      exists k. split; [|exact Hs]. apply elem_of_app. left.
      apply list_elem_of_In. exact Hk.
    + left. left.
  - destruct (existsb _ kept) eqn:E.
    + apply IH. exact Hd.
    + destruct (IH (kept ++ [x]) Hd) as [Hin | (k & Hk & Hs)].
      * left. right. exact Hin.
      * right. exists k. split; [|exact Hs].
        rewrite <- app_assoc in Hk. exact Hk.
Qed.

(** X1.  The suppressor completes on candidates whose confidences are
    numbers, and when it completes, its result is a sublist of the
    sorted candidates, whatever order [std::sort] gave to candidates of
    equal confidence: detections of its input, unchanged, never more than
    it was given.  A non-empty input gives a non-empty result, whose first
    element is the first of the sorted candidates: a detection that no
    candidate exceeds in confidence. *)
Theorem nms_keeps_sublist_and_best
  (std_sort : list Detection -> list Detection)
  (detections : list Detection) (iou_threshold : F32.float) :
  sorts_by_confidence std_sort ->
  (no_nan_confidence detections ->
   exists kept, nms std_sort detections iou_threshold = Ok kept)
  /\ forall kept, nms std_sort detections iou_threshold = Ok kept ->
  let sorted := std_sort detections in
  sorted ≡ₚ detections
  /\ kept `sublist_of` sorted
  /\ (forall d, d ∈ kept -> d ∈ detections)
  /\ (length kept <= length detections)%nat
  /\ head kept = head sorted
  /\ (kept = [] <-> detections = [])
  /\ (forall top d, head kept = Some top -> d ∈ detections ->
        F32.gtb (confidence d) (confidence top) = false
        /\ (no_nan_confidence detections ->
            F32.leb (confidence d) (confidence top) = true)).
Proof.
  intros Hsort. split; [apply nms_completes|]. intros kept Hk sorted.
  pose proof (nms_sorted_perm std_sort Hsort _ _ _ Hk) as Hperm.
  pose proof (nms_sorted_order std_sort Hsort _ _ _ Hk) as Hord.
  pose proof (nms_sublist std_sort _ _ _ Hk) as Hsub.
  fold sorted in Hperm, Hord, Hsub.
  assert (Hhead : head kept = head sorted).
  { apply nms_Ok in Hk as [_ ->]. fold sorted. destruct sorted; reflexivity. }
  split; [exact Hperm|]. split; [exact Hsub|].
  split; [intros d; apply (elem_of_nms std_sort Hsort _ _ _ Hk)|].
  split; [rewrite <- (Permutation_length Hperm); apply sublist_length, Hsub|].
  split; [exact Hhead|]. split.
  { split.
    - intros E. rewrite E in Hhead. apply Permutation_nil_r. rewrite <- Hperm.
      destruct sorted; [reflexivity | discriminate].
    - intros ->. apply Permutation_nil_r in Hperm.
      apply sublist_nil_r. rewrite <- Hperm. exact Hsub. }
  intros top d Htop Hd. rewrite Hhead in Htop. rewrite <- Hperm in Hd.
  assert (Hgt : F32.gtb (confidence d) (confidence top) = false).
  { destruct sorted as [|t l]; [discriminate|]. injection Htop as ->.
    apply StronglySorted_inv in Hord as [_ Hord].
    apply elem_of_cons in Hd as [->|Hd]; [apply by_confidence_irrefl|].
    rewrite Forall_forall in Hord. exact (Hord d Hd). }
  split; [exact Hgt|]. intros Hn.
  assert (Hall : no_nan_confidence sorted).
  { unfold no_nan_confidence. rewrite Hperm. exact Hn. }
  unfold no_nan_confidence in Hall. rewrite Forall_forall in Hall.
  pose proof (Hall d Hd) as Hnd.
  assert (Htin : top ∈ sorted).
  { destruct sorted as [|t l]; [discriminate|]. injection Htop as ->. left. }
  pose proof (Hall top Htin) as Hnt. cbv beta in Hnd, Hnt.
  unfold F32.gtb in Hgt. f32_order.
Qed.

Lemma nms_keeps_sublist_and_best_witness :
  let a := sample_box 0 5 0 10 in
  let b := sample_box 0 9 1 11 in
  let c := sample_box 1 9 0 10 in
  nms sample_sort_backwards [a; b; c] (F32.div (F32.of_int 45) (F32.of_int 100)) = Ok [c; b]
  /\ [c; b] `sublist_of` sample_sort_backwards [a; b; c]
  /\ forall d, d ∈ [a; b; c] -> F32.gtb (confidence d) (confidence c) = false.
Proof.
  intros a b c.
  assert (E : nms sample_sort_backwards [a; b; c] (F32.div (F32.of_int 45) (F32.of_int 100))
              = Ok [c; b]) by (vm_compute; reflexivity).
  split; [exact E|].
  destruct (proj2 (nms_keeps_sublist_and_best sample_sort_backwards [a; b; c] _
                     sample_sort_backwards_sorts) [c; b] E)
    as (_ & Hsub & _ & _ & _ & _ & Htop).
  split; [exact Hsub|]. intros d Hd. apply (Htop c d eq_refl Hd).
Defined.

(** X2.  A detection is dropped only for a returned detection: every
    candidate is either returned or has the class of a returned detection
    whose IoU with it exceeds the threshold.  So every class of the input
    is a class of the result. *)
Theorem nms_drops_only_suppressed
  (std_sort : list Detection -> list Detection)
  (detections : list Detection) (iou_threshold : F32.float) (kept : list Detection) :
  sorts_by_confidence std_sort ->
  nms std_sort detections iou_threshold = Ok kept ->
  (forall d, d ∈ detections ->
     d ∈ kept
     \/ exists k, k ∈ kept /\ class_id k = class_id d
                  /\ F32.gtb (iou k d) iou_threshold = true)
  /\ (forall d, d ∈ detections -> exists k, k ∈ kept /\ class_id k = class_id d).
Proof.
  intros Hsort Hk.
  assert (H : forall d, d ∈ detections ->
     d ∈ kept
     \/ exists k, k ∈ kept /\ class_id k = class_id d
                  /\ F32.gtb (iou k d) iou_threshold = true).
  { intros d Hd.
    rewrite <- (nms_sorted_perm std_sort Hsort _ _ _ Hk) in Hd.
    apply nms_Ok in Hk as [_ ->].
    destruct (greedy_keep_dropped iou_threshold [] _ d Hd) as [Hin | (k & Hk & Hs)];
      [left; exact Hin | right].
    exists k. unfold suppresses in Hs. apply andb_true_iff in Hs as [Hc Hi].
    split; [exact Hk|]. split; [lia | exact Hi]. }
  split; [exact H|].
  intros d Hd. destruct (H d Hd) as [Hin | (k & Hk' & Hc & _)]; eauto.
Qed.

Lemma nms_drops_only_suppressed_witness :
  let a := sample_box 0 5 0 10 in
  let b := sample_box 0 9 1 11 in
  let c := sample_box 1 7 0 10 in
  let thr := F32.div (F32.of_int 45) (F32.of_int 100) in
  nms sample_sort [a; b; c] thr = Ok [b; c]
  /\ exists k, k ∈ [b; c] /\ class_id k = class_id a /\ F32.gtb (iou k a) thr = true.
Proof.
  intros a b c thr.
  assert (E : nms sample_sort [a; b; c] thr = Ok [b; c]) by (vm_compute; reflexivity).
  split; [exact E|].
  destruct (nms_drops_only_suppressed sample_sort [a; b; c] thr [b; c] sample_sort_sorts E)
    as [H _].
  destruct (H a ltac:(left)) as [Hin | Hk]; [|exact Hk].
  exfalso. apply elem_of_cons in Hin as [Hin|Hin]; [vm_compute in Hin; discriminate|].
  apply list_elem_of_singleton in Hin. vm_compute in Hin. discriminate.
Defined.

Lemma StronglySorted_total {A} (R : A -> A -> Prop) (l : list A) :
  (forall a b, R a b) -> StronglySorted R l.
Proof.
  intros H. induction l; constructor; [assumption|].
  apply Forall_forall. auto.
Qed.

Lemma NoDup_classes_spares thr l :
  NoDup (class_id <$> l) -> StronglySorted (spares thr) l.
Proof.
  induction l as [|x l IH]; intros Hnd; [constructor|].
  rewrite fmap_cons in Hnd. apply NoDup_cons in Hnd as [Hx Hnd].
  constructor; [auto|]. apply Forall_forall. intros b Hb.
  unfold spares, suppresses.
  destruct (Z.eqb_spec (class_id x) (class_id b)) as [Hc|]; [|reflexivity].
  exfalso. apply Hx. rewrite Hc. apply list_elem_of_fmap. exists b. auto.
Qed.

(** X3.  Where nothing is suppressed ([nms] completing on confidences
    that are numbers): candidates of pairwise different
    classes are all returned, whatever their overlap and the threshold, and
    so is every candidate list under a threshold that is NaN; the result
    is then the candidates as [std::sort] left them. *)
Theorem nms_returns_all_candidates
  (std_sort : list Detection -> list Detection)
  (detections : list Detection) (iou_threshold : F32.float) :
  sorts_by_confidence std_sort ->
  NoDup (class_id <$> detections) \/ F32.is_nan iou_threshold = true ->
  (no_nan_confidence detections ->
   exists kept, nms std_sort detections iou_threshold = Ok kept)
  /\ forall kept, nms std_sort detections iou_threshold = Ok kept ->
  kept = std_sort detections
  /\ kept ≡ₚ detections
  /\ length kept = length detections
  /\ (forall i j a b, (i < j)%nat -> kept !! i = Some a -> kept !! j = Some b ->
        F32.ltb (confidence a) (confidence b) = false).
Proof.
  intros Hsort H. split; [apply nms_completes|]. intros kept Hk.
  pose proof (nms_sorted_perm std_sort Hsort _ _ _ Hk) as Hperm.
  pose proof (nms_sorted_order std_sort Hsort _ _ _ Hk) as Hord.
  assert (E : kept = std_sort detections).
  { apply nms_Ok in Hk as [_ ->]. apply greedy_keep_fixed.
    - apply Forall_forall. intros; constructor.
    - destruct H as [Hnd | Hnan].
      + apply NoDup_classes_spares. rewrite Hperm. exact Hnd.
      + apply StronglySorted_total. intros a b. unfold spares, suppresses.
        destruct iou_threshold; try discriminate.
        rewrite andb_false_iff. right. unfold F32.gtb, F32.ltb, SFltb. reflexivity. }
  rewrite E. split; [reflexivity|]. split; [exact Hperm|].
  split; [apply Permutation_length, Hperm|].
  intros i j a b Hij Ha Hb. exact (StronglySorted_lookup _ _ _ _ _ _ Hord Hij Ha Hb).
Qed.

Lemma nms_returns_all_candidates_witness :
  let l := [sample_box 0 5 0 10; sample_box 1 9 0 10; sample_box 2 9 0 10] in
  let thr := F32.div (F32.of_int 45) (F32.of_int 100) in
  let kept := [sample_box 2 9 0 10; sample_box 1 9 0 10; sample_box 0 5 0 10] in
  nms sample_sort_backwards l thr = Ok kept
  /\ kept = sample_sort_backwards l
  /\ kept ≡ₚ l.
Proof.
  intros l thr kept.
  assert (E : nms sample_sort_backwards l thr = Ok kept) by (vm_compute; reflexivity).
  split; [exact E|].
  assert (Hnd : NoDup (class_id <$> l) \/ F32.is_nan thr = true).
  { left. cbn. repeat (apply NoDup_cons; split);
      [intros H; repeat (apply elem_of_cons in H as [H|H]; [discriminate|]); inversion H ..
      | apply NoDup_nil; exact I]. }
  destruct (proj2 (nms_returns_all_candidates sample_sort_backwards l thr
                     sample_sort_backwards_sorts Hnd) kept E) as (Hk & Hp & _).
  split; [exact Hk | exact Hp].
Defined.

Lemma spares_negative_threshold thr a b :
  F32.ltb thr F32.zero = true -> spares thr a b -> class_id a <> class_id b.
Proof.
  intros Ht Hs Hc. unfold spares, suppresses in Hs.
  rewrite Hc, Z.eqb_refl in Hs. cbn [andb] in Hs.
  pose proof (iou_nonneg a b) as H0. pose proof (iou_not_nan a b) as Hn.
  unfold F32.gtb in Hs. f32_keys. lt3_lia.
Qed.

Lemma StronglySorted_NoDup_fmap {A B} (R : A -> A -> Prop) (f : A -> B) (l : list A) :
  (forall a b, R a b -> f a <> f b) -> StronglySorted R l -> NoDup (f <$> l).
Proof.
  intros HR Hs. induction Hs as [|x l Hs IH Hx]; [constructor|].
  rewrite fmap_cons. apply NoDup_cons. split; [|exact IH].
  intros Hin. apply list_elem_of_fmap in Hin as (b & Hfb & Hb).
  rewrite Forall_forall in Hx. exact (HR x b (Hx b Hb) Hfb).
Qed.

(** X4.  Under a negative threshold every overlap counts, a disjoint pair
    included: the result holds exactly one detection of each class of the
    input. *)
Theorem nms_negative_threshold_one_per_class
  (std_sort : list Detection -> list Detection)
  (detections : list Detection) (iou_threshold : F32.float) (kept : list Detection) :
  sorts_by_confidence std_sort ->
  F32.ltb iou_threshold F32.zero = true ->
  nms std_sort detections iou_threshold = Ok kept ->
  NoDup (class_id <$> kept)
  /\ (forall d, d ∈ detections -> exists k, k ∈ kept /\ class_id k = class_id d)
  /\ (forall k, k ∈ kept -> k ∈ detections).
Proof.
  intros Hsort Ht Hk. split; [|split].
  - apply (StronglySorted_NoDup_fmap (spares iou_threshold)).
    + intros a b. apply spares_negative_threshold. exact Ht.
    + apply (nms_kept_spares std_sort _ _ _ Hk).
  - intros d Hd.
    rewrite <- (nms_sorted_perm std_sort Hsort _ _ _ Hk) in Hd.
    apply nms_Ok in Hk as [_ ->].
    destruct (greedy_keep_dropped iou_threshold [] _ d Hd) as [Hin | (k & Hk & Hs)];
      [eauto|].
    exists k. unfold suppresses in Hs. apply andb_true_iff in Hs as [Hc _].
    split; [exact Hk | lia].
  - intros k. apply (elem_of_nms std_sort Hsort _ _ _ Hk).
Qed.

Lemma nms_negative_threshold_one_per_class_witness :
  let l := [sample_box 0 5 0 10; sample_box 1 7 0 10; sample_box 0 9 20 30] in
  let kept := [sample_box 0 9 20 30; sample_box 1 7 0 10] in
  nms sample_sort l (F32.of_int (-1)) = Ok kept
  /\ NoDup (class_id <$> kept).
Proof.
  intros l kept.
  assert (E : nms sample_sort l (F32.of_int (-1)) = Ok kept) by (vm_compute; reflexivity).
  split; [exact E|].
  refine (proj1 (nms_negative_threshold_one_per_class sample_sort l (F32.of_int (-1)) kept
                   sample_sort_sorts _ E)).
  vm_compute. reflexivity.
Defined.

(** ** Where the sort is defined *)

Lemma forallb_false {A} (f : A -> bool) (l : list A) :
  forallb f l = false -> exists x, x ∈ l /\ f x = false.
Proof.
  induction l as [|x l IH]; cbn; [discriminate|].
  destruct (f x) eqn:E; cbn.
  - intros H. destruct (IH H) as (y & Hy & Hf). exists y. split; [right; exact Hy | exact Hf].
  - intros _. exists x. split; [left | exact E].
Qed.

(** X26.  [nms] raises no exception, and it is undefined exactly when the
    comparator of its sort is no strict weak ordering of the candidates:
    when one of them has a NaN confidence and two of them have different
    confidences.  On confidences that are numbers it always completes. *)
Theorem nms_undefined_on_unordered_confidences
  (std_sort : list Detection -> list Detection)
  (detections : list Detection) (iou_threshold : F32.float) :
  nms std_sort detections iou_threshold <> Throws
  /\ (nms std_sort detections iou_threshold = Undefined <->
      exists a b c, a ∈ detections /\ b ∈ detections /\ c ∈ detections
        /\ F32.is_nan (confidence a) = true
        /\ F32.ltb (confidence b) (confidence c) = true)
  /\ (no_nan_confidence detections ->
      exists kept, nms std_sort detections iou_threshold = Ok kept).
Proof.
  split; [apply nms_no_exception|]. split.
  - unfold nms. destruct (strict_weak_ordering detections) eqn:E.
    + split; [discriminate|]. intros (a & b & c & Ha & Hb & Hc & Hnan & Hlt). exfalso.
      apply strict_weak_ordering_spec in E.
      assert (Hnan' : forall x, tied x a = true /\ tied a x = true).
      { intros x. rewrite !tied_spec. unfold by_confidence, F32.gtb.
        destruct (confidence a); try discriminate.
        repeat split; first [reflexivity | destruct (confidence x) as [[]|[]| |[] ? ?]; reflexivity]. }
      pose proof (proj1 (Hnan' b)) as Hba. pose proof (proj2 (Hnan' c)) as Hac.
      pose proof (E b a c Hb Ha Hc Hba Hac) as Hbc.
      apply tied_spec in Hbc as [_ Hbc]. unfold by_confidence, F32.gtb in Hbc. congruence.
    + split; [intros _|reflexivity].
      unfold strict_weak_ordering in E.
      apply forallb_false in E as (x & Hx & E).
      apply forallb_false in E as (y & Hy & E).
      apply forallb_false in E as (z & Hz & E).
      destruct (tied x y) eqn:Hxy; [|discriminate].
      destruct (tied y z) eqn:Hyz; [|discriminate].
      cbn in E. apply tied_spec in Hxy as [H1 H2], Hyz as [H3 H4].
      unfold tied in E. apply andb_false_iff in E.
      rewrite !negb_false_iff in E. unfold by_confidence, F32.gtb in *.
      destruct (F32.is_nan (confidence y)) eqn:Hn.
      * destruct E as [E|E]; [exists y, z, x | exists y, x, z]; auto 10.
      * exfalso. destruct E as [E|E]; f32_keys; lt3_lia.
  - apply nms_completes.
Qed.

(** ** Further properties of [iou] *)

Section IouZero.

Import F32.

Lemma std_max_zero_of_not_pos v : ltb zero v = false -> std_max zero v = zero.
Proof. unfold std_max. intros ->. reflexivity. Qed.

Lemma mul_zero_l y : has_sign false y -> mul zero y = zero \/ mul zero y = S754_nan.
Proof. destruct y as [[]|[]| |[] ? ?]; cbn; intros H; try discriminate; try contradiction; auto. Qed.

Lemma mul_zero_r x : has_sign false x -> mul x zero = zero \/ mul x zero = S754_nan.
Proof. destruct x as [[]|[]| |[] ? ?]; cbn; intros H; try discriminate; try contradiction; auto. Qed.

Lemma div_zero_pos y : ltb zero y = true -> div zero y = zero.
Proof. destruct y as [[]|[]| |[] ? ?]; cbn; intros H; try discriminate; reflexivity. Qed.

Lemma iou_inter_zero a b :
  inter_area a b = zero \/ inter_area a b = S754_nan -> iou a b = zero.
Proof.
  unfold iou, union_area. intros [-> | ->].
  - unfold gtb. destruct (ltb zero _) eqn:E; [|reflexivity]. apply div_zero_pos. exact E.
  - rewrite sub_nan_r. reflexivity.
Qed.

End IouZero.

(** X5.  [iou] is symmetric in its two boxes, is never NaN and never
    negative, whatever the coordinates; and it is 0 as soon as the extent
    of the intersection along one axis is not positive, so that under a
    threshold that is not negative such a pair never suppresses one
    another. *)
Theorem iou_symmetric_and_zero_when_apart (a b : Detection) :
  iou a b = iou b a
  /\ F32.is_nan (iou a b) = false
  /\ F32.leb F32.zero (iou a b) = true
  /\ (F32.ltb F32.zero (overlap_x a b) = false \/ F32.ltb F32.zero (overlap_y a b) = false ->
      iou a b = F32.zero
      /\ forall iou_threshold, F32.leb F32.zero iou_threshold = true ->
           suppresses iou_threshold a b = false
           /\ suppresses iou_threshold b a = false).
Proof.
  split; [apply iou_comm|]. split; [apply iou_not_nan|]. split; [apply iou_nonneg|].
  intros H.
  assert (E : iou a b = F32.zero).
  { apply iou_inter_zero. unfold inter_area.
    fold (overlap_x a b). fold (overlap_y a b).
    destruct H as [H|H]; rewrite (std_max_zero_of_not_pos _ H).
    - apply mul_zero_l, std_max_zero_sign.
    - apply mul_zero_r, std_max_zero_sign. }
  split; [exact E|]. intros thr Ht.
  assert (S : suppresses thr a b = false).
  { unfold suppresses. rewrite E. apply andb_false_iff. right.
    unfold F32.gtb. f32_order. }
  split; [exact S|]. rewrite suppresses_comm. exact S.
Qed.

Lemma iou_symmetric_and_zero_when_apart_witness :
  iou (sample_box 0 5 0 10) (sample_box 0 9 10 30) = F32.zero
  /\ suppresses iou_045 (sample_box 0 5 0 10) (sample_box 0 9 10 30) = false.
Proof.
  destruct (iou_symmetric_and_zero_when_apart (sample_box 0 5 0 10) (sample_box 0 9 10 30))
    as (_ & _ & _ & H).
  destruct H as [E S]; [left; vm_compute; reflexivity|].
  split; [exact E|]. apply (S iou_045). vm_compute. reflexivity.
Defined.

(** ** The best class of a box *)

(** The scan from a running best [(m0, k0)] that is a number: the result
    is a number; either nothing exceeded [m0], or the result is a score
    read at [k], above [m0], exceeded by none, and no score before [k] is
    as large. *)
Lemma scan_classes_best (f : Z -> result F32.float) c0 n m0 k0 m k :
  F32.is_nan m0 = false ->
  scan_classes f c0 n (m0, k0) = Ok (m, k) ->
  F32.is_nan m = false
  /\ ((m = m0 /\ k = k0
       /\ forall c, c0 <= c < c0 + Z.of_nat n -> exists s, f c = Ok s /\ F32.gtb s m0 = false)
      \/ (c0 <= k < c0 + Z.of_nat n /\ f k = Ok m /\ F32.gtb m m0 = true
          /\ (forall c, c0 <= c < c0 + Z.of_nat n ->
                exists s, f c = Ok s /\ F32.gtb s m = false)
          /\ (forall c, c0 <= c < k -> exists s, f c = Ok s /\ F32.leb m s = false))).
Proof.
  revert c0 m0 k0. induction n as [|n IH]; intros c0 m0 k0 Hm0 E.
  - injection E as <- <-. split; [exact Hm0|]. left. repeat split. lia.
  - cbn [scan_classes] in E. apply bind_Ok in E as (s & Hs & E).
    unfold scan_step in E. cbn [fst] in E.
    destruct (F32.gtb s m0) eqn:Hgt.
    + assert (Hsn : F32.is_nan s = false) by (unfold F32.gtb in Hgt; f32_keys).
      destruct (IH _ _ _ Hsn E) as (Hmn & [(-> & -> & Hall) | (Hk & Hfk & Hgt' & Hall & Hbefore)]).
      * split; [exact Hsn|]. right. split; [lia|]. split; [exact Hs|]. split; [exact Hgt|].
        split; [|intros; lia].
        intros c Hc. destruct (Z.eq_dec c c0) as [->|Hne].
        -- exists s. split; [exact Hs|]. unfold F32.gtb. f32_order.
        -- apply Hall. lia.
      * split; [exact Hmn|]. right. split; [lia|]. split; [exact Hfk|].
        split; [unfold F32.gtb in *; f32_order|].
        split.
        -- intros c Hc. destruct (Z.eq_dec c c0) as [->|Hne].
           ++ exists s. split; [exact Hs|]. unfold F32.gtb in *. f32_order.
           ++ apply Hall. lia.
        -- intros c Hc. destruct (Z.eq_dec c c0) as [->|Hne].
           ++ exists s. split; [exact Hs|]. unfold F32.gtb in *. f32_order.
           ++ apply Hbefore. lia.
    + destruct (IH _ _ _ Hm0 E) as (Hmn & [(-> & -> & Hall) | (Hk & Hfk & Hgt' & Hall & Hbefore)]).
      * split; [exact Hm0|]. left. repeat split.
        intros c Hc. destruct (Z.eq_dec c c0) as [->|Hne]; [eauto|]. apply Hall. lia.
      * split; [exact Hmn|]. right. split; [lia|]. split; [exact Hfk|].
        split; [exact Hgt'|]. split.
        -- intros c Hc. destruct (Z.eq_dec c c0) as [->|Hne].
           ++ exists s. split; [exact Hs|].
              destruct (F32.is_nan s) eqn:Hsn;
                [destruct s; try discriminate; destruct m; reflexivity|].
              unfold F32.gtb in *. f32_order.
           ++ apply Hall. lia.
        -- intros c Hc. destruct (Z.eq_dec c c0) as [->|Hne].
           ++ exists s. split; [exact Hs|].
              destruct (F32.is_nan s) eqn:Hsn;
                [destruct s; try discriminate; destruct m as [[]|[]| |[] ? ?]; reflexivity|].
              unfold F32.gtb in *. f32_order.
           ++ apply Hbefore. lia.
Qed.

(** X6.  The class scan of a box, started at score 0.0 and class 0,
    returns the first class that has the greatest score, provided that
    score is positive, and otherwise class 0 with the score 0.0: the
    result is a number that is not negative, no score read exceeds it, a
    NaN score is never the result, and every score before the returned
    class is smaller or NaN. *)
Theorem scan_classes_first_maximum
  (score_at : Z -> result F32.float) (n : nat) (best : F32.float * Z) :
  scan_classes score_at 0 n (F32.zero, 0) = Ok best ->
  F32.is_nan best.1 = false
  /\ F32.leb F32.zero best.1 = true
  /\ 0 <= best.2 < Z.max 1 (Z.of_nat n)
  /\ (forall c, 0 <= c < Z.of_nat n ->
        exists s, score_at c = Ok s /\ F32.gtb s best.1 = false)
  /\ (best = (F32.zero, 0)
      \/ (score_at best.2 = Ok best.1
          /\ F32.gtb best.1 F32.zero = true
          /\ best.2 < Z.of_nat n
          /\ forall c, 0 <= c < best.2 ->
               exists s, score_at c = Ok s /\ F32.leb best.1 s = false)).
Proof.
  destruct best as [m k]. intros E. cbn [fst snd].
  destruct (scan_classes_best score_at 0 n F32.zero 0 m k eq_refl E)
    as (Hmn & [(-> & -> & Hall) | (Hk & Hfk & Hgt & Hall & Hbefore)]).
  - split; [reflexivity|]. split; [reflexivity|]. split; [lia|].
    split; [exact Hall|]. left. reflexivity.
  - split; [exact Hmn|]. split; [unfold F32.gtb in Hgt; f32_order|].
    split; [lia|]. split; [exact Hall|]. right.
    split; [exact Hfk|]. split; [exact Hgt|]. split; [lia|]. exact Hbefore.
Qed.

Lemma scan_classes_first_maximum_witness :
  let scores := [F32.of_int 1; F32.of_int 3; S754_nan; F32.of_int 3; F32.of_int 2] in
  scan_classes (read scores) 0 5 (F32.zero, 0) = Ok (F32.of_int 3, 1)
  /\ F32.is_nan (F32.of_int 3) = false
  /\ forall c, 0 <= c < 5 -> exists s, read scores c = Ok s /\ F32.gtb s (F32.of_int 3) = false.
Proof.
  intros scores.
  assert (E : scan_classes (read scores) 0 5 (F32.zero, 0) = Ok (F32.of_int 3, 1))
    by (vm_compute; reflexivity).
  split; [exact E|].
  destruct (scan_classes_first_maximum (read scores) 5 (F32.of_int 3, 1) E)
    as (Hn & _ & _ & Hall & _).
  split; [exact Hn | exact Hall].
Defined.

(** ** What the decoders return *)

Lemma class_label_Ok d id name :
  Z.of_nat (length (m_class_names d)) < 2 ^ 31 ->
  0 <= id ->
  class_label d id = Ok name -> name = label_of (m_class_names d) id.
Proof.
  intros Hlen Hid. unfold class_label, label_of.
  rewrite cast_int_id by lia.
  destruct (Z.ltb_spec id (Z.of_nat (length (m_class_names d)))) as [Hlt|Hge].
  - destruct (Z.ltb_spec id 0); [lia|].
    destruct (m_class_names d !! Z.to_nat id); cbn; congruence.
  - rewrite lookup_ge_None_2 by lia. congruence.
Qed.

Section Rows.

Variable std_sort : list Detection -> list Detection.
Hypothesis std_sort_sorts : sorts_by_confidence std_sort.
Variable expf : F32.float -> F32.float.

Lemma yolov8_row_Ok d output tp nb features W H tr thr i det :
  yolov8_row d output tp nb features W H tr thr i = Ok (Some det) ->
  F32.is_nan (confidence det) = false
  /\ F32.leb F32.zero (confidence det) = true
  /\ 0 <= class_id det < Z.max 1 (features - 4)
  /\ class_label d (class_id det) = Ok (class_name det).
Proof.
  unfold yolov8_row. intros E.
  do 4 (apply bind_Ok in E as (? & _ & E)).
  apply bind_Ok in E as (best & Hscan & E).
  destruct (F32.ltb _ thr); [discriminate|].
  apply emit_Ok in E as (-> & -> & _ & _ & _ & _ & Hl).
  destruct best as [m k].
  destruct (scan_classes_best _ _ _ _ _ _ _ (eq_refl : F32.is_nan F32.zero = false) Hscan)
    as (Hmn & [(-> & -> & _) | (Hk & _ & Hgt & _)]); cbn [fst snd] in *.
  - repeat split; first [reflexivity | lia | exact Hl].
  - repeat split; first [exact Hmn | lia | exact Hl | idtac].
    unfold F32.gtb in Hgt. f32_order.
Qed.

Lemma mul_finite x y :
  is_finite x = true -> is_finite y = true -> F32.is_nan (F32.mul x y) = false.
Proof.
  destruct x as [sx|sx| |sx mx ex], y as [sy|sy| |sy my ey]; cbn; intros Hx Hy;
    try discriminate; try reflexivity.
  pose proof (binary_round_aux_sign (xorb sx sy) (Z.pos (mx * my)) (ex + ey) loc_Exact
                ltac:(lia)) as Hs.
  unfold F32.mul, SFmul.
  destruct (binary_round_aux _ _ _ _ _ _); cbn in *; try reflexivity; contradiction.
Qed.

Lemma read_finite output k v :
  Forall (fun v => is_finite v = true) output -> read output k = Ok v -> is_finite v = true.
Proof.
  intros Hf E. apply read_Ok in E as [_ E].
  rewrite Forall_forall in Hf. apply Hf. eapply list_elem_of_lookup_2. exact E.
Qed.

Lemma yolox_row_Ok d output features W H tr thr i det :
  yolox_row expf d output features W H tr thr i = Ok (Some det) ->
  0 <= class_id det < Z.max 1 (m_num_classes d)
  /\ class_label d (class_id det) = Ok (class_name det)
  /\ (Forall (fun v => is_finite v = true) output -> F32.is_nan (confidence det) = false).
Proof.
  unfold yolox_row. intros E. cbv zeta in E.
  apply bind_Ok in E as (obj & Hobj & E).
  destruct (F32.ltb obj thr); [discriminate|].
  apply bind_Ok in E as (best & Hscan & E).
  destruct (F32.ltb _ thr); [discriminate|].
  do 7 (apply bind_Ok in E as (? & _ & E)).
  apply emit_Ok in E as (-> & -> & _ & _ & _ & _ & Hl).
  destruct best as [m k].
  destruct (scan_classes_best _ _ _ _ _ _ _ (eq_refl : F32.is_nan F32.zero = false) Hscan)
    as (Hmn & Hcase); cbn [fst snd] in *.
  assert (Hk : 0 <= k < Z.max 1 (m_num_classes d)).
  { destruct Hcase as [(_ & -> & _) | (Hk & _)]; lia. }
  split; [exact Hk|]. split; [exact Hl|].
  intros Hf. apply mul_finite; [eapply read_finite; eassumption|].
  destruct Hcase as [(-> & _) | (_ & Hfk & _)]; [reflexivity|].
  eapply read_finite; eassumption.
Qed.

Lemma ppyoloe_row_label d output W H thr i det :
  ppyoloe_row d output W H thr i = Ok (Some det) ->
  0 <= class_id det /\ class_label d (class_id det) = Ok (class_name det).
Proof.
  unfold ppyoloe_row. intros E.
  apply bind_Ok in E as (v0 & _ & E). apply bind_Ok in E as (id & _ & E).
  do 5 (apply bind_Ok in E as (? & _ & E)).
  destruct (F32.ltb _ thr); [discriminate|].
  destruct (Z.ltb_spec id 0); [discriminate|].
  apply emit_Ok in E as (-> & _ & _ & _ & _ & _ & Hl).
  split; [lia | exact Hl].
Qed.

(** What [postprocess] returns was pushed by a round of the decoder of the
    model's variant. *)
Lemma postprocess_rows d output shape count W H tr thr iou_thr dets det :
  postprocess std_sort expf d output shape count W H tr thr iou_thr = Ok dets ->
  det ∈ dets ->
  match m_model_type d with
  | YOLOV8 => exists tp nb features i,
                yolov8_row d output tp nb features W H tr thr i = Ok (Some det)
  | YOLOX => exists features i,
               yolox_row expf d output features W H tr thr i = Ok (Some det)
  | PPYOLOE => exists i, ppyoloe_row d output W H thr i = Ok (Some det)
  end.
Proof.
  intros E Hdet. unfold postprocess in E.
  destruct (output_dims shape count) as [[dim1 dim2]|].
  2: { injection E as <-. inversion Hdet. }
  destruct (m_model_type d).
  - apply bind_Ok in E as (l & Hl & E).
    apply (elem_of_nms std_sort std_sort_sorts _ _ _ E) in Hdet. unfold decode_yolov8 in Hl.
    apply for_each_Ok in Hl as [Hl _]. destruct (Hl det Hdet) as (i & _ & Hi). eauto.
  - apply bind_Ok in E as (l & Hl & E).
    apply (elem_of_nms std_sort std_sort_sorts _ _ _ E) in Hdet. unfold decode_yolox in Hl.
    apply for_each_Ok in Hl as [Hl _]. destruct (Hl det Hdet) as (i & _ & Hi). eauto.
  - unfold postprocess_ppyoloe in E.
    destruct (_ <=? 0); [injection E as <-; inversion Hdet|].
    apply for_each_Ok in E as [Hl _]. destruct (Hl det Hdet) as (i & _ & Hi). eauto.
Qed.

End Rows.

(** X7.  The detections of a YOLOv8 model come back in the order of their
    confidence, highest first, each confidence a number that is not
    negative; those of a YOLOX model do when the output tensor holds
    finite values only. *)
Theorem decoded_results_sorted_by_confidence
  (std_sort : list Detection -> list Detection) (expf : F32.float -> F32.float)
  (d : YoloDetector) (output : list F32.float)
  (output_shape : list Z) (output_count original_width original_height : Z)
  (tr : Transform) (conf_threshold iou_threshold : F32.float) (dets : list Detection) :
  sorts_by_confidence std_sort ->
  m_model_type d = YOLOV8
  \/ (m_model_type d = YOLOX /\ Forall (fun v => is_finite v = true) output) ->
  postprocess std_sort expf d output output_shape output_count
              original_width original_height tr conf_threshold iou_threshold = Ok dets ->
  no_nan_confidence dets
  /\ (forall i j a b, (i < j)%nat -> dets !! i = Some a -> dets !! j = Some b ->
        F32.leb (confidence b) (confidence a) = true)
  /\ (m_model_type d = YOLOV8 ->
      Forall (fun det => F32.leb F32.zero (confidence det) = true) dets).
Proof.
  intros Hsort Hty E.
  assert (Hcand : dets = []
                  \/ exists l, nms std_sort l iou_threshold = Ok dets /\ no_nan_confidence l).
  { unfold postprocess in E.
    destruct (output_dims output_shape output_count) as [[dim1 dim2]|].
    2: { injection E as <-. left. reflexivity. }
    right. destruct Hty as [Hty | [Hty Hfin]]; rewrite Hty in E.
    - apply bind_Ok in E as (l & Hl & E).
      exists l. split; [exact E|]. apply Forall_forall. intros x Hx.
      unfold decode_yolov8 in Hl. apply for_each_Ok in Hl as [Hl _].
      destruct (Hl x Hx) as (i & _ & Hi). apply yolov8_row_Ok in Hi. tauto.
    - apply bind_Ok in E as (l & Hl & E).
      exists l. split; [exact E|]. apply Forall_forall. intros x Hx.
      unfold decode_yolox in Hl. apply for_each_Ok in Hl as [Hl _].
      destruct (Hl x Hx) as (i & _ & Hi). apply yolox_row_Ok in Hi. tauto. }
  assert (Hnn : no_nan_confidence dets).
  { destruct Hcand as [-> | (l & Hk & Hn)]; [constructor|].
    apply Forall_forall. intros x Hx. apply (elem_of_nms std_sort Hsort _ _ _ Hk) in Hx.
    unfold no_nan_confidence in Hn. rewrite Forall_forall in Hn. auto. }
  split; [exact Hnn|]. split.
  - intros i j a b Hij Ha Hb.
    destruct Hcand as [-> | (l & Hk & Hn)]; [discriminate|].
    pose proof (nms_kept_order std_sort Hsort _ _ _ Hk) as Hs.
    pose proof (StronglySorted_lookup _ _ _ _ _ _ Hs Hij Ha Hb) as Hab.
    unfold no_nan_confidence in Hnn. rewrite Forall_forall in Hnn.
    pose proof (Hnn a (list_elem_of_lookup_2 _ _ _ Ha)) as Hna.
    pose proof (Hnn b (list_elem_of_lookup_2 _ _ _ Hb)) as Hnb.
    cbv beta in Hna, Hnb. unfold not_after in Hab. f32_order.
  - intros Hv8. apply Forall_forall. intros det Hdet.
    pose proof (postprocess_rows std_sort Hsort expf _ _ _ _ _ _ _ _ _ _ det E Hdet) as Hrow.
    rewrite Hv8 in Hrow. destruct Hrow as (tp & nb & features & i & Hi).
    apply yolov8_row_Ok in Hi. tauto.
Qed.

Lemma decoded_results_sorted_by_confidence_witness :
  exists dets,
    postprocess sample_sort sample_expf yolov8_64 boxes_by_box [1; 8; 6] 48 64 64
                identity_transform quarter iou_045 = Ok dets
    /\ map class_id dets = [0; 1; 0]
    /\ no_nan_confidence dets
    /\ (forall i j a b, (i < j)%nat -> dets !! i = Some a -> dets !! j = Some b ->
          F32.leb (confidence b) (confidence a) = true).
Proof.
  destruct (postprocess sample_sort sample_expf yolov8_64 boxes_by_box [1; 8; 6] 48 64 64
                        identity_transform quarter iou_045) as [dets| |] eqn:E;
    try (vm_compute in E; discriminate).
  exists dets. split; [reflexivity|]. split.
  - vm_compute in E. injection E as <-. reflexivity.
  - destruct (decoded_results_sorted_by_confidence sample_sort sample_expf yolov8_64
                boxes_by_box [1; 8; 6] 48 64 64 identity_transform quarter iou_045 dets
                sample_sort_sorts (or_introl eq_refl) E) as (Hn & Hs & _).
    split; [exact Hn | exact Hs].
Defined.

(** X8.  Every detection [postprocess] returns has a class id that is not
    negative and carries the label of that id: the entry of the class-name
    table, or ["class_<id>"] when the table is shorter.  For YOLOX the id
    is below the class count (or is 0), whatever the table's length, so a
    table shorter than the class count is never read beyond its end. *)
Theorem postprocess_labels_by_class_id
  (std_sort : list Detection -> list Detection) (expf : F32.float -> F32.float)
  (d : YoloDetector) (output : list F32.float)
  (output_shape : list Z) (output_count original_width original_height : Z)
  (tr : Transform) (conf_threshold iou_threshold : F32.float)
  (dets : list Detection) (det : Detection) :
  sorts_by_confidence std_sort ->
  Z.of_nat (length (m_class_names d)) < 2 ^ 31 ->
  postprocess std_sort expf d output output_shape output_count
              original_width original_height tr conf_threshold iou_threshold = Ok dets ->
  det ∈ dets ->
  0 <= class_id det
  /\ class_name det = label_of (m_class_names d) (class_id det)
  /\ (m_model_type d = YOLOX -> class_id det < Z.max 1 (m_num_classes d)).
Proof.
  intros Hsort Hlen E Hdet.
  pose proof (postprocess_rows std_sort Hsort expf _ _ _ _ _ _ _ _ _ _ det E Hdet) as Hrow.
  destruct (m_model_type d).
  - destruct Hrow as (tp & nb & features & i & Hi).
    apply yolov8_row_Ok in Hi as (_ & _ & Hid & Hl).
    split; [lia|]. split; [|discriminate]. apply class_label_Ok; [exact Hlen | lia | exact Hl].
  - destruct Hrow as (features & i & Hi).
    apply yolox_row_Ok in Hi as (Hid & Hl & _).
    split; [lia|]. split; [|intros _; lia]. apply class_label_Ok; [exact Hlen | lia | exact Hl].
  - destruct Hrow as (i & Hi).
    apply ppyoloe_row_label in Hi as (Hid & Hl).
    split; [lia|]. split; [|discriminate]. apply class_label_Ok; [exact Hlen | lia | exact Hl].
Qed.

Lemma postprocess_labels_by_class_id_witness :
  let d := setClassNames ["cat"%string] yolov8_64 in
  exists dets,
    postprocess sample_sort sample_expf d boxes_by_box [1; 8; 6] 48 64 64
                identity_transform quarter iou_045 = Ok dets
    /\ map class_name dets = ["cat"; "class_1"; "cat"]%string
    /\ forall det, det ∈ dets ->
         0 <= class_id det
         /\ class_name det = label_of ["cat"%string] (class_id det).
Proof.
  intros d.
  destruct (postprocess sample_sort sample_expf d boxes_by_box [1; 8; 6] 48 64 64
                        identity_transform quarter iou_045) as [dets| |] eqn:E;
    try (vm_compute in E; discriminate).
  exists dets. split; [reflexivity|]. split.
  - vm_compute in E. injection E as <-. reflexivity.
  - intros det Hdet.
    destruct (postprocess_labels_by_class_id sample_sort sample_expf d boxes_by_box
                [1; 8; 6] 48 64 64 identity_transform quarter iou_045 dets det)
      as (H0 & Hl & _);
      [exact sample_sort_sorts | vm_compute; reflexivity | exact E | exact Hdet |].
    split; [exact H0 | exact Hl].
Defined.

(** ** Values that are not numbers *)

(** X27.  A YOLOX box whose objectness is NaN passes both threshold
    tests (a comparison with NaN is false) and is pushed with a NaN
    confidence, whatever its class scores are: such a candidate reaches
    the sort. *)
Theorem yolox_nan_objectness_reaches_sort
  (expf : F32.float -> F32.float) (d : YoloDetector) (output : list F32.float)
  (features original_width original_height : Z) (tr : Transform)
  (conf_threshold : F32.float) (i : Z) (r : option Detection) :
  read output (i * features + 4) = Ok S754_nan ->
  yolox_row expf d output features original_width original_height tr conf_threshold i
    = Ok r ->
  exists det, r = Some det /\ F32.is_nan (confidence det) = true.
Proof.
  intros Hobj E. unfold yolox_row in E. cbv zeta in E.
  rewrite Hobj in E. cbn [bind] in E.
  change (F32.ltb S754_nan conf_threshold) with false in E.
  apply bind_Ok in E as (best & _ & E).
  assert (Hmul : F32.mul S754_nan best.1 = S754_nan) by (destruct best.1; reflexivity).
  rewrite Hmul in E.
  change (F32.ltb S754_nan conf_threshold) with false in E.
  do 7 (apply bind_Ok in E as (? & _ & E)).
  destruct r as [det|]; [|unfold emit in E; apply bind_Ok in E as (? & _ & [=])].
  apply emit_Ok in E as (_ & Hc & _).
  exists det. split; [reflexivity|]. rewrite Hc. reflexivity.
Qed.

Lemma yolox_nan_objectness_reaches_sort_witness :
  (exists det,
     yolox_row sample_expf yolox_16 nan_boxes 6 16 16 identity_transform quarter 0
     = Ok (Some det)
     /\ F32.is_nan (confidence det) = true)
  /\ forall std_sort,
       postprocess std_sort sample_expf yolox_16 nan_boxes [1; 3; 6] 18 16 16
                   identity_transform quarter iou_045 = Undefined.
Proof.
  split; [|intros std_sort; vm_compute; reflexivity].
  destruct (yolox_row sample_expf yolox_16 nan_boxes 6 16 16 identity_transform quarter 0)
    as [r| |] eqn:E; try (vm_compute in E; discriminate).
  destruct (yolox_nan_objectness_reaches_sort sample_expf yolox_16 nan_boxes 6 16 16
              identity_transform quarter 0 r eq_refl E) as (det & -> & Hn).
  exists det. split; [reflexivity | exact Hn].
Defined.

(** ** The two layouts of a YOLOv8 output *)

Lemma for_each_ext {A} (f g : Z -> result (option A)) start n :
  (forall i, start <= i < start + Z.of_nat n -> f i = g i) ->
  for_each f start n = for_each g start n.
Proof.
  revert start. induction n as [|n IH]; intros start Hfg; [reflexivity|].
  cbn [for_each]. rewrite (Hfg start) by lia.
  destruct (g start); cbn [bind]; try reflexivity.
  rewrite IH; [reflexivity|]. intros i Hi. apply Hfg. lia.
Qed.

Lemma read_lookup_eq (o o' : list F32.float) k k' :
  0 <= k -> 0 <= k' -> o !! Z.to_nat k = o' !! Z.to_nat k' -> read o k = read o' k'.
Proof.
  intros Hk Hk' E. unfold read.
  destruct (Z.ltb_spec k 0); [lia|]. destruct (Z.ltb_spec k' 0); [lia|].
  rewrite E. reflexivity.
Qed.

(** X9.  A YOLOv8 output of [n] boxes of [f] values ([4 <= f < n]) is
    decoded to the same detections whether the tensor is laid out field by
    field, shape [[1, f, n]], or box by box, shape [[1, n, f]]. *)
Theorem decode_yolov8_layouts_agree
  (std_sort : list Detection -> list Detection) (expf : F32.float -> F32.float)
  (d : YoloDetector)
  (by_field by_box : list F32.float) (n f : Z)
  (original_width original_height : Z) (tr : Transform)
  (conf_threshold iou_threshold : F32.float) :
  4 <= f -> f < n -> n < 2 ^ 31 ->
  (forall i k, 0 <= i < n -> 0 <= k < f ->
     by_box !! Z.to_nat (i * f + k) = by_field !! Z.to_nat (k * n + i)) ->
  decode_yolov8 d by_box n f original_width original_height tr conf_threshold
  = decode_yolov8 d by_field f n original_width original_height tr conf_threshold
  /\ (m_model_type d = YOLOV8 ->
      forall count count',
        postprocess std_sort expf d by_box [1; n; f] count
                    original_width original_height tr conf_threshold iou_threshold
        = postprocess std_sort expf d by_field [1; f; n] count'
                      original_width original_height tr conf_threshold iou_threshold).
Proof.
  intros Hf Hfn Hn Hlay.
  assert (E : decode_yolov8 d by_box n f original_width original_height tr conf_threshold
              = decode_yolov8 d by_field f n original_width original_height tr conf_threshold).
  { unfold decode_yolov8.
    replace (f <? n) with true by lia. replace (n <? f) with false by lia.
    rewrite !cast_int_id by lia.
    apply for_each_ext. intros i Hi. rewrite Z2Nat.id in Hi by lia.
    assert (R : forall k, 0 <= k < f -> read by_box (i * f + k) = read by_field (k * n + i)).
    { intros k Hk. apply read_lookup_eq; [nia | nia | apply Hlay; lia]. }
    unfold yolov8_row.
    rewrite (R 0), (R 1), (R 2), (R 3) by lia.
    rewrite (scan_classes_ext (fun c => read by_box (i * f + (4 + c)))
                              (fun c => read by_field ((4 + c) * n + i))).
    2: { intros c Hc. apply R. lia. }
    reflexivity. }
  split; [exact E|].
  intros Hty count count'. unfold postprocess. cbn [output_dims].
  rewrite Hty, E. reflexivity.
Qed.

Lemma decode_yolov8_layouts_agree_witness :
  decode_yolov8 yolov8_64 boxes_by_box 8 6 64 64 identity_transform quarter
  = decode_yolov8 yolov8_64 boxes_by_field 6 8 64 64 identity_transform quarter.
Proof.
  refine (proj1 (decode_yolov8_layouts_agree sample_sort sample_expf yolov8_64
                   boxes_by_field boxes_by_box 8 6 64 64 identity_transform
                   quarter iou_045 _ _ _ _)); try lia.
  intros i k Hi Hk.
  assert (Ei : i = 0 \/ i = 1 \/ i = 2 \/ i = 3 \/ i = 4 \/ i = 5 \/ i = 6 \/ i = 7) by lia.
  assert (Ek : k = 0 \/ k = 1 \/ k = 2 \/ k = 3 \/ k = 4 \/ k = 5) by lia.
  clear Hi Hk.
  repeat (destruct Ei as [->|Ei]); try subst i;
    repeat (destruct Ek as [->|Ek]); try subst k; reflexivity.
Defined.

(** ** The scan of [yolo_set_classes] *)

Lemma string_app_assoc (a b c : string) : ((a ++ b) ++ c = a ++ (b ++ c))%string.
Proof. induction a as [|x a IH]; cbn; [reflexivity|]. rewrite IH. reflexivity. Qed.

Lemma string_app_nil_r (a : string) : (a ++ "")%string = a.
Proof. induction a as [|x a IH]; cbn; [reflexivity|]. rewrite IH. reflexivity. Qed.

Lemma no_quote_app a b : no_quote (a ++ b) = no_quote a && no_quote b.
Proof.
  induction a as [|x a IH]; cbn; [reflexivity|]. rewrite IH, andb_assoc. reflexivity.
Qed.

(** Outside a name, text without a quote is passed over. *)
Lemma scan_names_skip sep rest :
  no_quote sep = true ->
  scan_names (sep ++ rest) None = scan_names rest None.
Proof.
  induction sep as [|c sep IH]; cbn; [reflexivity|]. intros H.
  apply andb_true_iff in H as [Hc H].
  destruct (Ascii.eqb c quote); [discriminate|]. apply IH, H.
Qed.

(** Inside a name, text without a quote is collected up to the closing
    quote. *)
Lemma scan_names_collect name acc rest :
  no_quote name = true ->
  scan_names (name ++ String quote rest) (Some acc)
  = if nonempty (acc ++ name) then (acc ++ name)%string :: scan_names rest None
    else scan_names rest None.
Proof.
  revert acc. induction name as [|c name IH]; intros acc H.
  - cbn [String.append scan_names]. rewrite Ascii.eqb_refl, string_app_nil_r.
    destruct acc; reflexivity.
  - cbn in H. apply andb_true_iff in H as [Hc H].
    cbn [String.append scan_names].
    destruct (Ascii.eqb c quote); [discriminate|].
    rewrite (IH _ H), string_app_assoc. reflexivity.
Qed.

(** Text that ends inside a name gives no name. *)
Lemma scan_names_open name acc :
  no_quote name = true -> scan_names name (Some acc) = [].
Proof.
  revert acc. induction name as [|c name IH]; intros acc H; [reflexivity|].
  cbn in H. apply andb_true_iff in H as [Hc H]. cbn [scan_names].
  destruct (Ascii.eqb c quote); [discriminate|]. apply IH, H.
Qed.

Lemma scan_names_quoted_text items tail :
  Forall (fun it => no_quote it.1 = true /\ no_quote it.2 = true) items ->
  scan_names (quoted_text items tail) None
  = filter (fun n => nonempty n = true) (map snd items) ++ scan_names tail None.
Proof.
  induction 1 as [|[sep name] items [Hsep Hname] _ IH]; [reflexivity|].
  cbn [quoted_text map snd]. cbn [fst snd] in Hsep, Hname.
  rewrite scan_names_skip by exact Hsep.
  cbn [scan_names]. rewrite Ascii.eqb_refl.
  rewrite scan_names_collect by exact Hname. cbn [String.append].
  rewrite IH. rewrite filter_cons.
  destruct (nonempty name) eqn:E; case_decide; try congruence; reflexivity.
Qed.

(** X10.  [yolo_set_classes] takes as names the texts between successive
    pairs of quote characters, in order, leaving out the empty ones;
    whatever stands between the names (brackets, commas, spaces, anything
    without a quote) is passed over, and a last name that is not closed is
    dropped.  When a name is left, the detector's table becomes these
    names and its class count their number; otherwise the detector is not
    touched. *)
Theorem yolo_set_classes_takes_quoted_names
  (items : list (string * string)) (tail : string) (d : YoloDetector) :
  Forall (fun it => no_quote it.1 = true /\ no_quote it.2 = true) items ->
  no_quote tail = true ->
  let names := filter (fun n => nonempty n = true) (map snd items) in
  scan_names (quoted_text items tail) None = names
  /\ (forall partial, no_quote partial = true ->
        scan_names (quoted_text items (tail ++ String quote partial)) None = names)
  /\ yolo_set_classes (quoted_text items tail) (Some d)
     = Some (match names with [] => d | _ => setClassNames names d end)
  /\ yolo_set_classes (quoted_text items tail) None = None.
Proof.
  intros Hitems Htail names.
  assert (E : scan_names (quoted_text items tail) None = names).
  { rewrite scan_names_quoted_text by exact Hitems.
    rewrite <- (string_app_nil_r tail), scan_names_skip by exact Htail.
    cbn. apply app_nil_r. }
  split; [exact E|]. split; [|split; [|reflexivity]].
  - intros partial Hp. rewrite scan_names_quoted_text by exact Hitems.
    rewrite scan_names_skip by exact Htail. cbn [scan_names].
    rewrite Ascii.eqb_refl, scan_names_open by exact Hp. apply app_nil_r.
  - unfold yolo_set_classes. rewrite E. destruct names; reflexivity.
Qed.

Lemma yolo_set_classes_takes_quoted_names_witness :
  let json := quoted_text [("[", "cat"); (", ", ""); (", ", "dog")]%string "]" in
  json = String "[" (String quote ("cat" ++ String quote (", " ++ String quote (String quote
           (", " ++ String quote ("dog" ++ String quote "]"))))))%string
  /\ scan_names json None = ["cat"; "dog"]%string
  /\ m_class_names <$> yolo_set_classes json (Some new_YoloDetector) = Some ["cat"; "dog"]%string
  /\ m_num_classes <$> yolo_set_classes json (Some new_YoloDetector) = Some 2.
Proof.
  intros json. split; [reflexivity|].
  destruct (yolo_set_classes_takes_quoted_names
              [("[", "cat"); (", ", ""); (", ", "dog")]%string "]" new_YoloDetector)
    as (E & _ & S & _).
  - repeat constructor.
  - reflexivity.
  - split; [exact E|]. fold json in S. rewrite S. split; reflexivity.
Defined.

(** The names the scan returns, from whatever state it is in. *)
Lemma scan_names_invariant json cur :
  match cur with Some acc => no_quote acc = true | None => True end ->
  Forall (fun n => nonempty n = true /\ no_quote n = true) (scan_names json cur).
Proof.
  revert cur. induction json as [|c json IH]; intros cur Hcur; [constructor|].
  cbn [scan_names]. destruct cur as [acc|].
  - destruct (Ascii.eqb c quote) eqn:Ec.
    + destruct acc as [|a acc]; [apply IH; exact I|].
      constructor; [split; [reflexivity | exact Hcur]|]. apply IH. exact I.
    + apply IH. rewrite no_quote_app, Hcur. cbn. rewrite Ec. reflexivity.
  - destruct (Ascii.eqb c quote); apply IH; [reflexivity | exact I].
Qed.

(** X11.  Whatever the text, no name [yolo_set_classes] takes is empty or
    holds a quote character (a quote written with a backslash before it
    ends the name like any other), and the call either leaves the
    detector as it was or gives it a table that is not empty. *)
Theorem yolo_set_classes_never_empty_or_quoted (json : string) (d : YoloDetector) :
  Forall (fun n => nonempty n = true /\ no_quote n = true) (scan_names json None)
  /\ exists d', yolo_set_classes json (Some d) = Some d'
       /\ (d' = d
           \/ (m_class_names d' = scan_names json None /\ m_class_names d' <> []
               /\ m_num_classes d' = cast_int (Z.of_nat (length (m_class_names d'))))).
Proof.
  split; [apply scan_names_invariant; exact I|].
  unfold yolo_set_classes. destruct (scan_names json None) as [|n l] eqn:E.
  - exists d. auto.
  - eexists. split; [reflexivity|]. right. cbn. repeat split. discriminate.
Qed.

(** ** The C interface and the life of the detector *)

Lemma detectFromPath_not_initialized cv_resize std_sort expf session_run cv_imread d path c i :
  detectFromPath cv_resize std_sort expf session_run cv_imread d path c i = Ok NOT_INITIALIZED
  <-> m_initialized d = false.
Proof.
  unfold detectFromPath. destruct (m_initialized d); cbn [negb]; [|tauto].
  split; [|discriminate]. destruct (_ || _); [discriminate|].
  destruct (detect _ _ _ _ _ _ _ _ _ _); cbn; discriminate.
Qed.

Lemma detectFromBuffer_not_initialized cv_resize std_sort expf session_run Buffer cv_bgra_to_bgr
  d (data : Buffer) w h s c i :
  detectFromBuffer cv_resize std_sort expf session_run Buffer cv_bgra_to_bgr d data w h s c i
  = Ok NOT_INITIALIZED
  <-> m_initialized d = false.
Proof.
  unfold detectFromBuffer. destruct (m_initialized d); cbn [negb]; [|tauto].
  split; [|discriminate]. destruct (cv_bgra_to_bgr _ _ _ _); cbn; try discriminate.
  destruct (detect _ _ _ _ _ _ _ _ _ _); cbn; discriminate.
Qed.

Lemma detectFromYUV_not_initialized cv_resize std_sort expf session_run Buffer yuv_to_bgr
  d (y u v : Buffer) w h ys us ups rot c i :
  detectFromYUV cv_resize std_sort expf session_run Buffer yuv_to_bgr d y u v w h ys us ups rot c i
  = Ok NOT_INITIALIZED
  <-> m_initialized d = false.
Proof.
  unfold detectFromYUV. destruct (m_initialized d); cbn [negb]; [|tauto].
  split; [|discriminate]. destruct (yuv_to_bgr _ _ _ _ _ _ _ _ _); cbn; try discriminate.
  destruct (detect _ _ _ _ _ _ _ _ _ _); cbn; discriminate.
Qed.

(** X12.  [yolo_is_initialized] tells what the detection calls will do:
    each of the three returns the NOT_INITIALIZED error object exactly
    when it reports 0, that is when no detector exists or its [init]
    failed.  It reports 1 after a [yolo_init] that returned 1, 0 after
    one that returned 0, and 0 after [yolo_release]. *)
Theorem yolo_is_initialized_tells_not_initialized
  (cv_resize : Mat -> Z -> Z -> result Mat)
  (std_sort : list Detection -> list Detection) (expf : F32.float -> F32.float)
  (session_run : list Tensor -> result Tensor) (Buffer : Type)
  (cv_bgra_to_bgr : Buffer -> Z -> Z -> Z -> result Mat)
  (yuv_to_bgr : Buffer -> Buffer -> Buffer -> Z -> Z -> Z -> Z -> Z -> Z -> result Mat)
  (cv_imread : string -> Mat) (g_detector : option YoloDetector) :
  (forall path c i,
     yolo_detect_path cv_resize std_sort expf session_run cv_imread g_detector path c i
     = Ok NOT_INITIALIZED
     <-> yolo_is_initialized g_detector = 0)
  /\ (forall data w h s c i,
        yolo_detect_buffer cv_resize std_sort expf session_run Buffer cv_bgra_to_bgr
                           g_detector data w h s c i
        = Ok NOT_INITIALIZED
        <-> yolo_is_initialized g_detector = 0)
  /\ (forall y u v w h ys us ups rot c i,
        yolo_detect_yuv cv_resize std_sort expf session_run Buffer yuv_to_bgr
                        g_detector y u v w h ys us ups rot c i
        = Ok NOT_INITIALIZED
        <-> yolo_is_initialized g_detector = 0)
  /\ (yolo_is_initialized g_detector = 0 \/ yolo_is_initialized g_detector = 1)
  /\ (forall session,
        yolo_is_initialized (yolo_init session).2 = if (yolo_init session).1 then 1 else 0)
  /\ yolo_is_initialized (yolo_release g_detector) = 0.
Proof.
  assert (Hflag : forall d, (if m_initialized d then 1 else 0) = 0 <-> m_initialized d = false).
  { intros d. destruct (m_initialized d); split; congruence. }
  split; [|split; [|split; [|split; [|split]]]].
  - intros path c i. unfold yolo_detect_path, yolo_is_initialized.
    destruct g_detector as [d|]; [|tauto].
    rewrite Hflag. apply detectFromPath_not_initialized.
  - intros data w h s c i. unfold yolo_detect_buffer, yolo_is_initialized.
    destruct g_detector as [d|]; [|tauto].
    rewrite Hflag. apply detectFromBuffer_not_initialized.
  - intros y u v w h ys us ups rot c i. unfold yolo_detect_yuv, yolo_is_initialized.
    destruct g_detector as [d|]; [|tauto].
    rewrite Hflag. apply detectFromYUV_not_initialized.
  - destruct g_detector as [d|]; cbn; [destruct (m_initialized d)|]; auto.
  - intros [s|]; [|reflexivity]. unfold yolo_init, init.
    destruct (foldl init_input _ _) as [has_scale d]. reflexivity.
  - reflexivity.
Qed.

(** ** What [init] leaves alone *)

Lemma init_input_frame acc inp :
  m_class_names (init_input acc inp).2 = m_class_names acc.2
  /\ m_initialized (init_input acc inp).2 = m_initialized acc.2
  /\ m_input_names_str (init_input acc inp).2 = m_input_names_str acc.2 ++ [tensor_name inp]
  /\ m_output_names_str (init_input acc inp).2 = m_output_names_str acc.2.
Proof.
  destruct acc as [flag d]. unfold init_input.
  destruct (contains _ _); [cbn; auto|].
  destruct (tensor_shape inp) as [|? [|? [|? [|? [|]]]]]; cbn; auto.
Qed.

Lemma init_inputs_frame inputs acc :
  m_class_names (foldl init_input acc inputs).2 = m_class_names acc.2
  /\ m_initialized (foldl init_input acc inputs).2 = m_initialized acc.2
  /\ m_input_names_str (foldl init_input acc inputs).2
     = m_input_names_str acc.2 ++ map tensor_name inputs
  /\ m_output_names_str (foldl init_input acc inputs).2 = m_output_names_str acc.2.
Proof.
  revert acc. induction inputs as [|inp inputs IH]; intros acc; cbn [foldl map].
  - rewrite app_nil_r. auto.
  - destruct (IH (init_input acc inp)) as (-> & -> & -> & ->).
    destruct (init_input_frame acc inp) as (-> & -> & -> & ->).
    rewrite <- app_assoc. auto.
Qed.

Lemma classify_dims_frame dim1 dim2 d :
  m_class_names (classify_dims dim1 dim2 d) = m_class_names d
  /\ m_initialized (classify_dims dim1 dim2 d) = m_initialized d
  /\ m_input_names_str (classify_dims dim1 dim2 d) = m_input_names_str d
  /\ m_output_names_str (classify_dims dim1 dim2 d) = m_output_names_str d
  /\ m_input_width (classify_dims dim1 dim2 d) = m_input_width d
  /\ m_input_height (classify_dims dim1 dim2 d) = m_input_height d.
Proof.
  unfold classify_dims.
  repeat match goal with |- context [if ?b then _ else _] => destruct b end; cbn; auto 10.
Qed.

Lemma init_output_frame d out :
  m_class_names (init_output d out) = m_class_names d
  /\ m_initialized (init_output d out) = m_initialized d
  /\ m_input_names_str (init_output d out) = m_input_names_str d
  /\ m_output_names_str (init_output d out) = m_output_names_str d ++ [tensor_name out]
  /\ m_input_width (init_output d out) = m_input_width d
  /\ m_input_height (init_output d out) = m_input_height d.
Proof.
  unfold init_output. cbv zeta.
  destruct (ModelType_eqb _ _); [cbn; auto 10|].
  destruct (_ <=? _)%nat; [|cbn; auto 10].
  match goal with |- context [classify_dims ?a ?b ?x] =>
    destruct (classify_dims_frame a b x) as (-> & -> & -> & -> & -> & ->) end.
  cbn. auto 10.
Qed.

Lemma init_outputs_frame outputs d :
  m_class_names (foldl init_output d outputs) = m_class_names d
  /\ m_initialized (foldl init_output d outputs) = m_initialized d
  /\ m_input_names_str (foldl init_output d outputs) = m_input_names_str d
  /\ m_output_names_str (foldl init_output d outputs)
     = m_output_names_str d ++ map tensor_name outputs
  /\ m_input_width (foldl init_output d outputs) = m_input_width d
  /\ m_input_height (foldl init_output d outputs) = m_input_height d.
Proof.
  revert d. induction outputs as [|out outputs IH]; intros d; cbn [foldl map].
  - rewrite app_nil_r. auto 10.
  - destruct (IH (init_output d out)) as (-> & -> & -> & -> & -> & ->).
    destruct (init_output_frame d out) as (-> & -> & -> & -> & -> & ->).
    rewrite <- app_assoc. auto 10.
Qed.

(** X13.  [init] never touches the table of class names, whatever class
    count it detects: a detector made by [yolo_init] labels with the 80
    COCO names.  When the session loads, [init] returns true, sets the
    detector initialised and appends the names of the model's inputs and
    of its outputs, in the model's order, to the names it will pass to the
    session; when it does not, [init] returns false and the detector stays
    uninitialised if it was. *)
Theorem init_keeps_class_names_and_appends_tensor_names
  (session : option Session) (d : YoloDetector) :
  let d' := (init session d).2 in
  m_class_names d' = m_class_names d
  /\ m_class_names <$> (yolo_init session).2 = Some COCO_CLASSES
  /\ match session with
     | None => (init session d).1 = false /\ m_initialized d' = m_initialized d
     | Some s =>
         (init session d).1 = true
         /\ m_initialized d' = true
         /\ m_input_names_str d'
            = m_input_names_str d ++ map tensor_name (session_inputs s)
         /\ m_output_names_str d'
            = m_output_names_str d ++ map tensor_name (session_outputs s)
     end.
Proof.
  assert (H : forall d0, let d' := (init session d0).2 in
     m_class_names d' = m_class_names d0
     /\ match session with
        | None => (init session d0).1 = false /\ m_initialized d' = m_initialized d0
        | Some s =>
            (init session d0).1 = true
            /\ m_initialized d' = true
            /\ m_input_names_str d'
               = m_input_names_str d0 ++ map tensor_name (session_inputs s)
            /\ m_output_names_str d'
               = m_output_names_str d0 ++ map tensor_name (session_outputs s)
        end).
  { intros d0. destruct session as [s|]; [|cbn; auto].
    unfold init. cbv zeta.
    pose proof (init_inputs_frame (session_inputs s) (false, d0)) as Hin.
    destruct (foldl init_input (false, d0) (session_inputs s)) as [has_scale d1].
    cbn [fst snd] in Hin |- *. destruct Hin as (Hc & _ & Hi & Ho).
    set (d2 := if has_scale then set_model PPYOLOE 80 d1 else d1).
    assert (Hd2 : m_class_names d2 = m_class_names d1
                  /\ m_input_names_str d2 = m_input_names_str d1
                  /\ m_output_names_str d2 = m_output_names_str d1)
      by (unfold d2; destruct has_scale; auto).
    destruct Hd2 as (Hc2 & Hi2 & Ho2).
    destruct (init_outputs_frame (session_outputs s) d2) as (Hc3 & _ & Hi3 & Ho3 & _).
    cbn [set_initialized m_class_names m_initialized m_input_names_str m_output_names_str].
    rewrite Hc3, Hc2, Hc, Hi3, Hi2, Hi, Ho3, Ho2, Ho. auto. }
  intros d'. destruct (H d) as [Hc Hrest]. split; [exact Hc|]. split; [|exact Hrest].
  unfold yolo_init. cbn [snd fmap option_fmap option_map].
  destruct (H new_YoloDetector) as [-> _]. reflexivity.
Qed.

(** ** Exceptions inside [detect] *)

(** X14.  No exception leaves [detect]: when preprocessing or the
    inference session raises, [detect] returns the empty list.  So a call
    on an initialised detector whose inference fails gives a result with
    no detection and the size of the image, not an error object. *)
Theorem detect_turns_exceptions_into_no_detection
  (cv_resize : Mat -> Z -> Z -> result Mat)
  (std_sort : list Detection -> list Detection) (expf : F32.float -> F32.float)
  (session_run : list Tensor -> result Tensor) (cv_imread : string -> Mat)
  (d : YoloDetector) (bgr : Mat) (width height : Z)
  (conf_threshold iou_threshold : F32.float) :
  let run := detect cv_resize std_sort expf session_run d bgr width height
                    conf_threshold iou_threshold in
  run <> Throws
  /\ (preprocess cv_resize d bgr width height = Throws -> run = Ok [])
  /\ (forall pre, preprocess cv_resize d bgr width height = Ok pre ->
        session_run (input_values d pre.1 width height) = Throws -> run = Ok [])
  /\ (forall image_path,
        let image := cv_imread image_path in
        m_initialized d = true -> rows image <> 0 -> cols image <> 0 ->
        (forall inputs, session_run inputs = Throws) ->
        preprocess cv_resize d image (cols image) (rows image) <> Undefined ->
        detectFromPath cv_resize std_sort expf session_run cv_imread d image_path
                       conf_threshold iou_threshold
        = Ok (ResultJson [] (cols image) (rows image))).
Proof.
  intros run. subst run. unfold detect.
  split; [|split; [|split]].
  - destruct (preprocess _ _ _ _ _) as [pre| |]; cbn; try discriminate.
    destruct (session_run _) as [out| |]; cbn; try discriminate.
    destruct (postprocess _ _ _ _ _ _ _ _ _ _ _); cbn; discriminate.
  - intros ->. reflexivity.
  - intros pre -> Hrun. cbn [bind]. rewrite Hrun. reflexivity.
  - intros image_path Hinit Hr Hc Hrun Hpre.
    set (image := cv_imread image_path) in *.
    unfold detectFromPath, detect. fold image. rewrite Hinit. cbn [negb].
    replace (rows image =? 0) with false by lia.
    replace (cols image =? 0) with false by lia. cbn [orb].
    destruct (preprocess cv_resize d image (cols image) (rows image)) as [pre| |];
      cbn [bind catch_all]; [|reflexivity|contradiction].
    rewrite Hrun. reflexivity.
Qed.

(** ** The tensors handed to the session *)

Ltac split_comparisons :=
  repeat match goal with
  | H : context [?x <=? ?y] |- _ => destruct (Z.leb_spec x y)
  | H : context [?x <? ?y] |- _ => destruct (Z.ltb_spec x y)
  | |- context [?x <=? ?y] => destruct (Z.leb_spec x y)
  | |- context [?x <? ?y] => destruct (Z.ltb_spec x y)
  end;
  cbn [andb orb negb] in *.

Lemma flat_map_two_length {A} (x y : A) (a b : Z) (s n : nat) :
  Z.of_nat (length (flat_map (fun i => if Z.of_nat i =? a then [x]
                                       else if Z.of_nat i =? b then [y] else [])
                             (seq s n)))
  <= (if (Z.of_nat s <=? a) && (a <? Z.of_nat s + Z.of_nat n) then 1 else 0)
     + (if (Z.of_nat s <=? b) && (b <? Z.of_nat s + Z.of_nat n) then 1 else 0).
Proof.
  revert s. induction n as [|n IH]; intros s; cbn [seq flat_map].
  - cbn [length]. split_comparisons; lia.
  - rewrite length_app, Nat2Z.inj_add. specialize (IH (S s)).
    replace (Z.of_nat (S s) + Z.of_nat n) with (Z.of_nat s + Z.of_nat (S n)) in IH by lia.
    destruct (Z.eqb_spec (Z.of_nat s) a), (Z.eqb_spec (Z.of_nat s) b); cbn [length];
      split_comparisons; lia.
Qed.

Lemma detect_turns_exceptions_into_no_detection_witness :
  detectFromPath sample_resize sample_sort sample_expf (fun _ => Throws) (fun _ => sample_image 4 4)
                 yolox_2x2 "frame.jpg"%string quarter iou_045
  = Ok (ResultJson [] 4 4).
Proof.
  refine (proj2 (proj2 (proj2 (detect_turns_exceptions_into_no_detection
            sample_resize sample_sort sample_expf (fun _ => Throws) (fun _ => sample_image 4 4)
            yolox_2x2 (sample_image 4 4) 4 4 quarter iou_045)))
          "frame.jpg"%string _ _ _ _ _).
  - reflexivity.
  - cbn. lia.
  - cbn. lia.
  - reflexivity.
  - intros H. vm_compute in H. discriminate.
Defined.

(** X15.  The tensors [detect] hands to the session.  A model that is not
    PP-YOLOE, or has fewer than two inputs, gets the image tensor of shape
    [[1, 3, input_h, input_w]] alone.  A PP-YOLOE model with two inputs
    gets the image tensor and the scale tensor
    [[input_h / height, input_w / width]] in the order of its input names:
    image first when the first name holds "image" and the second "scale",
    scale first in the opposite case and when neither name tells.  Never
    more than two tensors are passed, however many inputs the model
    has. *)
Theorem input_values_follow_input_names
  (d : YoloDetector) (input_tensor : list F32.float) (width height : Z) :
  let image :=
    {| t_shape := [1; 3; m_input_height d; m_input_width d]; t_data := input_tensor |} in
  let scale_factor :=
    {| t_shape := [1; 2];
       t_data := [F32.div (F32.of_int (m_input_height d)) (F32.of_int height);
                  F32.div (F32.of_int (m_input_width d)) (F32.of_int width)] |} in
  let values := input_values d input_tensor width height in
  (length values <= 2)%nat
  /\ (m_model_type d <> PPYOLOE \/ (length (m_input_names_str d) < 2)%nat ->
      values = [image])
  /\ (m_model_type d = PPYOLOE ->
      forall a b, m_input_names_str d = [a; b] ->
        (contains "image"%string a = true -> contains "image"%string b = false ->
         contains "scale"%string b = true -> values = [image; scale_factor])
        /\ (contains "image"%string a = false -> contains "scale"%string a = true ->
            contains "image"%string b = true -> values = [scale_factor; image])
        /\ (contains "image"%string a = false -> contains "scale"%string a = false ->
            contains "image"%string b = false -> contains "scale"%string b = false ->
            values = [scale_factor; image])).
Proof.
  intros image scale_factor values. subst values. unfold input_values.
  fold image. split; [|split].
  - destruct (_ && _); [|cbn; lia].
    destruct (input_indices (m_input_names_str d)) as [image_idx scale_idx].
    fold scale_factor.
    pose proof (flat_map_two_length image scale_factor image_idx scale_idx 0
                  (length (m_input_names_str d))) as H.
    split_comparisons; lia.
  - intros [Hty | Hlen].
    + destruct (m_model_type d); try reflexivity. contradiction.
    + destruct (2 <=? length (m_input_names_str d))%nat eqn:E;
        [apply Nat.leb_le in E; lia|].
      rewrite andb_false_r. reflexivity.
  - intros Hty a b Hnames. rewrite Hty, Hnames. cbn [ModelType_eqb length Nat.leb andb].
    unfold input_indices. cbn [imap foldl fst snd compose].
    fold scale_factor.
    split; [|split].
    + intros Ha Hb Hs. rewrite Ha, Hb, Hs. reflexivity.
    + intros Ha Hs Hb. rewrite Ha, Hs, Hb. reflexivity.
    + intros Ha Hsa Hb Hsb. rewrite Ha, Hsa, Hb, Hsb. reflexivity.
Qed.

Lemma input_values_follow_input_names_witness :
  m_input_names_str ppyoloe_two_inputs = ["scale_factor"; "image"]%string
  /\ input_values ppyoloe_two_inputs [] 4 8
     = [ {| t_shape := [1; 2];
            t_data := [F32.div (F32.of_int 2) (F32.of_int 8);
                       F32.div (F32.of_int 2) (F32.of_int 4)] |};
         {| t_shape := [1; 3; 2; 2]; t_data := [] |} ].
Proof.
  split; [reflexivity|].
  refine (proj1 (proj2 (proj2 (proj2 (input_values_follow_input_names
            ppyoloe_two_inputs [] 4 8)) eq_refl "scale_factor" "image" eq_refl)) _ _ _)%string;
    reflexivity.
Defined.

(** ** Loops of writes into the NV21 buffer *)

Lemma peek_Ok mem p b : peek mem p = Ok b <-> mem p = Some b.
Proof. apply or_undefined_Ok. Qed.

Lemma get_lt_length v k : 0 <= k < Z.of_nat (length v) -> exists b, get v k = Some b.
Proof.
  intros H. unfold get. destruct (Z.ltb_spec k 0); [lia|].
  apply lookup_lt_is_Some. lia.
Qed.

Lemma poke_Ok v k b v' :
  poke v k b = Ok v' ->
  0 <= k < Z.of_nat (length v)
  /\ length v' = length v
  /\ get v' k = Some b
  /\ forall j, j <> k -> get v' j = get v j.
Proof.
  unfold poke. destruct (Z.leb_spec 0 k); [|discriminate].
  destruct (Z.ltb_spec k (Z.of_nat (length v))); [|discriminate].
  cbn [andb]. intros [= <-]. split; [lia|]. split; [apply length_insert|]. split.
  - unfold get. destruct (Z.ltb_spec k 0); [lia|].
    apply list_lookup_insert_eq. lia.
  - intros j Hj. unfold get. destruct (Z.ltb_spec j 0); [reflexivity|].
    apply list_lookup_insert_ne. lia.
Qed.

Lemma poke_succeeds v k b :
  0 <= k < Z.of_nat (length v) -> exists v', poke v k b = Ok v' /\ length v' = length v.
Proof.
  intros H. unfold poke.
  destruct (Z.leb_spec 0 k); [|lia]. destruct (Z.ltb_spec k (Z.of_nat (length v))); [|lia].
  eexists. split; [reflexivity|]. apply length_insert.
Qed.

(** A loop whose rounds write consecutive blocks of [blk] elements, round
    [i] setting the first [used] elements of block [i] to [val i] and
    touching nothing else. *)
Section Blocks.

Variable body : Z -> list Byte.byte -> result (list Byte.byte).
Variables base blk used : Z.
Variable val : Z -> Z -> option Byte.byte.

Hypothesis used_le_blk : 0 <= used <= blk.
Hypothesis body_writes_block : forall i v v',
  0 <= i -> body i v = Ok v' ->
  length v' = length v
  /\ (forall k, 0 <= k < used -> get v' (base + i * blk + k) = val i k)
  /\ (forall j, j < base + i * blk \/ base + i * blk + used <= j -> get v' j = get v j).

Lemma loop_writes_blocks i0 n v v' :
  0 <= i0 ->
  loop body i0 n v = Ok v' ->
  length v' = length v
  /\ (forall i k, i0 <= i < i0 + Z.of_nat n -> 0 <= k < used ->
        get v' (base + i * blk + k) = val i k)
  /\ (forall j, j < base + i0 * blk \/ base + (i0 + Z.of_nat n) * blk <= j ->
        get v' j = get v j).
Proof.
  revert i0 v. induction n as [|n IH]; intros i0 v Hi0 E.
  - injection E as <-. split; [reflexivity|]. split; [intros; lia | reflexivity].
  - cbn [loop] in E. apply bind_Ok in E as (v1 & Hb & E).
    destruct (body_writes_block i0 v v1 Hi0 Hb) as (Hlen1 & Hset1 & Hkeep1).
    destruct (IH (i0 + 1) v1 ltac:(lia) E) as (Hlen & Hset & Hkeep).
    split; [congruence|]. split.
    + intros i k Hi Hk. destruct (Z.eq_dec i i0) as [->|Hne].
      * rewrite Hkeep by nia. apply Hset1. exact Hk.
      * apply Hset; lia.
    + intros j Hj. rewrite Hkeep by nia. apply Hkeep1. nia.
Qed.

End Blocks.

Lemma loop_succeeds (L : nat) (body : Z -> list Byte.byte -> result (list Byte.byte)) i0 n v :
  length v = L ->
  (forall i t, i0 <= i < i0 + Z.of_nat n -> length t = L ->
     exists t', body i t = Ok t' /\ length t' = L) ->
  exists v', loop body i0 n v = Ok v' /\ length v' = L.
Proof.
  revert i0 v. induction n as [|n IH]; intros i0 v Hv Hbody.
  - exists v. auto.
  - cbn [loop]. destruct (Hbody i0 v ltac:(lia) Hv) as (v1 & -> & Hv1). cbn [bind].
    apply IH; [exact Hv1|]. intros i t Hi. apply Hbody. lia.
Qed.

(** *** [int] arithmetic *)

Lemma int_of_Ok z o : int_of z = Ok o <-> o = z /\ - 2 ^ 31 <= z < 2 ^ 31.
Proof.
  unfold int_of, F32.int_min, F32.int_max.
  destruct (Z.leb_spec (- 2 ^ 31) z), (Z.leb_spec z (2 ^ 31 - 1)); cbn [andb];
    split; try discriminate; try (intros [_ ?]; lia).
  - intros [= <-]. split; [reflexivity | lia].
  - intros [-> _]. reflexivity.
Qed.

Lemma int_of_fits z : - 2 ^ 31 <= z < 2 ^ 31 -> int_of z = Ok z.
Proof. intros H. apply int_of_Ok. auto. Qed.

(** *** [memcpy] *)

Lemma memcpy_Ok mem v dst src n v' :
  memcpy mem v dst src n = Ok v' ->
  0 <= n
  /\ length v' = length v
  /\ (forall k, 0 <= k < n -> get v' (dst + k) = mem (src + k))
  /\ (forall j, j < dst \/ dst + n <= j -> get v' j = get v j).
Proof.
  unfold memcpy. destruct (Z.ltb_spec n 0); [discriminate|]. intros E.
  split; [lia|].
  pose proof (loop_writes_blocks
                (fun k v => let* b := peek mem (src + k) in poke v (dst + k) b)
                dst 1 1 (fun k _ => mem (src + k)) ltac:(lia)) as Hloop.
  destruct (Hloop) with (i0 := 0) (n := Z.to_nat n) (v := v) (v' := v')
    as (Hlen & Hset & Hkeep); [|lia|exact E|].
  - intros i t t' Hi Hb. apply bind_Ok in Hb as (b & Hpk & Hb).
    apply peek_Ok in Hpk. apply poke_Ok in Hb as (_ & Hl & Hg & Hk).
    split; [exact Hl|]. split.
    + intros k Hk'. replace (dst + i * 1 + k) with (dst + i) by lia. congruence.
    + intros j Hj. apply Hk. lia.
  - split; [exact Hlen|]. split.
    + intros k Hk. specialize (Hset k 0 ltac:(lia) ltac:(lia)).
      replace (dst + k * 1 + 0) with (dst + k) in Hset by lia. exact Hset.
    + intros j Hj. apply Hkeep. lia.
Qed.

Lemma memcpy_succeeds mem v dst src n :
  (forall a, mem a <> None) ->
  0 <= n -> 0 <= dst -> dst + n <= Z.of_nat (length v) ->
  exists v', memcpy mem v dst src n = Ok v' /\ length v' = length v.
Proof.
  intros Hmem Hn Hdst Hfit. unfold memcpy. destruct (Z.ltb_spec n 0); [lia|].
  apply loop_succeeds; [reflexivity|]. intros i t Hi Ht.
  unfold peek. destruct (mem (src + i)) as [b|] eqn:Eb; [|destruct (Hmem _ Eb)].
  cbn [or_undefined bind]. rewrite <- Ht. apply poke_succeeds. lia.
Qed.

(** *** The loop of row copies *)

Lemma copy_rows_Ok mem v dst src src_stride width rows v' :
  0 <= width ->
  copy_rows mem v dst src src_stride width rows = Ok v' ->
  length v' = length v
  /\ (forall row k, 0 <= row < rows -> 0 <= k < width ->
        get v' (dst + row * width + k) = mem (src + row * src_stride + k))
  /\ (forall j, j < dst \/ dst + Z.max 0 rows * width <= j -> get v' j = get v j).
Proof.
  intros Hw E. unfold copy_rows in E.
  match type of E with loop ?b _ _ _ = _ =>
    pose proof (loop_writes_blocks b
                  dst width width (fun row k => mem (src + row * src_stride + k))
                  ltac:(lia)) as Hloop
  end.
  destruct (Hloop) with (i0 := 0) (n := Z.to_nat rows) (v := v) (v' := v')
    as (Hlen & Hset & Hkeep); [|lia|exact E|].
  - intros i t t' Hi Hb.
    apply bind_Ok in Hb as (dst_offset & Hd & Hb). apply bind_Ok in Hb as (src_offset & Hs & Hb).
    apply int_of_Ok in Hd as [-> _], Hs as [-> _].
    apply memcpy_Ok in Hb as (_ & Hl & Hs & Hk).
    split; [exact Hl|]. split; [exact Hs | exact Hk].
  - split; [exact Hlen|]. split.
    + intros row k Hrow Hk. apply Hset; lia.
    + intros j Hj. apply Hkeep. nia.
Qed.

Lemma copy_rows_succeeds mem v dst src src_stride width rows :
  (forall a, mem a <> None) ->
  0 <= width -> 0 <= dst -> dst + Z.max 0 rows * width <= Z.of_nat (length v) ->
  Z.max 0 rows * width < 2 ^ 31 ->
  Z.max 0 rows * Z.abs src_stride < 2 ^ 31 ->
  exists v', copy_rows mem v dst src src_stride width rows = Ok v' /\ length v' = length v.
Proof.
  intros Hmem Hw Hdst Hfit Hrw Hrs. unfold copy_rows.
  apply loop_succeeds; [reflexivity|]. intros i t Hi Ht.
  rewrite (int_of_fits (i * width)) by nia. cbn [bind].
  rewrite (int_of_fits (i * src_stride)) by nia. cbn [bind].
  rewrite <- Ht. apply memcpy_succeeds; [exact Hmem | lia | nia | nia].
Qed.

(** *** The loops that interleave V and U *)

Lemma quot2_bounds z : 0 <= z -> 0 <= Z.quot z 2 /\ 2 * Z.quot z 2 <= z.
Proof.
  intros H. rewrite Z.quot_div_nonneg by lia.
  pose proof (Z.div_mod z 2 ltac:(lia)). pose proof (Z.mod_pos_bound z 2 ltac:(lia)). lia.
Qed.

Lemma interleave_pair_Ok mem uv_dst v_data u_data uv_row_stride step width row col v v' :
  interleave_pair mem uv_dst v_data u_data uv_row_stride step width row col v = Ok v' ->
  length v' = length v
  /\ get v' (uv_dst + row * width + col * 2)
     = mem (v_data + (row * uv_row_stride + col * step))
  /\ get v' (uv_dst + row * width + col * 2 + 1)
     = mem (u_data + (row * uv_row_stride + col * step))
  /\ (forall j, j < uv_dst + row * width + col * 2
                \/ uv_dst + row * width + col * 2 + 2 <= j -> get v' j = get v j).
Proof.
  unfold interleave_pair. intros Hb.
  apply bind_Ok in Hb as (o1 & H1 & Hb). apply bind_Ok in Hb as (o2 & H2 & Hb).
  apply bind_Ok in Hb as (o3 & H3 & Hb). apply bind_Ok in Hb as (o4 & H4 & Hb).
  apply bind_Ok in Hb as (o5 & H5 & Hb). apply bind_Ok in Hb as (o6 & H6 & Hb).
  apply int_of_Ok in H1 as [-> _], H2 as [-> _], H3 as [-> _].
  apply int_of_Ok in H4 as [-> _], H5 as [-> _], H6 as [-> _].
  apply bind_Ok in Hb as (b1 & Hp1 & Hb). apply bind_Ok in Hb as (t1 & Hw1 & Hb).
  apply bind_Ok in Hb as (b2 & Hp2 & Hb). apply bind_Ok in Hb as (o7 & H7 & Hw2).
  apply int_of_Ok in H7 as [-> _].
  apply peek_Ok in Hp1, Hp2.
  apply poke_Ok in Hw1 as (_ & Hl1 & Hg1 & Hk1).
  apply poke_Ok in Hw2 as (_ & Hl2 & Hg2 & Hk2).
  split; [congruence|]. split; [|split].
  - rewrite Hk2 by lia.
    replace (uv_dst + row * width + col * 2) with (uv_dst + (row * width + col * 2)) by lia.
    congruence.
  - replace (uv_dst + row * width + col * 2 + 1)
      with (uv_dst + (row * width + col * 2 + 1)) by lia.
    congruence.
  - intros j Hj. rewrite Hk2 by lia. apply Hk1. lia.
Qed.

Lemma interleave_pair_succeeds mem uv_dst v_data u_data uv_row_stride step width row col v :
  (forall a, mem a <> None) ->
  - 2 ^ 31 <= row * uv_row_stride < 2 ^ 31 ->
  - 2 ^ 31 <= col * step < 2 ^ 31 ->
  - 2 ^ 31 <= row * uv_row_stride + col * step < 2 ^ 31 ->
  0 <= row * width -> 0 <= col ->
  row * width + col * 2 + 1 < 2 ^ 31 ->
  0 <= uv_dst -> uv_dst + row * width + col * 2 + 1 < Z.of_nat (length v) ->
  exists v', interleave_pair mem uv_dst v_data u_data uv_row_stride step width row col v = Ok v'
             /\ length v' = length v.
Proof.
  intros Hmem H1 H2 H3 Hrow Hcol Hdst Huv Hfit. unfold interleave_pair.
  rewrite (int_of_fits (row * uv_row_stride)) by lia. cbn [bind].
  rewrite (int_of_fits (col * step)) by lia. cbn [bind].
  rewrite (int_of_fits (row * uv_row_stride + col * step)) by lia. cbn [bind].
  rewrite (int_of_fits (row * width)) by lia. cbn [bind].
  rewrite (int_of_fits (col * 2)) by lia. cbn [bind].
  rewrite (int_of_fits (row * width + col * 2)) by lia. cbn [bind].
  unfold peek.
  destruct (mem (v_data + _)) as [b1|] eqn:E1; [|destruct (Hmem _ E1)].
  cbn [or_undefined bind].
  destruct (poke_succeeds v (uv_dst + (row * width + col * 2)) b1) as (t2 & -> & Ht2);
    [lia|].
  cbn [bind].
  destruct (mem (u_data + _)) as [b2|] eqn:E2; [|destruct (Hmem _ E2)].
  cbn [or_undefined bind].
  rewrite (int_of_fits (row * width + col * 2 + 1)) by lia. cbn [bind].
  destruct (poke_succeeds t2 (uv_dst + (row * width + col * 2 + 1)) b2) as (t3 & -> & Ht3);
    [rewrite Ht2; lia|].
  exists t3. split; [reflexivity | congruence].
Qed.

Lemma interleave_row_Ok mem v row uv_dst v_data u_data uv_row_stride step width n v' :
  loop (interleave_pair mem uv_dst v_data u_data uv_row_stride step width row) 0 n v = Ok v' ->
  length v' = length v
  /\ (forall col, 0 <= col < Z.of_nat n ->
        get v' (uv_dst + row * width + col * 2)
        = mem (v_data + (row * uv_row_stride + col * step))
        /\ get v' (uv_dst + row * width + col * 2 + 1)
           = mem (u_data + (row * uv_row_stride + col * step)))
  /\ (forall j, j < uv_dst + row * width \/ uv_dst + row * width + Z.of_nat n * 2 <= j ->
        get v' j = get v j).
Proof.
  intros E.
  match type of E with loop ?b _ _ _ = _ =>
    pose proof (loop_writes_blocks b (uv_dst + row * width) 2 2
                  (fun col k => if k =? 0 then mem (v_data + (row * uv_row_stride + col * step))
                                else mem (u_data + (row * uv_row_stride + col * step)))
                  ltac:(lia)) as Hloop
  end.
  destruct (Hloop) with (i0 := 0) (n := n) (v := v) (v' := v')
    as (Hlen & Hset & Hkeep); [|lia|exact E|].
  - intros i t t' Hi Hb.
    apply interleave_pair_Ok in Hb as (Hl & Hv & Hu & Hk).
    split; [exact Hl|]. split.
    + intros k Hk'. assert (k = 0 \/ k = 1) as [-> | ->] by lia; cbn [Z.eqb].
      * rewrite Z.add_0_r. exact Hv.
      * exact Hu.
    + intros j Hj. apply Hk. lia.
  - split; [exact Hlen|]. split.
    + intros col Hcol. split.
      * specialize (Hset col 0 ltac:(lia) ltac:(lia)). cbn [Z.eqb] in Hset.
        replace (uv_dst + row * width + col * 2 + 0) with (uv_dst + row * width + col * 2)
          in Hset by lia. exact Hset.
      * specialize (Hset col 1 ltac:(lia) ltac:(lia)). cbn [Z.eqb] in Hset. exact Hset.
    + intros j Hj. apply Hkeep. lia.
Qed.

Lemma interleave_vu_Ok mem v uv_dst v_data u_data uv_row_stride step width height v' :
  0 <= width ->
  interleave_vu mem v uv_dst v_data u_data uv_row_stride step width height = Ok v' ->
  length v' = length v
  /\ (forall row col, 0 <= row < Z.quot height 2 -> 0 <= col < Z.quot width 2 ->
        get v' (uv_dst + row * width + col * 2)
        = mem (v_data + (row * uv_row_stride + col * step))
        /\ get v' (uv_dst + row * width + col * 2 + 1)
           = mem (u_data + (row * uv_row_stride + col * step)))
  /\ (forall j, j < uv_dst \/ uv_dst + Z.max 0 (Z.quot height 2) * width <= j ->
        get v' j = get v j).
Proof.
  intros Hw E. unfold interleave_vu in E.
  destruct (quot2_bounds width Hw) as [Hq0 Hq].
  match type of E with loop ?b _ _ _ = _ =>
    pose proof (loop_writes_blocks b uv_dst width (2 * Z.quot width 2)
                  (fun row k =>
                     if Z.even k
                     then mem (v_data + (row * uv_row_stride + Z.quot k 2 * step))
                     else mem (u_data + (row * uv_row_stride + Z.quot k 2 * step)))
                  ltac:(lia)) as Hloop
  end.
  destruct (Hloop) with (i0 := 0) (n := Z.to_nat (Z.quot height 2)) (v := v) (v' := v')
    as (Hlen & Hset & Hkeep); [|lia|exact E|].
  - intros i t t' Hi Hb. apply interleave_row_Ok in Hb as (Hl & Hs & Hk).
    rewrite Z2Nat.id in Hs, Hk by lia.
    split; [exact Hl|]. split.
    + intros k Hk'.
      pose proof (Z.div_mod k 2 ltac:(lia)) as Hdm.
      pose proof (Z.mod_pos_bound k 2 ltac:(lia)) as Hm.
      rewrite (Z.quot_div_nonneg k 2) by lia.
      destruct (Hs (k / 2) ltac:(lia)) as [Hv Hu].
      rewrite Zeven_mod. destruct (Z.eqb_spec (k mod 2) 0) as [E0|E0].
      * replace (uv_dst + i * width + k) with (uv_dst + i * width + k / 2 * 2) by lia.
        exact Hv.
      * replace (uv_dst + i * width + k) with (uv_dst + i * width + k / 2 * 2 + 1) by lia.
        exact Hu.
    + intros j Hj. apply Hk. lia.
  - split; [exact Hlen|]. split.
    + intros row col Hrow Hcol. split.
      * specialize (Hset row (col * 2) ltac:(lia) ltac:(lia)).
        rewrite Z.even_mul, orb_true_r in Hset.
        rewrite Z.quot_mul in Hset by lia. exact Hset.
      * specialize (Hset row (col * 2 + 1) ltac:(lia) ltac:(lia)).
        replace (Z.even (col * 2 + 1)) with false in Hset.
        2: { rewrite Z.even_add, Z.even_mul, orb_true_r. reflexivity. }
        replace (Z.quot (col * 2 + 1) 2) with col in Hset.
        2: { rewrite Z.quot_div_nonneg by lia.
             apply (Z.div_unique (col * 2 + 1) 2 col 1); lia. }
        rewrite Z.add_assoc in Hset. exact Hset.
    + intros j Hj. apply Hkeep. nia.
Qed.

Lemma interleave_vu_succeeds mem v uv_dst v_data u_data uv_row_stride step width height :
  (forall a, mem a <> None) ->
  0 <= width -> 0 <= uv_dst -> 1 <= step <= 2 ->
  uv_dst + Z.max 0 (Z.quot height 2) * width <= Z.of_nat (length v) ->
  Z.max 0 (Z.quot height 2) * width < 2 ^ 31 ->
  Z.max 0 (Z.quot height 2) * Z.abs uv_row_stride + width < 2 ^ 31 ->
  exists v', interleave_vu mem v uv_dst v_data u_data uv_row_stride step width height = Ok v'
             /\ length v' = length v.
Proof.
  intros Hmem Hw Hdst Hstep Hfit Hrw Hrs. unfold interleave_vu.
  destruct (quot2_bounds width Hw) as [Hq0 Hq].
  apply loop_succeeds; [reflexivity|]. intros row t Hrow Ht.
  apply loop_succeeds; [exact Ht|]. intros col t1 Hcol Ht1.
  rewrite Z2Nat.id in Hcol by lia.
  assert (Hrs' : Z.abs (row * uv_row_stride) <= Z.max 0 (Z.quot height 2) * Z.abs uv_row_stride).
  { rewrite Z.abs_mul. apply Z.mul_le_mono_nonneg_r; lia. }
  assert (Hcs : 0 <= col * step < width) by nia.
  rewrite <- Ht1.
  apply interleave_pair_succeeds; try assumption; try lia; try nia.
Qed.

(** *** The sizes *)

Lemma nv21_sizes w h :
  0 <= w -> 0 <= h ->
  let size := Z.quot (w * h * 3) 2 in
  0 <= size
  /\ w * h + Z.quot (w * h) 2 = size
  /\ w * h + Z.quot h 2 * w <= size
  /\ Z.quot (h * 3) 2 * w <= size.
Proof.
  intros Hw Hh size. subst size.
  assert (0 <= w * h) by nia.
  rewrite !Z.quot_div_nonneg by lia.
  pose proof (Z.div_mod (w * h * 3) 2 ltac:(lia)).
  pose proof (Z.mod_pos_bound (w * h * 3) 2 ltac:(lia)).
  pose proof (Z.div_mod (w * h) 2 ltac:(lia)).
  pose proof (Z.mod_pos_bound (w * h) 2 ltac:(lia)).
  pose proof (Z.div_mod h 2 ltac:(lia)).
  pose proof (Z.mod_pos_bound h 2 ltac:(lia)).
  pose proof (Z.div_mod (h * 3) 2 ltac:(lia)).
  pose proof (Z.mod_pos_bound (h * 3) 2 ltac:(lia)).
  repeat split; nia.
Qed.

(** X16.  Repacking a frame never writes outside the NV21 buffer.  For a
    width and a height that are not negative and whose buffer size fits
    an [int] ([width * height * 3] below 2^31), and for all plane pointers
    and all strides, negative ones included, whose row offsets fit an
    [int]: when every address is readable (so that no read of the caller's
    planes can fail) the packing completes, with a buffer of
    [width * height * 3 / 2] bytes; and the matrix of [height * 3 / 2]
    rows of [width] bytes handed to the colour conversion lies inside
    that buffer. *)
Theorem nv21_pack_stays_inside_buffer
  (mem : Memory) (y_data u_data v_data : Z)
  (width height y_row_stride uv_row_stride uv_pixel_stride : Z) :
  (forall a, mem a <> None) -> 0 <= width -> 0 <= height ->
  width * height * 3 < 2 ^ 31 ->
  height * Z.abs y_row_stride < 2 ^ 31 ->
  height * Z.abs uv_row_stride + width < 2 ^ 31 ->
  exists nv21_data,
    nv21_pack mem y_data u_data v_data width height
              y_row_stride uv_row_stride uv_pixel_stride = Ok nv21_data
    /\ Z.of_nat (length nv21_data) = Z.quot (width * height * 3) 2
    /\ Z.quot (height * 3) 2 * width <= Z.of_nat (length nv21_data).
Proof.
  intros Hmem Hw Hh Hfit Hys Huvs.
  destruct (nv21_sizes width height Hw Hh) as (Hsize & Huv & Hrows & Hmat).
  destruct (quot2_bounds height Hh) as [Hq0 Hq].
  assert (Harea : 0 <= width * height) by nia.
  unfold nv21_pack.
  rewrite (int_of_fits (width * height)) by lia. cbn [bind].
  rewrite (int_of_fits (width * height * 3)) by lia. cbn [bind]. cbv zeta.
  destruct (Z.ltb_spec (Z.quot (width * height * 3) 2) 0); [lia|].
  set (v0 := replicate (Z.to_nat (Z.quot (width * height * 3) 2)) Byte.x00).
  assert (Hv0 : Z.of_nat (length v0) = Z.quot (width * height * 3) 2).
  { unfold v0. rewrite length_replicate. lia. }
  assert (Hy : exists v1,
             (if y_row_stride =? width then memcpy mem v0 0 y_data (width * height)
              else copy_rows mem v0 0 y_data y_row_stride width height) = Ok v1
             /\ length v1 = length v0).
  { destruct (y_row_stride =? width).
    - apply memcpy_succeeds; [exact Hmem | nia | lia | nia].
    - apply copy_rows_succeeds; [exact Hmem | lia | lia | nia | nia | nia]. }
  destruct Hy as (v1 & -> & Hv1). cbn [bind].
  assert (Hhalf : Z.max 0 (Z.quot height 2) * Z.abs uv_row_stride
                  <= height * Z.abs uv_row_stride).
  { apply Z.mul_le_mono_nonneg_r; lia. }
  assert (Hfinal : exists v2,
             (if uv_pixel_stride =? 1 then
                interleave_vu mem v1 (width * height) v_data u_data uv_row_stride 1 width height
              else if uv_pixel_stride =? 2 then
                if v_data <? u_data then
                  if uv_row_stride =? width then
                    memcpy mem v1 (width * height) v_data (Z.quot (width * height) 2)
                  else copy_rows mem v1 (width * height) v_data uv_row_stride width
                                 (Z.quot height 2)
                else
                  interleave_vu mem v1 (width * height) v_data u_data uv_row_stride 2
                                width height
              else Ok v1) = Ok v2
             /\ length v2 = length v1).
  { destruct (uv_pixel_stride =? 1).
    - apply interleave_vu_succeeds; [exact Hmem | lia | nia | lia | nia | nia | lia].
    - destruct (uv_pixel_stride =? 2); [|eauto].
      destruct (v_data <? u_data).
      + destruct (uv_row_stride =? width).
        * apply memcpy_succeeds; [exact Hmem | nia | nia | nia].
        * apply copy_rows_succeeds; [exact Hmem | lia | nia | nia | nia | lia].
      + apply interleave_vu_succeeds; [exact Hmem | lia | nia | lia | nia | nia | lia]. }
  destruct Hfinal as (v2 & -> & Hv2).
  exists v2. split; [reflexivity|]. rewrite Hv2, Hv1. split; [exact Hv0 | lia].
Qed.

Lemma nv21_pack_stays_inside_buffer_witness :
  exists nv21_data,
    nv21_pack (fun _ => Some Byte.x80) 1000 2000 2001 5 3 8 (-8) 2 = Ok nv21_data
    /\ Z.of_nat (length nv21_data) = 22
    /\ 4 * 5 <= Z.of_nat (length nv21_data).
Proof.
  apply (nv21_pack_stays_inside_buffer (fun _ => Some Byte.x80) 1000 2000 2001 5 3 8 (-8) 2);
    [discriminate | lia | lia | lia | lia | lia].
Defined.

(** X17.  What the packed buffer holds, for a width and a height that are
    not negative.  The first [width * height] bytes are the rows of the Y
    plane without their padding.  After them, each of the [height / 2]
    chroma rows of [width] bytes holds, for planar input (pixel stride 1),
    V then U for each pair of columns; for interleaved input (pixel
    stride 2), a copy of the row at the V pointer when the V pointer is
    the lower one, and otherwise the bytes at the V and at the U pointer
    for each pair of columns, V first.  For any other pixel stride the
    chroma bytes stay 0. *)
Theorem nv21_pack_luma_and_chroma
  (mem : Memory) (y_data u_data v_data : Z)
  (width height y_row_stride uv_row_stride uv_pixel_stride : Z)
  (nv21_data : list Byte.byte) :
  0 <= width -> 0 <= height ->
  nv21_pack mem y_data u_data v_data width height
            y_row_stride uv_row_stride uv_pixel_stride = Ok nv21_data ->
  let uv_dst := width * height in
  Z.of_nat (length nv21_data) = Z.quot (width * height * 3) 2
  /\ (forall row col, 0 <= row < height -> 0 <= col < width ->
        get nv21_data (row * width + col) = mem (y_data + row * y_row_stride + col))
  /\ (uv_pixel_stride = 1 ->
      forall row col, 0 <= row < Z.quot height 2 -> 0 <= col < Z.quot width 2 ->
        get nv21_data (uv_dst + row * width + col * 2)
        = mem (v_data + (row * uv_row_stride + col))
        /\ get nv21_data (uv_dst + row * width + col * 2 + 1)
           = mem (u_data + (row * uv_row_stride + col)))
  /\ (uv_pixel_stride = 2 -> v_data < u_data ->
      forall row k, 0 <= row < Z.quot height 2 -> 0 <= k < width ->
        get nv21_data (uv_dst + row * width + k)
        = mem (v_data + row * uv_row_stride + k))
  /\ (uv_pixel_stride = 2 -> u_data <= v_data ->
      forall row col, 0 <= row < Z.quot height 2 -> 0 <= col < Z.quot width 2 ->
        get nv21_data (uv_dst + row * width + col * 2)
        = mem (v_data + (row * uv_row_stride + col * 2))
        /\ get nv21_data (uv_dst + row * width + col * 2 + 1)
           = mem (u_data + (row * uv_row_stride + col * 2)))
  /\ (uv_pixel_stride <> 1 -> uv_pixel_stride <> 2 ->
      forall k, uv_dst <= k < Z.of_nat (length nv21_data) ->
        get nv21_data k = Some Byte.x00).
Proof.
  intros Hw Hh E uv_dst. subst uv_dst.
  destruct (nv21_sizes width height Hw Hh) as (Hsize & Huv & Hrows & Hmat).
  destruct (quot2_bounds height Hh) as [Hq0 Hq].
  unfold nv21_pack in E.
  apply bind_Ok in E as (area & Ha & E). apply bind_Ok in E as (area3 & Ha3 & E).
  apply int_of_Ok in Ha as [-> _]. apply int_of_Ok in Ha3 as [-> _]. cbv zeta in E.
  destruct (Z.ltb_spec (Z.quot (width * height * 3) 2) 0); [lia|].
  set (v0 := replicate (Z.to_nat (Z.quot (width * height * 3) 2)) Byte.x00) in E.
  assert (Hv0 : Z.of_nat (length v0) = Z.quot (width * height * 3) 2).
  { unfold v0. rewrite length_replicate. lia. }
  assert (Hz : forall k, 0 <= k < Z.of_nat (length v0) -> get v0 k = Some Byte.x00).
  { intros k Hk. unfold get. destruct (Z.ltb_spec k 0); [lia|].
    unfold v0. apply lookup_replicate_2. lia. }
  apply bind_Ok in E as (v1 & Ey & E).
  assert (Hy : length v1 = length v0
               /\ (forall row col, 0 <= row < height -> 0 <= col < width ->
                     get v1 (row * width + col) = mem (y_data + row * y_row_stride + col))
               /\ (forall j, width * height <= j -> get v1 j = get v0 j)).
  { destruct (Z.eqb_spec y_row_stride width) as [->|_].
    - apply memcpy_Ok in Ey as (_ & Hl & Hs & Hk).
      split; [exact Hl|]. split.
      + intros row col Hrow Hcol.
        specialize (Hs (row * width + col) ltac:(nia)).
        rewrite Z.add_0_l, Z.add_assoc in Hs. exact Hs.
      + intros j Hj. apply Hk. lia.
    - apply copy_rows_Ok in Ey as (Hl & Hs & Hk); [|exact Hw].
      split; [exact Hl|]. split.
      + intros row col Hrow Hcol. specialize (Hs row col Hrow Hcol).
        rewrite Z.add_0_l in Hs. exact Hs.
      + intros j Hj. apply Hk. nia. }
  destruct Hy as (Hl1 & Hy1 & Hk1).
  assert (Hkeep : forall v2, length v2 = length v1 ->
            (forall j, j < width * height -> get v2 j = get v1 j) ->
            Z.of_nat (length v2) = Z.quot (width * height * 3) 2
            /\ (forall row col, 0 <= row < height -> 0 <= col < width ->
                  get v2 (row * width + col) = mem (y_data + row * y_row_stride + col))).
  { intros v2 Hl2 Hk2. split; [congruence|].
    intros row col Hrow Hcol. rewrite Hk2 by nia. apply Hy1; assumption. }
  destruct (Z.eqb_spec uv_pixel_stride 1) as [E1|E1].
  { apply interleave_vu_Ok in E as (Hl & Hs & Hk); [|exact Hw].
    destruct (Hkeep nv21_data Hl) as [HL HY]; [intros j Hj; apply Hk; lia|].
    split; [exact HL|]. split; [exact HY|]. split.
    - intros _ row col Hrow Hcol. destruct (Hs row col Hrow Hcol) as [Hv Hu].
      rewrite Z.mul_1_r in Hv, Hu. split; assumption.
    - repeat split; intros; lia. }
  destruct (Z.eqb_spec uv_pixel_stride 2) as [E2|E2].
  { destruct (Z.ltb_spec v_data u_data) as [Hvu|Hvu].
    - assert (Hc : length nv21_data = length v1
                   /\ (forall row k, 0 <= row < Z.quot height 2 -> 0 <= k < width ->
                         get nv21_data (width * height + row * width + k)
                         = mem (v_data + row * uv_row_stride + k))
                   /\ (forall j, j < width * height -> get nv21_data j = get v1 j)).
      { destruct (Z.eqb_spec uv_row_stride width) as [->|_].
        - apply memcpy_Ok in E as (_ & Hl & Hs & Hk).
          split; [exact Hl|]. split.
          + intros row k Hrow Hk'.
            specialize (Hs (row * width + k) ltac:(nia)).
            rewrite !Z.add_assoc in Hs. exact Hs.
          + intros j Hj. apply Hk. lia.
        - apply copy_rows_Ok in E as (Hl & Hs & Hk); [|exact Hw].
          split; [exact Hl|]. split; [exact Hs|].
          intros j Hj. apply Hk. lia. }
      destruct Hc as (Hl & Hs & Hk).
      destruct (Hkeep nv21_data Hl Hk) as [HL HY].
      split; [exact HL|]. split; [exact HY|].
      split; [intros; lia|]. split; [intros _ _; exact Hs|].
      split; intros; lia.
    - apply interleave_vu_Ok in E as (Hl & Hs & Hk); [|exact Hw].
      destruct (Hkeep nv21_data Hl) as [HL HY]; [intros j Hj; apply Hk; lia|].
      split; [exact HL|]. split; [exact HY|].
      split; [intros; lia|]. split; [intros; lia|].
      split; [intros _ _; exact Hs | intros; lia]. }
  injection E as <-.
  destruct (Hkeep v1 eq_refl) as [HL HY]; [reflexivity|].
  split; [exact HL|]. split; [exact HY|].
  split; [intros; lia|]. split; [intros; lia|]. split; [intros; lia|].
  intros _ _ k Hk. rewrite Hk1 by lia. apply Hz. lia.
Qed.

Lemma nv21_pack_luma_and_chroma_witness :
  exists nv21_data,
    nv21_pack ramp 0 100 200 4 2 6 3 1 = Ok nv21_data
    /\ get nv21_data (1 * 4 + 2) = ramp (0 + 1 * 6 + 2)
    /\ get nv21_data (4 * 2 + 0 * 4 + 1 * 2) = ramp (200 + (0 * 3 + 1))
    /\ get nv21_data (4 * 2 + 0 * 4 + 1 * 2 + 1) = ramp (100 + (0 * 3 + 1)).
Proof.
  destruct (nv21_pack ramp 0 100 200 4 2 6 3 1) as [nv21_data| |] eqn:E;
    try (vm_compute in E; discriminate).
  exists nv21_data. split; [reflexivity|].
  destruct (nv21_pack_luma_and_chroma ramp 0 100 200 4 2 6 3 1 nv21_data
              ltac:(lia) ltac:(lia) E) as (_ & HY & HUV & _).
  split; [apply HY; lia|].
  apply (HUV eq_refl 0 1); (split; [lia | reflexivity]).
Defined.

(** ** The YOLOX grid *)

Lemma flat_map_rows_length {A} (f : nat -> nat -> A) (m s n : nat) :
  length (flat_map (fun gy => map (f gy) (seq 0 m)) (seq s n)) = (n * m)%nat.
Proof.
  revert s. induction n as [|n IH]; intros s; [reflexivity|].
  cbn [seq flat_map]. rewrite length_app, length_map, length_seq, IH. lia.
Qed.

Lemma flat_map_rows_lookup {A} (f : nat -> nat -> A) (m s n k gx : nat) :
  (k < n)%nat -> (gx < m)%nat ->
  flat_map (fun gy => map (f gy) (seq 0 m)) (seq s n) !! (k * m + gx)%nat
  = Some (f (s + k)%nat gx).
Proof.
  revert s k. induction n as [|n IH]; intros s k Hk Hgx; [lia|].
  cbn [seq flat_map]. destruct k as [|k].
  - rewrite lookup_app_l by (rewrite length_map, length_seq; lia).
    cbn [Nat.mul Nat.add]. rewrite list_lookup_fmap, lookup_seq_lt by lia.
    cbn. rewrite Nat.add_0_r. reflexivity.
  - rewrite lookup_app_r by (rewrite length_map, length_seq; lia).
    rewrite length_map, length_seq.
    replace (S k * m + gx - m)%nat with (k * m + gx)%nat by lia.
    rewrite IH by lia. f_equal. f_equal. lia.
Qed.

Lemma stride_block_length input_width stride :
  Z.of_nat (length (stride_block input_width stride))
  = Z.max 0 (Z.quot input_width stride) * Z.max 0 (Z.quot input_width stride).
Proof. unfold stride_block. rewrite flat_map_rows_length. nia. Qed.

Lemma stride_block_lookup input_width stride gx gy :
  0 <= gx < Z.max 0 (Z.quot input_width stride) ->
  0 <= gy < Z.max 0 (Z.quot input_width stride) ->
  stride_block input_width stride
    !! Z.to_nat (gy * Z.max 0 (Z.quot input_width stride) + gx)
  = Some (gx, gy, stride).
Proof.
  intros Hx Hy.
  replace (Z.to_nat (gy * Z.max 0 (Z.quot input_width stride) + gx))
    with (Z.to_nat gy * Z.to_nat (Z.quot input_width stride) + Z.to_nat gx)%nat by nia.
  unfold stride_block. rewrite flat_map_rows_lookup by lia.
  cbn [Nat.add]. rewrite !Z2Nat.id by lia. reflexivity.
Qed.

Lemma grid_cells_blocks input_width :
  grid_cells input_width
  = stride_block input_width 8 ++ stride_block input_width 16 ++ stride_block input_width 32.
Proof. unfold grid_cells, stride_block. cbn [flat_map]. rewrite app_nil_r. reflexivity. Qed.

Lemma grid_cells_lookup input_width stride offset gx gy :
  let g stride := Z.max 0 (Z.quot input_width stride) in
  (stride = 8 /\ offset = 0)
  \/ (stride = 16 /\ offset = g 8 * g 8)
  \/ (stride = 32 /\ offset = g 8 * g 8 + g 16 * g 16) ->
  0 <= gx < g stride -> 0 <= gy < g stride ->
  grid_cells input_width !! Z.to_nat (offset + gy * g stride + gx) = Some (gx, gy, stride).
Proof.
  intros g Hso Hx Hy.
  pose proof (stride_block_length input_width 8) as L8.
  pose proof (stride_block_length input_width 16) as L16.
  pose proof (stride_block_length input_width 32) as L32.
  pose proof (stride_block_lookup input_width stride gx gy Hx Hy) as Hb.
  subst g. cbv beta in *.
  set (g8 := Z.max 0 (Z.quot input_width 8)) in *.
  set (g16 := Z.max 0 (Z.quot input_width 16)) in *.
  set (g32 := Z.max 0 (Z.quot input_width 32)) in *.
  rewrite grid_cells_blocks.
  destruct Hso as [[-> ->] | [[-> ->] | [-> ->]]].
  - fold g8 in Hx, Hy, Hb |- *.
    rewrite lookup_app_l by nia. rewrite Z.add_0_l. exact Hb.
  - fold g16 in Hx, Hy, Hb |- *.
    rewrite lookup_app_r by nia. rewrite lookup_app_l by nia.
    rewrite <- Hb. f_equal. nia.
  - fold g32 in Hx, Hy, Hb |- *.
    rewrite lookup_app_r by nia. rewrite lookup_app_r by nia.
    rewrite <- Hb. f_equal. nia.
Qed.

(** X18.  The grid the YOLOX decoder builds for an input width [W]: with
    [g s = W / s] cells a side for the strides [s] = 8, 16, 32 (none for a
    width that is not positive), it has [g 8]^2 + [g 16]^2 + [g 32]^2
    entries, the strides in that order and each stride row by row: entry
    [offset + gy * g s + gx] holds [(gx, gy, s)].  The height of the input
    plays no part. *)
Theorem grid_cells_raster_order (input_width : Z) :
  let g stride := Z.max 0 (Z.quot input_width stride) in
  let total := g 8 * g 8 + g 16 * g 16 + g 32 * g 32 in
  Z.of_nat (length (grid_cells input_width)) = total
  /\ length (grids_x input_width) = length (grid_cells input_width)
  /\ length (grids_y input_width) = length (grid_cells input_width)
  /\ length (strides_vec input_width) = length (grid_cells input_width)
  /\ (forall stride offset,
        (stride = 8 /\ offset = 0)
        \/ (stride = 16 /\ offset = g 8 * g 8)
        \/ (stride = 32 /\ offset = g 8 * g 8 + g 16 * g 16) ->
        forall gx gy, 0 <= gx < g stride -> 0 <= gy < g stride ->
          let i := Z.to_nat (offset + gy * g stride + gx) in
          grid_cells input_width !! i = Some (gx, gy, stride)
          /\ grids_x input_width !! i = Some (F32.of_int gx)
          /\ grids_y input_width !! i = Some (F32.of_int gy)
          /\ strides_vec input_width !! i = Some (F32.of_int stride))
  /\ (forall i, total <= Z.of_nat i ->
        grids_x input_width !! i = None /\ grids_y input_width !! i = None
        /\ strides_vec input_width !! i = None).
Proof.
  intros g total.
  assert (L8 : Z.of_nat (length (stride_block input_width 8)) = g 8 * g 8)
    by apply stride_block_length.
  assert (L16 : Z.of_nat (length (stride_block input_width 16)) = g 16 * g 16)
    by apply stride_block_length.
  assert (L32 : Z.of_nat (length (stride_block input_width 32)) = g 32 * g 32)
    by apply stride_block_length.
  assert (Hlen : Z.of_nat (length (grid_cells input_width)) = total).
  { rewrite grid_cells_blocks, !length_app. unfold total. lia. }
  split; [exact Hlen|].
  unfold grids_x, grids_y, strides_vec.
  split; [apply length_map|]. split; [apply length_map|]. split; [apply length_map|].
  split.
  - cbv zeta. intros stride offset Hso gx gy Hx Hy.
    pose proof (grid_cells_lookup input_width stride offset gx gy Hso Hx Hy) as Hc.
    cbv zeta beta in Hc. fold (g stride) in Hc.
    split; [exact Hc|].
    change (map ?f ?l) with (f <$> l). rewrite !list_lookup_fmap, Hc. auto.
  - intros i Hi. change (map ?f ?l) with (f <$> l).
    rewrite !list_lookup_fmap, (lookup_ge_None_2 (grid_cells input_width) i) by lia. auto.
Qed.

Lemma grid_cells_raster_order_witness :
  Z.of_nat (length (grid_cells 64)) = 84
  /\ grids_x 64 !! Z.to_nat (64 + 3 * 4 + 1) = Some (F32.of_int 1)
  /\ grids_y 64 !! Z.to_nat (64 + 3 * 4 + 1) = Some (F32.of_int 3)
  /\ strides_vec 64 !! Z.to_nat (64 + 3 * 4 + 1) = Some (F32.of_int 16)
  /\ grids_x 64 !! 84%nat = None.
Proof.
  destruct (grid_cells_raster_order 64) as (Hlen & _ & _ & _ & Hcell & Hout).
  split; [exact Hlen|].
  destruct (Hcell 16 64 ltac:(right; left; split; reflexivity) 1 3
                  ltac:(split; [lia | reflexivity]) ltac:(split; [lia | reflexivity]))
    as (_ & Hx & Hy & Hs).
  split; [exact Hx|]. split; [exact Hy|]. split; [exact Hs|].
  apply (Hout 84%nat). vm_compute. discriminate.
Defined.

(** ** Outputs without boxes *)

(** X19.  Where [postprocess] returns no detection without reading the
    tensor: for a shape of no dimension, whatever the model; for PP-YOLOE
    when the row count it derives is not positive (shapes [[0, 6]] and
    [[b, 0, 6]], and every shape of three or more dimensions in which
    neither inner dimension is 6); for YOLOX when the box dimension is not
    positive; for YOLOv8 when both inner dimensions are not positive. *)
Theorem postprocess_without_boxes
  (std_sort : list Detection -> list Detection) (expf : F32.float -> F32.float)
  (d : YoloDetector) (output : list F32.float)
  (output_count original_width original_height : Z) (tr : Transform)
  (conf_threshold iou_threshold : F32.float) :
  sorts_by_confidence std_sort ->
  let run shape := postprocess std_sort expf d output shape output_count
                               original_width original_height tr
                               conf_threshold iou_threshold in
  run [] = Ok []
  /\ (m_model_type d = PPYOLOE ->
      run [0; 6] = Ok []
      /\ (forall b, run [b; 0; 6] = Ok [])
      /\ (forall b dim1 dim2 rest, dim1 <> 6 -> dim2 <> 6 ->
            run (b :: dim1 :: dim2 :: rest) = Ok []))
  /\ (m_model_type d = YOLOX ->
      forall b dim1 dim2 rest, - 2 ^ 31 <= dim1 <= 0 ->
        run (b :: dim1 :: dim2 :: rest) = Ok [])
  /\ (m_model_type d = YOLOV8 ->
      forall b dim1 dim2 rest, - 2 ^ 31 <= dim1 <= 0 -> - 2 ^ 31 <= dim2 <= 0 ->
        run (b :: dim1 :: dim2 :: rest) = Ok []).
Proof.
  intros Hsort run. subst run. cbv beta.
  split; [reflexivity|]. split; [|split].
  - intros Hty. unfold postprocess. rewrite Hty. split; [reflexivity|]. split.
    + intros b. reflexivity.
    + intros b dim1 dim2 rest H1 H2. cbn [output_dims].
      unfold postprocess_ppyoloe, ppyoloe_num_detections. cbn [length].
      replace (dim1 =? 6) with false by lia. replace (dim2 =? 6) with false by lia.
      reflexivity.
  - intros Hty b dim1 dim2 rest H1. unfold postprocess. rewrite Hty.
    cbn [output_dims]. unfold decode_yolox.
    rewrite (cast_int_id dim1) by lia. replace (Z.to_nat dim1) with O by lia.
    apply nms_nil, Hsort.
  - intros Hty b dim1 dim2 rest H1 H2. unfold postprocess. rewrite Hty.
    cbn [output_dims]. unfold decode_yolov8.
    rewrite (cast_int_id dim1), (cast_int_id dim2) by lia.
    destruct (dim2 <? dim1);
      [replace (Z.to_nat dim1) with O by lia | replace (Z.to_nat dim2) with O by lia];
      apply nms_nil, Hsort.
Qed.

Lemma postprocess_without_boxes_witness :
  postprocess sample_sort sample_expf yolox_2x2 [] [1; 0; 85] 0 64 64 identity_transform
              quarter iou_045 = Ok []
  /\ postprocess sample_sort sample_expf yolov8_64 [] [1; 0; 0] 0 64 64 identity_transform
                 quarter iou_045 = Ok [].
Proof.
  split.
  - refine (proj1 (proj2 (proj2 (postprocess_without_boxes sample_sort sample_expf
              yolox_2x2 [] 0 64 64 identity_transform quarter iou_045 sample_sort_sorts)))
            eq_refl 1 0 85 [] _). lia.
  - refine (proj2 (proj2 (proj2 (postprocess_without_boxes sample_sort sample_expf
              yolov8_64 [] 0 64 64 identity_transform quarter iou_045 sample_sort_sorts)))
            eq_refl 1 0 0 [] _ _); lia.
Defined.

(** X20.  A YOLOv8 output that holds no box, in the layout
    [[b, features, 0]]: [postprocess] takes the larger inner dimension for
    the number of boxes, so it goes through [features] boxes of no value
    and reads the four coordinates of the first one outside the empty
    tensor. *)
Theorem yolov8_empty_output_read_as_boxes
  (std_sort : list Detection -> list Detection) (expf : F32.float -> F32.float)
  (d : YoloDetector) (b features : Z)
  (original_width original_height : Z) (tr : Transform)
  (conf_threshold iou_threshold : F32.float) :
  m_model_type d = YOLOV8 -> 0 < features < 2 ^ 31 ->
  postprocess std_sort expf d [] [b; features; 0] 0 original_width original_height tr
              conf_threshold iou_threshold
  = Undefined.
Proof.
  intros Hty Hf. unfold postprocess. rewrite Hty. cbn [output_dims].
  unfold decode_yolov8. replace (0 <? features) with true by lia.
  rewrite (cast_int_id features) by lia.
  destruct (Z.to_nat features) as [|n] eqn:E; [lia|].
  reflexivity.
Qed.

Lemma yolov8_empty_output_read_as_boxes_witness :
  postprocess sample_sort sample_expf yolov8_64 [] [1; 84; 0] 0 64 64 identity_transform
              quarter iou_045
  = Undefined.
Proof.
  apply (yolov8_empty_output_read_as_boxes sample_sort sample_expf yolov8_64 1 84);
    [reflexivity | lia].
Defined.

(** ** The input size [init] records *)

Lemma init_scale_inputs_size inputs acc :
  Forall (fun inp => signals_scale inp = true) inputs ->
  m_input_width (foldl init_input acc inputs).2 = m_input_width acc.2
  /\ m_input_height (foldl init_input acc inputs).2 = m_input_height acc.2.
Proof.
  intros H. revert acc. induction H as [|inp inputs Hs _ IH]; intros acc; [auto|].
  cbn [foldl]. destruct (IH (init_input acc inp)) as [-> ->].
  destruct acc as [flag d]. unfold init_input. unfold signals_scale in Hs. rewrite Hs.
  auto.
Qed.

(** X21.  The input size after [init], for a model with one image input
    (and any inputs whose names hold "scale", before or after it): a
    four-dimensional shape [[n, c, h, w]] sets the height to [h] and the
    width to [w], each only when it is positive, a dynamic dimension
    leaving the value the detector had (640 for a new one); a shape of
    another rank leaves both.  The outputs, whatever their shapes, have no
    part in it. *)
Theorem init_input_size
  (scales_before scales_after : list TensorInfo) (inp : TensorInfo)
  (outputs : list TensorInfo) (d : YoloDetector) :
  Forall (fun i => signals_scale i = true) scales_before ->
  Forall (fun i => signals_scale i = true) scales_after ->
  signals_scale inp = false ->
  let session := {| session_inputs := scales_before ++ inp :: scales_after;
                    session_outputs := outputs |} in
  let d' := (init (Some session) d).2 in
  match tensor_shape inp with
  | [_; _; h; w] =>
      m_input_height d' = (if 0 <? h then cast_int h else m_input_height d)
      /\ m_input_width d' = (if 0 <? w then cast_int w else m_input_width d)
  | _ => m_input_height d' = m_input_height d /\ m_input_width d' = m_input_width d
  end.
Proof.
  intros Hb Ha Hinp session d'. subst d' session. unfold init. cbn [session_inputs session_outputs].
  rewrite foldl_app. cbn [foldl].
  pose proof (init_scale_inputs_size scales_before (false, d) Hb) as [Hw0 Hh0].
  set (acc0 := foldl init_input (false, d) scales_before) in *.
  pose proof (init_scale_inputs_size scales_after (init_input acc0 inp) Ha) as [Hw1 Hh1].
  destruct (foldl init_input (init_input acc0 inp) scales_after) as [has_scale d1].
  cbn [fst snd] in *.
  set (d2 := if has_scale then set_model PPYOLOE 80 d1 else d1).
  assert (Hd2 : m_input_width d2 = m_input_width d1 /\ m_input_height d2 = m_input_height d1)
    by (unfold d2; destruct has_scale; auto).
  destruct Hd2 as [Hw2 Hh2].
  destruct (init_outputs_frame outputs d2) as (_ & _ & _ & _ & Hw3 & Hh3).
  cbn [set_initialized m_input_width m_input_height].
  rewrite Hw3, Hh3, Hw2, Hh2, Hw1, Hh1.
  destruct acc0 as [flag d0]. cbn [snd] in Hw0, Hh0.
  unfold init_input. unfold signals_scale in Hinp. rewrite Hinp.
  destruct (tensor_shape inp) as [|? [|? [|h [|w [|]]]]]; cbn; rewrite ?Hw0, ?Hh0; auto.
Qed.

Lemma init_input_size_witness :
  let session :=
    {| session_inputs := [ {| tensor_name := "images"; tensor_shape := [1; 3; -1; 416] |} ];
       session_outputs := [ {| tensor_name := "output0"; tensor_shape := [1; 84; 3549] |} ] |} in
  m_input_height (init (Some session) new_YoloDetector).2 = 640
  /\ m_input_width (init (Some session) new_YoloDetector).2 = 416.
Proof.
  exact (init_input_size [] []
           {| tensor_name := "images"; tensor_shape := [1; 3; -1; 416] |}
           [ {| tensor_name := "output0"; tensor_shape := [1; 84; 3549] |} ]
           new_YoloDetector (List.Forall_nil _) (List.Forall_nil _) eq_refl).
Defined.

(** ** A threshold that filters nothing *)

Lemma for_each_all_pushed {A} (body : Z -> result (option A)) start n l :
  for_each body start n = Ok l ->
  (forall i, start <= i < start + Z.of_nat n -> body i <> Ok None) ->
  length l = n.
Proof.
  revert start l. induction n as [|n IH]; intros start l E Hsome.
  - injection E as <-. reflexivity.
  - cbn [for_each] in E. apply bind_Ok in E as (r & Hr & E).
    apply bind_Ok in E as (rest & Hrest & E). injection E as <-.
    destruct r as [a|]; [|destruct (Hsome start ltac:(lia) Hr)].
    cbn [length]. f_equal. apply (IH _ _ Hrest). intros i Hi. apply Hsome. lia.
Qed.

(** X22.  With a confidence threshold that is zero or negative the
    YOLOv8 decoder filters nothing: when it completes, the candidates it
    hands to the suppressor are as many as the boxes of the tensor. *)
Theorem decode_yolov8_threshold_zero_keeps_every_box
  (d : YoloDetector) (output : list F32.float) (dim1 dim2 : Z)
  (original_width original_height : Z) (tr : Transform)
  (conf_threshold : F32.float) (candidates : list Detection) :
  F32.leb conf_threshold F32.zero = true ->
  decode_yolov8 d output dim1 dim2 original_width original_height tr conf_threshold
  = Ok candidates ->
  length candidates
  = Z.to_nat (if dim2 <? dim1 then cast_int dim1 else cast_int dim2).
Proof.
  intros Ht E. unfold decode_yolov8 in E.
  apply (for_each_all_pushed _ _ _ _ E).
  intros i _ Hrow. unfold yolov8_row in Hrow.
  do 4 (apply bind_Ok in Hrow as (? & _ & Hrow)).
  apply bind_Ok in Hrow as ([m k] & Hscan & Hrow). cbn [fst snd] in Hrow.
  destruct (scan_classes_best _ _ _ _ _ _ _ (eq_refl : F32.is_nan F32.zero = false) Hscan)
    as (Hmn & Hcase).
  assert (Hpos : F32.leb F32.zero m = true).
  { destruct Hcase as [(-> & _) | (_ & _ & Hgt & _)]; [reflexivity|].
    unfold F32.gtb in Hgt. f32_order. }
  destruct (F32.ltb m conf_threshold) eqn:Hlt.
  - f32_keys. lt3_lia.
  - unfold emit in Hrow. destruct (class_label d k); discriminate.
Qed.

Lemma decode_yolov8_threshold_zero_keeps_every_box_witness :
  exists candidates,
    decode_yolov8 yolov8_64 boxes_by_box 8 6 64 64 identity_transform F32.zero
    = Ok candidates
    /\ length candidates = 8%nat.
Proof.
  destruct (decode_yolov8 yolov8_64 boxes_by_box 8 6 64 64 identity_transform F32.zero)
    as [candidates| |] eqn:E; try (vm_compute in E; discriminate).
  exists candidates. split; [reflexivity|].
  exact (decode_yolov8_threshold_zero_keeps_every_box yolov8_64 boxes_by_box 8 6 64 64
           identity_transform F32.zero candidates eq_refl E).
Defined.

(** ** Decoding a tensor that fits its shape *)

Lemma for_each_succeeds {A} (body : Z -> result (option A)) start n :
  (forall i, start <= i < start + Z.of_nat n -> exists r, body i = Ok r) ->
  exists l, for_each body start n = Ok l.
Proof.
  revert start. induction n as [|n IH]; intros start Hbody; [eexists; reflexivity|].
  cbn [for_each]. destruct (Hbody start ltac:(lia)) as (r & ->). cbn [bind].
  destruct (IH (start + 1)) as (rest & ->); [intros i Hi; apply Hbody; lia|].
  cbn [bind]. eexists. reflexivity.
Qed.

Lemma scan_classes_succeeds (f : Z -> result F32.float) c0 n acc :
  (forall c, c0 <= c < c0 + Z.of_nat n -> exists s, f c = Ok s) ->
  exists best, scan_classes f c0 n acc = Ok best.
Proof.
  revert c0 acc. induction n as [|n IH]; intros c0 acc Hf; [eexists; reflexivity|].
  cbn [scan_classes]. destruct (Hf c0 ltac:(lia)) as (s & ->). cbn [bind].
  apply IH. intros c Hc. apply Hf. lia.
Qed.

Lemma read_succeeds output k :
  0 <= k < Z.of_nat (length output) -> exists v, read output k = Ok v.
Proof.
  intros Hk. unfold read. destruct (Z.ltb_spec k 0); [lia|].
  destruct (lookup_lt_is_Some_2 output (Z.to_nat k) ltac:(lia)) as (v & ->).
  eexists. reflexivity.
Qed.

Lemma class_label_succeeds d id :
  Z.of_nat (length (m_class_names d)) < 2 ^ 31 -> 0 <= id ->
  exists name, class_label d id = Ok name.
Proof.
  intros Hlen Hid. unfold class_label. rewrite cast_int_id by lia.
  destruct (Z.ltb_spec id (Z.of_nat (length (m_class_names d)))); [|eexists; reflexivity].
  destruct (Z.ltb_spec id 0); [lia|].
  destruct (lookup_lt_is_Some_2 (m_class_names d) (Z.to_nat id) ltac:(lia)) as (v & ->).
  eexists. reflexivity.
Qed.

Lemma emit_succeeds d W H bx1 by1 bx2 by2 conf id :
  Z.of_nat (length (m_class_names d)) < 2 ^ 31 -> 0 <= id ->
  exists r, emit d W H bx1 by1 bx2 by2 conf id = Ok r.
Proof.
  intros Hlen Hid. unfold emit.
  destruct (class_label_succeeds d id Hlen Hid) as (name & ->). cbn [bind].
  eexists. reflexivity.
Qed.

Lemma yolov8_row_succeeds d output tp nb features W H tr thr i :
  Z.of_nat (length (m_class_names d)) < 2 ^ 31 ->
  4 <= features -> 0 <= i < nb ->
  nb * features <= Z.of_nat (length output) ->
  exists r, yolov8_row d output tp nb features W H tr thr i = Ok r.
Proof.
  intros Hlen Hf Hi Hfit. unfold yolov8_row.
  assert (R : forall k, 0 <= k < features ->
                exists v, (if tp then read output (i * features + k)
                           else read output (k * nb + i)) = Ok v).
  { intros k Hk. destruct tp; apply read_succeeds; nia. }
  destruct (R 0 ltac:(lia)) as (cx & ->). cbn [bind].
  destruct (R 1 ltac:(lia)) as (cy & ->). cbn [bind].
  destruct (R 2 ltac:(lia)) as (w & ->). cbn [bind].
  destruct (R 3 ltac:(lia)) as (h & ->). cbn [bind].
  destruct (scan_classes_succeeds
              (fun c => if tp then read output (i * features + (4 + c))
                        else read output ((4 + c) * nb + i))
              0 (Z.to_nat (features - 4)) (F32.zero, 0)) as ([m k] & Hscan).
  { intros c Hc. apply R. lia. }
  rewrite Hscan. cbn [bind fst snd].
  destruct (F32.ltb m thr); [eexists; reflexivity|].
  apply emit_succeeds; [exact Hlen|].
  destruct (scan_classes_best _ _ _ _ _ _ _ (eq_refl : F32.is_nan F32.zero = false) Hscan)
    as (_ & [(_ & -> & _) | (Hk & _)]); lia.
Qed.

Lemma yolox_row_succeeds expf d output features W H tr thr i nb :
  Z.of_nat (length (m_class_names d)) < 2 ^ 31 ->
  0 <= m_num_classes d -> 5 + m_num_classes d <= features ->
  0 <= i < nb ->
  nb * features <= Z.of_nat (length output) ->
  nb <= Z.of_nat (length (grid_cells (m_input_width d))) ->
  exists r, yolox_row expf d output features W H tr thr i = Ok r.
Proof.
  intros Hlen Hn Hf Hi Hfit Hgrid. unfold yolox_row. cbv zeta.
  assert (R : forall k, 0 <= k < features -> exists v, read output (i * features + k) = Ok v).
  { intros k Hk. apply read_succeeds. nia. }
  destruct (R 4 ltac:(lia)) as (obj & ->). cbn [bind].
  destruct (F32.ltb obj thr); [eexists; reflexivity|].
  destruct (scan_classes_succeeds
              (fun c => read output (i * features + 5 + c))
              0 (Z.to_nat (m_num_classes d)) (F32.zero, 0)) as ([m k] & Hscan).
  { intros c Hc. rewrite <- Z.add_assoc. apply R. lia. }
  rewrite Hscan. cbn [bind fst snd].
  destruct (F32.ltb _ thr); [eexists; reflexivity|].
  assert (G : forall (f : Z * Z * Z -> F32.float),
            exists v, map f (grid_cells (m_input_width d)) !! Z.to_nat i = Some v).
  { intros f. apply lookup_lt_is_Some_2. rewrite length_map. lia. }
  unfold grids_x, grids_y, strides_vec.
  destruct (G (fun c => F32.of_int c.1.1)) as (gx & ->). cbn [or_undefined bind].
  destruct (G (fun c => F32.of_int c.1.2)) as (gy & ->). cbn [or_undefined bind].
  destruct (G (fun c => F32.of_int c.2)) as (st & ->). cbn [or_undefined bind].
  destruct (R 0 ltac:(lia)) as (b0 & ->). cbn [bind].
  destruct (R 1 ltac:(lia)) as (b1 & ->). cbn [bind].
  destruct (R 2 ltac:(lia)) as (b2 & ->). cbn [bind].
  destruct (R 3 ltac:(lia)) as (b3 & ->). cbn [bind].
  apply emit_succeeds; [exact Hlen|].
  destruct (scan_classes_best _ _ _ _ _ _ _ (eq_refl : F32.is_nan F32.zero = false) Hscan)
    as (_ & [(_ & -> & _) | (Hk & _)]); lia.
Qed.

Lemma ppyoloe_row_succeeds d output W H thr i nb :
  Z.of_nat (length (m_class_names d)) < 2 ^ 31 ->
  0 <= i < nb ->
  nb * 6 <= Z.of_nat (length output) ->
  (exists v id, output !! Z.to_nat (i * 6) = Some v /\ F32.to_int v = Some id) ->
  exists r, ppyoloe_row d output W H thr i = Ok r.
Proof.
  intros Hlen Hi Hfit (v & id & Hv & Hid). unfold ppyoloe_row.
  assert (R : forall k, 0 <= k < 6 -> exists v, read output (i * 6 + k) = Ok v).
  { intros k Hk. apply read_succeeds. nia. }
  assert (R0 : read output (i * 6 + 0) = Ok v).
  { apply read_Ok. split; [lia|]. rewrite Z.add_0_r. exact Hv. }
  rewrite R0. cbn [bind]. rewrite Hid. cbn [or_undefined bind].
  destruct (R 1 ltac:(lia)) as (score & ->). cbn [bind].
  destruct (R 2 ltac:(lia)) as (bx1 & ->). cbn [bind].
  destruct (R 3 ltac:(lia)) as (by1 & ->). cbn [bind].
  destruct (R 4 ltac:(lia)) as (bx2 & ->). cbn [bind].
  destruct (R 5 ltac:(lia)) as (by2 & ->). cbn [bind].
  destruct (F32.ltb score thr); [eexists; reflexivity|].
  destruct (Z.ltb_spec id 0); [eexists; reflexivity|].
  apply emit_succeeds; [exact Hlen | lia].
Qed.

(** X23.  Decoding is defined on a tensor that fits its shape
    [[b, dim1, dim2]] and holds [dim1 * dim2] elements: [postprocess]
    returns a list of detections, no read falling outside the tensor, the
    grid or the table of class names, and the candidates handed to
    [std::sort] having confidences that are numbers.  The shape fits a
    YOLOv8 model when its smaller inner dimension (the values of a box) is
    at least 4; a YOLOX model when each of the [dim1] boxes has at least 5
    values plus the class count, the grid has a cell for each, and the
    tensor holds finite values (the confidence is a product, a NaN for an
    infinite objectness and a zero score); a PP-YOLOE model when [dim2]
    is 6 and the first value of each row converts to an [int]. *)
Theorem postprocess_defined_on_fitting_tensor
  (std_sort : list Detection -> list Detection) (expf : F32.float -> F32.float)
  (d : YoloDetector) (output : list F32.float)
  (b dim1 dim2 output_count original_width original_height : Z) (tr : Transform)
  (conf_threshold iou_threshold : F32.float) :
  Z.of_nat (length (m_class_names d)) < 2 ^ 31 ->
  0 <= dim1 < 2 ^ 31 -> 0 <= dim2 < 2 ^ 31 ->
  dim1 * dim2 <= Z.of_nat (length output) ->
  match m_model_type d with
  | YOLOV8 => 4 <= Z.min dim1 dim2
  | YOLOX =>
      0 <= m_num_classes d /\ 5 + m_num_classes d <= dim2
      /\ dim1 <= Z.of_nat (length (grid_cells (m_input_width d)))
      /\ Forall (fun v => is_finite v = true) output
  | PPYOLOE =>
      dim2 = 6
      /\ forall i, 0 <= i < dim1 ->
           exists v id, output !! Z.to_nat (i * 6) = Some v /\ F32.to_int v = Some id
  end ->
  exists dets,
    postprocess std_sort expf d output [b; dim1; dim2] output_count
                original_width original_height tr conf_threshold iou_threshold
    = Ok dets.
Proof.
  intros Hlen H1 H2 Hfit Hshape. unfold postprocess. cbn [output_dims].
  assert (Hnms : forall l, no_nan_confidence l ->
                   exists dets, nms std_sort l iou_threshold = Ok dets).
  { intros l. apply nms_completes. }
  destruct (m_model_type d).
  3: { destruct Hshape as [-> Hrows].
       unfold postprocess_ppyoloe, ppyoloe_num_detections. cbn [length].
       assert (Hnum : (if (dim1 =? 6) && (0 <? 6) then cast_int 6
                       else if (6 =? 6) && (0 <? dim1) then cast_int dim1
                       else if dim1 =? 6 then cast_int (output_count / 6) else 0) = dim1).
       { destruct (Z.eqb_spec dim1 6) as [->|Hne]; [reflexivity|].
         cbn [andb Z.eqb Pos.eqb]. destruct (Z.ltb_spec 0 dim1); [apply cast_int_id; lia | lia]. }
       rewrite Hnum. destruct (Z.leb_spec dim1 0); [eexists; reflexivity|].
       apply for_each_succeeds. intros i Hi.
       apply (ppyoloe_row_succeeds d output _ _ _ i dim1); [exact Hlen | lia | lia |].
       apply Hrows. lia. }
  - unfold decode_yolov8. rewrite !cast_int_id by lia.
    match goal with |- context [for_each ?body ?s ?n] =>
      destruct (for_each_succeeds body s n) as (l & Hl) end.
    + intros i Hi. destruct (Z.ltb_spec dim2 dim1).
      * apply yolov8_row_succeeds; [exact Hlen | lia | lia | lia].
      * apply yolov8_row_succeeds; [exact Hlen | lia | lia | lia].
    + rewrite Hl. cbn [bind]. apply Hnms. apply Forall_forall. intros x Hx.
      apply for_each_Ok in Hl as [Hl _]. destruct (Hl x Hx) as (i & _ & Hi).
      apply yolov8_row_Ok in Hi. tauto.
  - destruct Hshape as (Hn & Hf & Hgrid & Hfin).
    unfold decode_yolox. rewrite !cast_int_id by lia.
    match goal with |- context [for_each ?body ?s ?n] =>
      destruct (for_each_succeeds body s n) as (l & Hl) end.
    + intros i Hi. apply (yolox_row_succeeds expf d output dim2 _ _ _ _ i dim1);
        [exact Hlen | lia | lia | lia | lia | lia].
    + rewrite Hl. cbn [bind]. apply Hnms. apply Forall_forall. intros x Hx.
      apply for_each_Ok in Hl as [Hl _]. destruct (Hl x Hx) as (i & _ & Hi).
      apply yolox_row_Ok in Hi as (_ & _ & Hnan). apply Hnan, Hfin.
Qed.

Lemma postprocess_defined_on_fitting_tensor_witness :
  exists dets,
    postprocess sample_sort sample_expf yolov8_64 boxes_by_field [1; 6; 8] 48 64 64
                identity_transform quarter iou_045 = Ok dets.
Proof.
  apply (postprocess_defined_on_fitting_tensor sample_sort sample_expf yolov8_64
           boxes_by_field 1 6 8 48 64 64 identity_transform quarter iou_045);
    [vm_compute; reflexivity | lia | lia | vm_compute; discriminate | cbn; lia].
Defined.

(** ** The results of the three calls *)




(** ** The YUV call with its repacking *)

(** X25.  [detectFromYUV] as a whole, the conversion and the rotation
    being OpenCV's.  On a detector that is not initialised it returns the
    NOT_INITIALIZED error object before it looks at its arguments.  On an
    initialised one, for a width and a height whose product and its
    triple fit an [int], a buffer size [width * height * 3 / 2] that is
    negative raises an exception that nothing in the call catches; and a
    rotation other than 90, 180 and 270 is no rotation: the call gives
    what it gives for the rotation 0. *)
Theorem detectFromYUV_sizes_and_rotation
  (cv_resize : Mat -> Z -> Z -> result Mat)
  (std_sort : list Detection -> list Detection) (expf : F32.float -> F32.float)
  (session_run : list Tensor -> result Tensor) (mem : Memory)
  (cv_nv21_to_bgr : list Byte.byte -> Z -> Z -> result Mat)
  (cv_rotate : Mat -> RotateFlags -> result Mat)
  (d : YoloDetector) (y_data u_data v_data : Z)
  (width height y_row_stride uv_row_stride uv_pixel_stride rotation : Z)
  (conf_threshold iou_threshold : F32.float) :
  let call rotation :=
    detectFromYUV cv_resize std_sort expf session_run Z
                  (yuv_frame mem cv_nv21_to_bgr cv_rotate)
                  d y_data u_data v_data width height
                  y_row_stride uv_row_stride uv_pixel_stride rotation
                  conf_threshold iou_threshold in
  (m_initialized d = false -> call rotation = Ok NOT_INITIALIZED)
  /\ (m_initialized d = true ->
      - 2 ^ 31 <= width * height < 2 ^ 31 ->
      - 2 ^ 31 <= width * height * 3 < 2 ^ 31 ->
      Z.quot (width * height * 3) 2 < 0 ->
      call rotation = Throws)
  /\ (rotation <> 90 -> rotation <> 180 -> rotation <> 270 -> call rotation = call 0).
Proof.
  intros call. subst call. cbv beta. unfold detectFromYUV.
  split; [|split].
  - intros ->. reflexivity.
  - intros -> Harea Harea3 Hneg. cbn [negb]. unfold yuv_frame, nv21_pack.
    rewrite (int_of_fits (width * height)) by lia. cbn [bind].
    rewrite (int_of_fits (width * height * 3)) by lia. cbn [bind]. cbv zeta.
    destruct (Z.ltb_spec (Z.quot (width * height * 3) 2) 0); [reflexivity | lia].
  - intros H90 H180 H270. destruct (negb (m_initialized d)); [reflexivity|].
    unfold yuv_frame.
    replace (rotation =? 90) with false by lia.
    replace (rotation =? 180) with false by lia.
    replace (rotation =? 270) with false by lia.
    reflexivity.
Qed.

Lemma detectFromYUV_sizes_and_rotation_witness :
  detectFromYUV sample_resize sample_sort sample_expf (fun _ => Throws) Z
                (yuv_frame ramp (fun _ _ _ => Throws) (fun _ _ => Throws))
                yolox_2x2 0 100 200 (-4) 2 4 4 1 0 quarter iou_045
  = Throws.
Proof.
  refine (proj1 (proj2 (detectFromYUV_sizes_and_rotation
            sample_resize sample_sort sample_expf (fun _ => Throws) ramp
            (fun _ _ _ => Throws) (fun _ _ => Throws)
            yolox_2x2 0 100 200 (-4) 2 4 4 1 0 quarter iou_045)) _ _ _ _).
  - reflexivity.
  - lia.
  - lia.
  - vm_compute. reflexivity.
Defined.
